(** * Vaccination dashboard: the data-wrangling module

    A shallow embedding of [wrangling_scripts/wrangle_data.py]: the four
    functions [clean_data], [vax_per_continent], [vax_time_series] and
    [return_figures], over a model of the pandas operations they call.

    - Numbers are IEEE-754 binary64 values (Rocq's primitive floats), as
      in a [float64] column; the missing value of a numeric column is NaN.
    - A column is a [Series] of dtype [float64] or [object]; an object
      column holds Python strings and floats (NaN for a missing entry).
    - A [DataFrame] is its ordered list of labelled columns.  Row labels
      (the index) are not represented: every row selection of this
      program is positional ([head], [iloc]) or through a mask computed
      from the frame it is applied to, which pandas aligns position by
      position.  Column labels within a frame are taken to be distinct,
      as [read_csv] makes them.
    - Frames are Python objects: they live in a [heap] and the program
      holds references to them; [df[key] = value] updates the referenced
      frame in place, the other operations allocate a new frame.
    - Exceptions are the [Raise] results of an error monad.
    - Plotly's traces, layouts and figures are plain records; plotly's own
      validation of property values is outside this model. *)

From Stdlib Require Import Floats Sorted Ascii.
From stdpp Require Import base list strings.

Local Open Scope string_scope.
Local Open Scope list_scope.

(** ** Python values, exceptions *)

Inductive pyobj :=
| PyFloat (f : float)
| PyStr (s : string).

Inductive exn :=
| KeyError (key : string)
| TypeError
| IndexError
| AttributeError (name : string)
| ZeroDivisionError
| FileNotFoundError (path : string)
| ReferenceError.

Inductive result (A : Type) :=
| Ok (a : A)
| Raise (e : exn).
Arguments Ok {A} a.
Arguments Raise {A} e.

#[global] Instance result_ret : MRet result := @Ok.
#[global] Instance result_bind : MBind result := λ A B f m,
  match m with Ok a => f a | Raise e => Raise e end.
#[global] Instance result_fmap : FMap result := λ A B f m,
  match m with Ok a => Ok (f a) | Raise e => Raise e end.
#[global] Instance result_throw : MThrow exn result := @Raise.

(** ** Series and frames *)

Inductive Series :=
| Float64 (values : list float)
| Object (values : list pyobj).

Abbreviation DataFrame := (list (string * Series)).

(** [list(series)]: the entries as Python objects. *)
Definition objects (s : Series) : list pyobj :=
  match s with
  | Float64 v => PyFloat <$> v
  | Object v => v
  end.

Definition size (s : Series) : nat := length (objects s).

(** [pd.isna] on one entry: NaN is missing, a string is not (and neither
    is an infinity). *)
Definition isna (o : pyobj) : bool :=
  match o with
  | PyFloat f => PrimFloat.is_nan f
  | PyStr _ => false
  end.

(** [series.isna()], [mask == False] and [series == "text"]. *)
Definition series_isna (s : Series) : list bool := isna <$> objects s.

Definition eq_False (mask : list bool) : list bool := negb <$> mask.

Definition py_eq_str (text : string) (o : pyobj) : bool :=
  match o with
  | PyStr s => String.eqb s text
  | PyFloat _ => false
  end.

Definition series_eq (s : Series) (text : string) : list bool :=
  py_eq_str text <$> objects s.

(** Boolean-mask selection [values[mask]]. *)
Fixpoint select {A} (mask : list bool) (l : list A) : list A :=
  match mask, l with
  | b :: mask', x :: l' => if b then x :: select mask' l' else select mask' l'
  | _, _ => []
  end.

(** Positional selection [values.take(indexer)]. *)
Definition take_positions {A} (indexer : list nat) (l : list A) : list A :=
  omap (λ i, l !! i) indexer.

Definition series_map (f : ∀ A, list A → list A) (s : Series) : Series :=
  match s with
  | Float64 v => Float64 (f _ v)
  | Object v => Object (f _ v)
  end.

Definition frame_map (f : ∀ A, list A → list A) (df : DataFrame) : DataFrame :=
  prod_map id (series_map f) <$> df.

(** [df[key]] on a frame value; [KeyError] for an absent label. *)
Fixpoint column (df : DataFrame) (key : string) : result Series :=
  match df with
  | [] => Raise (KeyError key)
  | (label, s) :: df' => if String.eqb label key then Ok s else column df' key
  end.

(** [df.name] on a frame value: the column of that name. *)
Definition attribute (df : DataFrame) (name : string) : result Series :=
  match column df name with
  | Ok s => Ok s
  | Raise _ => Raise (AttributeError name)
  end.

(** [df[[k1; ...; kn]]]: the listed columns, in the order listed. *)
Definition columns (df : DataFrame) (keys : list string) : result DataFrame :=
  mapM (λ key, s ← column df key; mret (key, s)) keys.

(** The frame after [df[key] = s]: an existing column is replaced where it
    stands, a new one is appended. *)
Fixpoint set_column (df : DataFrame) (key : string) (s : Series) : DataFrame :=
  match df with
  | [] => [(key, s)]
  | (label, s') :: df' =>
      if String.eqb label key then (label, s) :: df'
      else (label, s') :: set_column df' key s
  end.

(** The entry of column [key] in row [i] ([df[key].iloc[i]]), when the
    frame has that column and that row. *)
Definition entry (df : DataFrame) (key : string) (i : nat) : option pyobj :=
  match column df key with
  | Ok s => objects s !! i
  | Raise _ => None
  end.

(** ** Arithmetic on columns *)

Inductive binop := Sub | Div.

(** The IEEE operation numpy applies to two [float64] entries. *)
Definition float_op (op : binop) : float → float → float :=
  match op with
  | Sub => PrimFloat.sub
  | Div => PrimFloat.div
  end.

(** Python's [a - b] and [a / b] on two objects of an [object] column:
    floats only, and [/] raises on a zero divisor. *)
Definition py_op (op : binop) (a b : pyobj) : result pyobj :=
  match a, b with
  | PyFloat x, PyFloat y =>
      match op with
      | Div => if PrimFloat.eqb y 0 then Raise ZeroDivisionError
               else Ok (PyFloat (PrimFloat.div x y))
      | Sub => Ok (PyFloat (PrimFloat.sub x y))
      end
  | _, _ => Raise TypeError
  end.

(** The same on the pairs that have no missing operand; the others give NaN. *)
Definition py_op_masked (op : binop) (a b : pyobj) : result pyobj :=
  if isna a || isna b then Ok (PyFloat nan) else py_op op a b.

(** Element-wise arithmetic of two columns of one frame.  Two [float64]
    columns are combined by the float operation.  When an [object] column
    takes part, the entries are combined as Python objects; if that fails
    with a [TypeError], pandas retries on the pairs without a missing
    operand and fills the others with NaN. *)
Definition series_arith (op : binop) (a b : Series) : result Series :=
  match a, b with
  | Float64 x, Float64 y => Ok (Float64 (zip_with (float_op op) x y))
  | _, _ =>
      let pairs := zip (objects a) (objects b) in
      match mapM (λ p, py_op op p.1 p.2) pairs with
      | Raise TypeError => Object <$> mapM (λ p, py_op_masked op p.1 p.2) pairs
      | r => Object <$> r
      end
  end.

Definition series_sub : Series → Series → result Series := series_arith Sub.
Definition series_div : Series → Series → result Series := series_arith Div.

Fixpoint str_repeat (s : string) (n : nat) : string :=
  match n with
  | 0 => ""
  | S n' => s +:+ str_repeat s n'
  end.

(** [series * 100]: a float is multiplied, a string of an [object] column
    is repeated. *)
Definition py_mul_100 (o : pyobj) : pyobj :=
  match o with
  | PyFloat x => PyFloat (PrimFloat.mul x 100)
  | PyStr s => PyStr (str_repeat s 100)
  end.

Definition series_mul_100 (a : Series) : Series :=
  match a with
  | Float64 x => Float64 ((λ v, PrimFloat.mul v 100) <$> x)
  | Object x => Object (py_mul_100 <$> x)
  end.

(** ** Grouping: [df.groupby([key])[cols].max()] *)

(** The order in which group labels are laid out ([sort=True]); numbers
    come before strings. *)
Definition label_ltb (a b : pyobj) : bool :=
  match a, b with
  | PyFloat x, PyFloat y => PrimFloat.ltb x y
  | PyStr s, PyStr t => String.ltb s t
  | PyFloat _, PyStr _ => true
  | PyStr _, PyFloat _ => false
  end.

Definition same_label (a b : pyobj) : bool :=
  negb (label_ltb a b) && negb (label_ltb b a).

Fixpoint add_label (k : pyobj) (labels : list pyobj) : list pyobj :=
  match labels with
  | [] => [k]
  | l :: labels' =>
      if label_ltb k l then k :: labels
      else if label_ltb l k then l :: add_label k labels'
      else labels
  end.

(** The distinct keys in increasing order; a row whose key is missing
    belongs to no group ([dropna=True]). *)
Definition group_labels (keys : list pyobj) : list pyobj :=
  foldr add_label [] (List.filter (λ k, negb (isna k)) keys).

(** The maximum of a group of [float64] entries: missing entries are
    skipped, and a group with no entry left gives NaN. *)
Definition float_max (v : list float) : float :=
  match List.filter (λ x, negb (PrimFloat.is_nan x)) v with
  | [] => nan
  | obs => foldl (λ cur x, if PrimFloat.ltb cur x then x else cur) neg_infinity obs
  end.

(** Python's [a > b]. *)
Definition py_gt (a b : pyobj) : result bool :=
  match a, b with
  | PyFloat x, PyFloat y => Ok (PrimFloat.ltb y x)
  | PyStr s, PyStr t => Ok (String.ltb t s)
  | _, _ => Raise TypeError
  end.

Definition py_max (acc : result pyobj) (o : pyobj) : result pyobj :=
  cur ← acc;
  gt ← py_gt o cur;
  Ok (if gt : bool then o else cur).

(** The maximum of a group of objects, missing entries skipped. *)
Definition object_max (v : list pyobj) : result pyobj :=
  match List.filter (λ x, negb (isna x)) v with
  | [] => Ok (PyFloat nan)
  | x :: obs => foldl py_max (Ok x) obs
  end.

Definition group_max (keys labels : list pyobj) (s : Series) : result Series :=
  match s with
  | Float64 v =>
      Ok (Float64 ((λ l, float_max (select (same_label l <$> keys) v)) <$> labels))
  | Object v =>
      Object <$> mapM (λ l, object_max (select (same_label l <$> keys) v)) labels
  end.

Definition grouped_max (df : DataFrame) (key : string) (cols : list string)
  : result DataFrame :=
  keys ← column df key;
  sel ← columns df cols;
  let labels := group_labels (objects keys) in
  mapM (λ c, s ← group_max (objects keys) labels c.2; mret (c.1, s)) sel.

(** ** Sorting: [df.sort_values(by=..., ascending=...)] *)

(** What the program takes from its environment: the table [read_csv]
    finds at a path, and numpy's [argsort] of kind ['quicksort'], the
    default kind of [sort_values].  Numpy documents that kind as not
    stable, so the model fixes no algorithm: [argsort] is any function
    that returns the positions of the keys in non-decreasing order
    ([argsort_spec] below). *)
Record Env := {
  files : string → option DataFrame;
  argsort : list pyobj → list nat
}.

(** Python's [a <= b] on two keys of one type. *)
Definition py_le (a b : pyobj) : bool :=
  match a, b with
  | PyFloat x, PyFloat y => PrimFloat.leb x y
  | PyStr s, PyStr t => String.leb s t
  | _, _ => false
  end.

(** Keys that can be sorted: all numbers or all strings. *)
Definition comparable (keys : list pyobj) : bool :=
  forallb (λ k, match k with PyFloat _ => true | PyStr _ => false end) keys
  || forallb (λ k, match k with PyFloat _ => false | PyStr _ => true end) keys.

(** [pandas.core.sorting.nargsort] with [na_position='last']: the missing
    keys are set aside and go last; a descending sort reverses the other
    keys, sorts them increasingly and reverses the outcome. *)
Definition nargsort (E : Env) (items : list pyobj) (ascending : bool)
  : result (list nat) :=
  let idx := seq 0 (length items) in
  let mask := isna <$> items in
  let non_nans := select (eq_False mask) items in
  let non_nan_idx := select (eq_False mask) idx in
  let nan_idx := select mask idx in
  let non_nans := if ascending then non_nans else reverse non_nans in
  let non_nan_idx := if ascending then non_nan_idx else reverse non_nan_idx in
  if comparable non_nans then
    let indexer := take_positions (argsort E non_nans) non_nan_idx in
    let indexer := if ascending then indexer else reverse indexer in
    Ok (indexer ++ nan_idx)
  else Raise TypeError.

Definition sorted_frame (E : Env) (df : DataFrame) (key : string) (ascending : bool)
  : result DataFrame :=
  keys ← column df key;
  indexer ← nargsort E (objects keys) ascending;
  mret (frame_map (λ A, take_positions indexer) df).

(** ** The heap of frames *)

Abbreviation ref := nat (only parsing).
Abbreviation heap := (list DataFrame).

(** A computation may read and update the heap, and returns or raises. *)
Definition M (A : Type) : Type := heap → result A * heap.

#[global] Instance M_ret : MRet M := λ A a h, (Ok a, h).
#[global] Instance M_bind : MBind M := λ A B f m h,
  match m h with
  | (Ok a, h') => f a h'
  | (Raise e, h') => (Raise e, h')
  end.
#[global] Instance M_throw : MThrow exn M := λ A e h, (Raise e, h).

Definition lift {A} (r : result A) : M A := λ h, (r, h).

Definition new (df : DataFrame) : M ref := λ h, (Ok (length h), h ++ [df]).

Definition load (r : ref) : M DataFrame := λ h,
  match h !! r with
  | Some df => (Ok df, h)
  | None => (Raise ReferenceError, h)
  end.

Definition store (r : ref) (df : DataFrame) : M unit := λ h,
  if decide (r < length h) then (Ok (), <[r:=df]> h) else (Raise ReferenceError, h).

(** ** The pandas calls of the program, on references *)

Definition read_csv (E : Env) (path : string) : M ref :=
  match files E path with
  | Some df => new df
  | None => mthrow (FileNotFoundError path)
  end.

(** [df[key]] *)
Definition getitem (df : ref) (key : string) : M Series :=
  v ← load df; lift (column v key).

(** [df.name] *)
Definition getattr (df : ref) (name : string) : M Series :=
  v ← load df; lift (attribute v name).

(** [df[[k1; ...; kn]]] *)
Definition getitem_list (df : ref) (keys : list string) : M ref :=
  v ← load df; v' ← lift (columns v keys); new v'.

(** [df[mask]] *)
Definition getitem_mask (df : ref) (mask : list bool) : M ref :=
  v ← load df; new (frame_map (λ A, select mask) v).

(** [df[key] = s], in place *)
Definition setitem (df : ref) (key : string) (s : Series) : M unit :=
  v ← load df; store df (set_column v key s).

Definition groupby_max (df : ref) (key : string) (cols : list string) : M ref :=
  v ← load df; v' ← lift (grouped_max v key cols); new v'.

(** [df.reset_index(drop=True)]: a new frame with the same columns. *)
Definition reset_index (df : ref) : M ref :=
  v ← load df; new v.

Definition sort_values (E : Env) (df : ref) (key : string) (ascending : bool) : M ref :=
  v ← load df; v' ← lift (sorted_frame E v key ascending); new v'.

(** [df.head(n)] *)
Definition head (df : ref) (n : nat) : M ref :=
  v ← load df; new (frame_map (λ A, take n) v).

(** [series.iloc[0]] *)
Definition iloc0 (s : Series) : result pyobj :=
  match objects s with
  | o :: _ => Ok o
  | [] => Raise IndexError
  end.

(** ** Plotly values *)

Record Choropleth := {
  colorscale : string;
  locations : Series;
  locationmode : string;
  z : Series;
  text : Series;
  colorbar_title : string;
  reversescale : bool
}.

Record Bar := {
  bar_x : list pyobj;
  bar_y : list pyobj;
  bar_name : option string
}.

Record Scatter := {
  scatter_x : list pyobj;
  scatter_y : list pyobj;
  scatter_mode : string;
  line_width : float;
  connectgaps : bool;
  scatter_name : pyobj
}.

Inductive trace :=
| choropleth (c : Choropleth)
| bar (b : Bar)
| scatter (s : Scatter).

Record Layout := {
  title : string;
  xaxis_title : option string;
  yaxis_title : option string;
  barmode : option string;
  showlegend : bool;
  geo_projection : option string
}.

Record Geos := {
  geo_visible : bool;
  resolution : nat;
  scope : string;
  showcountries : bool;
  countrycolor : string;
  showsubunits : bool;
  subunitcolor : string
}.

Record Figure := {
  data : list trace;
  layout : Layout;
  geos : option Geos
}.

(** [text.lower()], on ASCII letters. *)
Definition lower_ascii (c : ascii) : ascii :=
  let n := nat_of_ascii c in
  if (65 <=? n)%nat && (n <=? 90)%nat then ascii_of_nat (n + 32) else c.

Fixpoint lower (text : string) : string :=
  match text with
  | EmptyString => EmptyString
  | String c rest => String (lower_ascii c) (lower rest)
  end.

(** ** The program *)

(** wrangle_data.py, lines 7-28. *)
Definition clean_data (E : Env) (dataset : string) (keepcols : list string) : M ref :=
  df ← read_csv E dataset;
  world_vax ← groupby_max df "iso_code" keepcols;
  world_vax ← reset_index world_vax;
  people_vaccinated ← getitem world_vax "people_vaccinated";
  people_fully_vaccinated ← getitem world_vax "people_fully_vaccinated";
  partly ← lift (series_sub people_vaccinated people_fully_vaccinated);
  setitem world_vax "people_partly_vaccinated" partly;;
  world_vax ← sort_values E world_vax "people_vaccinated" false;
  continent ← getitem world_vax "continent";
  world_vax ← getitem_mask world_vax (eq_False (series_isna continent));
  mret world_vax.

(** The column list of lines 42 and 128. *)
Definition cols : list string :=
  ["iso_code"; "continent"; "location"; "people_vaccinated";
   "people_fully_vaccinated"; "people_vaccinated_per_hundred";
   "people_fully_vaccinated_per_hundred"].

(** wrangle_data.py, lines 42-48 of [vax_per_continent]: the frames
    [world_vax] and [cont_vax] it builds from [data]. *)
Definition vax_per_continent_frames (E : Env) (data : ref) (continent : string)
  : M (ref * ref) :=
  world_vax ← groupby_max data "iso_code" cols;
  world_vax ← reset_index world_vax;
  people_vaccinated ← getitem world_vax "people_vaccinated";
  people_fully_vaccinated ← getitem world_vax "people_fully_vaccinated";
  partly ← lift (series_sub people_vaccinated people_fully_vaccinated);
  setitem world_vax "people_partly_vaccinated" partly;;
  world_vax ← sort_values E world_vax "people_vaccinated" false;
  continents ← getitem world_vax "continent";
  world_vax ← getitem_mask world_vax (eq_False (series_isna continents));
  continents ← getitem world_vax "continent";
  cont_vax ← getitem_mask world_vax (series_eq continents continent);
  mret (world_vax, cont_vax).

(** wrangle_data.py, lines 30-73. *)
Definition vax_per_continent (E : Env) (data : ref) (continent : string) : M Figure :=
  frames ← vax_per_continent_frames E data continent;
  let cont_vax := frames.2 in
  location ← getitem cont_vax "location";
  fully ← getitem cont_vax "people_fully_vaccinated_per_hundred";
  location' ← getitem cont_vax "location";
  let map_data :=
    {| colorscale := "Greens"; locations := location;
       locationmode := "country names"; z := fully; text := location';
       colorbar_title := "number of doses"; reversescale := false |} in
  let layout :=
    {| title := "People fully vaccinated per hundred in " +:+ continent;
       xaxis_title := None; yaxis_title := None; barmode := None;
       showlegend := false; geo_projection := Some "mercator" |} in
  mret {| data := [choropleth map_data]; layout := layout;
          geos := Some {| geo_visible := false; resolution := 50;
                          scope := lower continent; showcountries := true;
                          countrycolor := "Black"; showsubunits := true;
                          subunitcolor := "Blue" |} |}.

(** wrangle_data.py, lines 89-103: the body of the loop of
    [vax_time_series], for one country. *)
Definition country_trace (dataset : ref) (country : string) : M Scatter :=
  location ← getitem dataset "location";
  rows ← getitem_mask dataset (series_eq location country);
  country_vax ← getitem_list rows ["iso_code"; "date"; "new_vaccinations_per_hundred"];
  metric ← getitem country_vax "new_vaccinations_per_hundred";
  country_vax ← getitem_mask country_vax (eq_False (series_isna metric));
  date ← getattr country_vax "date";
  let x_data := objects date in
  metric ← getattr country_vax "new_vaccinations_per_hundred";
  let y_data := objects metric in
  iso_code ← getattr country_vax "iso_code";
  name ← lift (iloc0 iso_code);
  mret {| scatter_x := x_data; scatter_y := y_data; scatter_mode := "lines";
          line_width := 1; connectgaps := true; scatter_name := name |}.

(** The loop of line 88, appending to [graph]. *)
Fixpoint for_countries (dataset : ref) (countries : list string) (graph : list trace)
  : M (list trace) :=
  match countries with
  | [] => mret graph
  | country :: countries' =>
      t ← country_trace dataset country;
      for_countries dataset countries' (graph ++ [scatter t])
  end.

(** wrangle_data.py, lines 74-111. *)
Definition vax_time_series (countries : list string) (dataset : ref)
  : M (list trace * Layout) :=
  graph ← for_countries dataset countries [];
  let layout :=
    {| title := "vaccination evolution"; xaxis_title := Some "Date";
       yaxis_title := Some "number of vaccines applied"; barmode := None;
       showlegend := true; geo_projection := None |} in
  mret (graph, layout).

(** wrangle_data.py, lines 130-146 of [return_figures]: the first chart. *)
Definition first_chart (world_vax : ref) : M Figure :=
  location ← getitem world_vax "location";
  per_hundred ← getitem world_vax "people_vaccinated_per_hundred";
  location' ← getitem world_vax "location";
  let graph_one :=
    [choropleth {| colorscale := "Greens"; locations := location;
                   locationmode := "country names"; z := per_hundred;
                   text := location'; colorbar_title := "Doses";
                   reversescale := true |}] in
  let layout_one :=
    {| title := "People Vaccinated against COVID-19 in the world";
       xaxis_title := None; yaxis_title := None; barmode := None;
       showlegend := false; geo_projection := Some "natural earth" |} in
  mret {| data := graph_one; layout := layout_one; geos := None |}.

(** Lines 149-170: the second chart, two bar series over the first ten
    rows of [world_vax]. *)
Definition second_chart (world_vax : ref) : M Figure :=
  top ← head world_vax 10;
  x1 ← getattr top "location";
  top ← head world_vax 10;
  y1 ← getitem top "people_partly_vaccinated";
  let trace1 := {| bar_x := objects x1; bar_y := objects y1; bar_name := Some "partly" |} in
  top ← head world_vax 10;
  x2 ← getattr top "location";
  top ← head world_vax 10;
  y2 ← getitem top "people_fully_vaccinated";
  let trace2 := {| bar_x := objects x2; bar_y := objects y2; bar_name := Some "fully" |} in
  let graph_two := [bar trace1; bar trace2] in
  let layout_two :=
    {| title := "Number of people vaccinated against COVID-19";
       xaxis_title := Some "Country"; yaxis_title := Some "number of doses";
       barmode := Some "stack"; showlegend := false; geo_projection := None |} in
  mret {| data := graph_two; layout := layout_two; geos := None |}.

(** Lines 173-174: the table read again, with the derived rate
    [new_vaccinations_per_hundred] added to it in place. *)
Definition read_owid (E : Env) (path : string) : M ref :=
  owid ← read_csv E path;
  new_vaccinations ← getitem owid "new_vaccinations";
  population ← getitem owid "population";
  ratio ← lift (series_div new_vaccinations population);
  setitem owid "new_vaccinations_per_hundred" (series_mul_100 ratio);;
  mret owid.

(** Lines 175-191: the third chart, the new vaccinations of Brazil. *)
Definition third_chart (owid : ref) : M Figure :=
  iso_code ← getitem owid "iso_code";
  rows ← getitem_mask owid (series_eq iso_code "BRA");
  bra_vax ← getitem_list rows ["date"; "new_vaccinations"];
  counts ← getitem bra_vax "new_vaccinations";
  bra_vax ← getitem_mask bra_vax (eq_False (series_isna counts));
  date ← getattr bra_vax "date";
  let x_data := objects date in
  counts ← getattr bra_vax "new_vaccinations";
  let y_data := objects counts in
  let graph_three := [bar {| bar_x := x_data; bar_y := y_data; bar_name := None |}] in
  let layout_three :=
    {| title := "Vaccination in Brazil"; xaxis_title := Some "Date";
       yaxis_title := Some "number of vaccines applied"; barmode := None;
       showlegend := false; geo_projection := None |} in
  mret {| data := graph_three; layout := layout_three; geos := None |}.

(** wrangle_data.py, lines 113-209. *)
Definition return_figures (E : Env) : M (list Figure) :=
  let path := "data/owid-covid-data.csv" in
  world_vax ← clean_data E path cols;
  fig_one ← first_chart world_vax;
  fig_two ← second_chart world_vax;
  owid ← read_owid E path;
  fig_three ← third_chart owid;
  fig_four ← vax_per_continent E owid "South America";
  let countries :=
    ["India"; "United States"; "Russia"; "Brazil"; "Mexico"; "Germany"; "Turkey"] in
  five ← vax_time_series countries owid;
  mret [fig_one; fig_two; fig_three; fig_four;
        {| data := five.1; layout := five.2; geos := None |}].

(** ** Two sorting kernels, and a sample table *)

Definition py_lt (a b : pyobj) : bool := py_le a b && negb (py_le b a).

Fixpoint insert_by (before : pyobj → pyobj → bool) (p : nat * pyobj)
  (l : list (nat * pyobj)) : list (nat * pyobj) :=
  match l with
  | [] => [p]
  | q :: l' => if before p.2 q.2 then p :: l else q :: insert_by before p l'
  end.

(** Insertion sort of the positions, from the last key to the first; a key
    goes in front of the first key it is [before]. *)
Definition insertion_argsort (before : pyobj → pyobj → bool) (keys : list pyobj)
  : list nat :=
  (foldr (insert_by before) [] (zip (seq 0 (length keys)) keys)).*1.

(** Equal keys keep their order with [py_le], and swap it with [py_lt]. *)
Definition stable_argsort : list pyobj → list nat := insertion_argsort py_le.
Definition unstable_argsort : list pyobj → list nat := insertion_argsort py_lt.

(** Sixteen observations of thirteen regions.  Brazil and Argentina have
    as many people vaccinated; the world aggregate has no continent;
    Antarctica has no vaccination data; Chile has a population of zero. *)
Definition sample : DataFrame :=
  [("iso_code",
    Object (PyStr <$> ["IND"; "IND"; "USA"; "RUS"; "BRA"; "BRA"; "MEX"; "DEU"; "TUR";
                       "ARG"; "OWID_WRL"; "ATA"; "ATA"; "CHL"; "PER"; "COL"]));
   ("continent",
    Object ((PyStr <$> ["Asia"; "Asia"; "North America"; "Europe"; "South America";
                        "South America"; "North America"; "Europe"; "Asia";
                        "South America"])
            ++ [PyFloat nan]
            ++ (PyStr <$> ["Antarctica"; "Antarctica"; "South America";
                           "South America"; "South America"])));
   ("location",
    Object (PyStr <$> ["India"; "India"; "United States"; "Russia"; "Brazil";
                       "Brazil"; "Mexico"; "Germany"; "Turkey"; "Argentina"; "World";
                       "Antarctica"; "Antarctica"; "Chile"; "Peru"; "Colombia"]));
   ("date",
    Object (PyStr <$> ["2021-03-01"; "2021-03-02"; "2021-03-01"; "2021-03-01";
                       "2021-03-01"; "2021-03-02"; "2021-03-01"; "2021-03-01";
                       "2021-03-01"; "2021-03-01"; "2021-03-01"; "2021-03-01";
                       "2021-03-02"; "2021-03-01"; "2021-03-01"; "2021-03-01"]));
   ("people_vaccinated",
    Float64 [600; 900; 800; 300; 60; 100; 90; 400; 250; 100; 5000; nan; nan;
             70; 50; 40]%float);
   ("people_fully_vaccinated",
    Float64 [nan; 300; 500; 100; nan; 40; 20; 150; 50; 30; 2000; nan; nan;
             10; 5; nan]%float);
   ("people_vaccinated_per_hundred",
    Float64 [6; 9; 24; 21; 3; 5; 7; 48; 30; 22; 6; nan; nan; 37; 15; 8]%float);
   ("people_fully_vaccinated_per_hundred",
    Float64 [nan; 3; 15; 7; nan; 2; 2; 18; 6; 7; 3; nan; nan; 5; 2; nan]%float);
   ("new_vaccinations",
    Float64 [50; 300; 7; 3; nan; 40; 30; 6; 9; 0; 700; nan; 5; 5; nan; 0]%float);
   ("population",
    Float64 [200; 200; 25; 12; 200; 200; 120; 80; 80; 45; 7800; 0; nan; 0; 32;
             0]%float)].

(** The two regions of the specification's example: A with a continent,
    B without. *)
Definition two_regions : DataFrame :=
  [("iso_code", Object [PyStr "A"; PyStr "B"]);
   ("continent", Object [PyStr "X"; PyFloat nan]);
   ("people_vaccinated", Float64 [100; 200]%float);
   ("people_fully_vaccinated", Float64 [40; 150]%float)].

Definition sample_files (path : string) : option DataFrame :=
  if String.eqb path "data/owid-covid-data.csv" then Some sample
  else if String.eqb path "two_regions.csv" then Some two_regions
  else None.

Definition stable_env : Env := {| files := sample_files; argsort := stable_argsort |}.
Definition unstable_env : Env := {| files := sample_files; argsort := unstable_argsort |}.

(** ** The program on values, and the vocabulary of the statements *)

(** The frame that lines 24-26 of [clean_data] (and lines 45-47 of
    [vax_per_continent]) compute from the grouped frame, as a value. *)
Definition snapshot (E : Env) (grouped : DataFrame) : result DataFrame :=
  people_vaccinated ← column grouped "people_vaccinated";
  people_fully_vaccinated ← column grouped "people_fully_vaccinated";
  partly ← series_sub people_vaccinated people_fully_vaccinated;
  sorted ← sorted_frame E (set_column grouped "people_partly_vaccinated" partly)
             "people_vaccinated" false;
  continent ← column sorted "continent";
  mret (frame_map (λ A, select (eq_False (series_isna continent))) sorted).

(** [clean_data] as a function of the file's table. *)
Definition cleaned (E : Env) (dataset : string) (keepcols : list string)
  : result DataFrame :=
  match files E dataset with
  | None => Raise (FileNotFoundError dataset)
  | Some csv => g ← grouped_max csv "iso_code" keepcols; snapshot E g
  end.

(** [vax_per_continent], lines 43-47, as a function of the table. *)
Definition regrouped (E : Env) (df : DataFrame) : result DataFrame :=
  g ← grouped_max df "iso_code" cols; snapshot E g.

(** The trace of one country (lines 89-103), as a function of the table. *)
Definition country_value (df : DataFrame) (country : string) : result Scatter :=
  location ← column df "location";
  country_vax ← columns (frame_map (λ A, select (series_eq location country)) df)
                  ["iso_code"; "date"; "new_vaccinations_per_hundred"];
  metric ← column country_vax "new_vaccinations_per_hundred";
  let country_vax := frame_map (λ A, select (eq_False (series_isna metric))) country_vax in
  date ← attribute country_vax "date";
  metric ← attribute country_vax "new_vaccinations_per_hundred";
  iso_code ← attribute country_vax "iso_code";
  name ← iloc0 iso_code;
  mret {| scatter_x := objects date; scatter_y := objects metric;
          scatter_mode := "lines"; line_width := 1; connectgaps := true;
          scatter_name := name |}.

(** The bar series of Brazil (lines 175-186), as a function of the table. *)
Definition brazil_value (df : DataFrame) : result Bar :=
  iso_code ← column df "iso_code";
  bra_vax ← columns (frame_map (λ A, select (series_eq iso_code "BRA")) df)
              ["date"; "new_vaccinations"];
  counts ← column bra_vax "new_vaccinations";
  let bra_vax := frame_map (λ A, select (eq_False (series_isna counts))) bra_vax in
  date ← attribute bra_vax "date";
  counts ← attribute bra_vax "new_vaccinations";
  mret {| bar_x := objects date; bar_y := objects counts; bar_name := None |}.

(** The position, in the full list, of the [i]-th entry that a mask selects. *)
Fixpoint position (mask : list bool) (i : nat) : option nat :=
  match mask with
  | [] => None
  | true :: mask' =>
      match i with
      | 0 => Some 0
      | S i' => S <$> position mask' i'
      end
  | false :: mask' => S <$> position mask' i
  end.

(** The order of the rows of a snapshot: a key is followed by keys that
    are missing or not greater. *)
Definition key_ge (a b : pyobj) : bool := isna b || py_le b a.

(** What numpy promises of [argsort]: on keys that can be compared and
    none of which is missing, it returns each position once, and the keys
    taken in that order do not decrease.  Nothing is promised on the order
    of equal keys. *)
Definition argsort_spec (E : Env) : Prop :=
  ∀ keys, comparable keys = true → Forall (λ k, isna k = false) keys →
    argsort E keys ≡ₚ seq 0 (length keys) ∧
    Sorted (λ a b, py_le a b = true) (take_positions (argsort E keys) keys).

(** [a - b] for two entries of one row: the float difference; with a
    string on one side the entry is missing (or the subtraction fails). *)
Definition py_minus (a b : pyobj) : pyobj :=
  match a, b with
  | PyFloat x, PyFloat y => PyFloat (PrimFloat.sub x y)
  | _, _ => PyFloat nan
  end.

(** In every row, the derived entry is the float difference of the two
    entries it is derived from. *)
Definition derived_difference (snap : DataFrame) : Prop :=
  ∀ i x y,
    entry snap "people_vaccinated" i = Some (PyFloat x) →
    entry snap "people_fully_vaccinated" i = Some (PyFloat y) →
    entry snap "people_partly_vaccinated" i = Some (PyFloat (PrimFloat.sub x y)).

#[global] Instance is_str_dec (o : pyobj) (text : string) : Decision (o = PyStr text).
Proof.
  destruct o as [x|s]; [right; discriminate|].
  destruct (decide (s = text)) as [->|Hne]; [by left|right; congruence].
Defined.

(** The number of rows of a table whose entry in the column [who] is the
    given name and whose entry in the column [metric] is not missing. *)
Definition matching_rows (who metric : Series) (name : string) : nat :=
  length (filter (λ p, p.1 = PyStr name ∧ isna p.2 = false)
            (zip (objects who) (objects metric))).

(** The rows of a table whose entry in [who] is [name], and among them
    the rows whose entry in [metric] is not missing. *)
Definition rows_of {A} (who : Series) (name : string) (l : list A) : list A :=
  select (series_eq who name) l.

Definition with_metric {A} (who metric : Series) (name : string) (l : list A) : list A :=
  select (eq_False (isna <$> rows_of who name (objects metric))) (rows_of who name l).

(** What line 174 computes from the two entries of one row of [float64]
    columns. *)
Definition rate (numerator denominator : float) : float :=
  PrimFloat.mul (PrimFloat.div numerator denominator) 100.

Definition owid_path : string := "data/owid-covid-data.csv".

(** The sample table with its derived rate, as [read_owid] leaves it. *)
Definition sample_with_rate : DataFrame :=
  default [] ((read_owid stable_env owid_path []).2 !! 0).

(** The snapshot of the sample table. *)
Definition sample_snapshot : DataFrame :=
  default [] ((clean_data stable_env owid_path cols []).2 !! 4).

(** A column as [read_csv] types it: numbers, or strings with NaN for the
    entries that are missing. *)
Definition csv_column (s : Series) : Prop :=
  match s with
  | Float64 _ => True
  | Object v => Forall (λ o, isna o = true ∨ ∃ t, o = PyStr t) v
  end.

(** An entry that is a string. *)
Definition is_str (o : pyobj) : Prop := ∃ t, o = PyStr t.

(** The first chart (lines 130-146), as a function of the snapshot. *)
Definition first_chart_value (snap : DataFrame) : result Figure :=
  location ← column snap "location";
  per_hundred ← column snap "people_vaccinated_per_hundred";
  mret {| data := [choropleth {| colorscale := "Greens"; locations := location;
                                 locationmode := "country names"; z := per_hundred;
                                 text := location; colorbar_title := "Doses";
                                 reversescale := true |}];
          layout := {| title := "People Vaccinated against COVID-19 in the world";
                       xaxis_title := None; yaxis_title := None; barmode := None;
                       showlegend := false; geo_projection := Some "natural earth" |};
          geos := None |}.

(** The second chart (lines 149-170), as a function of the snapshot. *)
Definition second_chart_value (snap : DataFrame) : result Figure :=
  let top := frame_map (λ A, take 10) snap in
  x1 ← attribute top "location";
  y1 ← column top "people_partly_vaccinated";
  x2 ← attribute top "location";
  y2 ← column top "people_fully_vaccinated";
  mret {| data := [bar {| bar_x := objects x1; bar_y := objects y1;
                          bar_name := Some "partly" |};
                   bar {| bar_x := objects x2; bar_y := objects y2;
                          bar_name := Some "fully" |}];
          layout := {| title := "Number of people vaccinated against COVID-19";
                       xaxis_title := Some "Country";
                       yaxis_title := Some "number of doses";
                       barmode := Some "stack"; showlegend := false;
                       geo_projection := None |};
          geos := None |}.

(** The table of lines 173-174, as a function of the file's table. *)
Definition owid_value (E : Env) (path : string) : result DataFrame :=
  match files E path with
  | None => Raise (FileNotFoundError path)
  | Some csv =>
      new_vaccinations ← column csv "new_vaccinations";
      population ← column csv "population";
      ratio ← series_div new_vaccinations population;
      mret (set_column csv "new_vaccinations_per_hundred" (series_mul_100 ratio))
  end.

(** The third chart (lines 175-191), as a function of the table. *)
Definition third_chart_value (df : DataFrame) : result Figure :=
  b ← brazil_value df;
  mret {| data := [bar b];
          layout := {| title := "Vaccination in Brazil"; xaxis_title := Some "Date";
                       yaxis_title := Some "number of vaccines applied";
                       barmode := None; showlegend := false;
                       geo_projection := None |};
          geos := None |}.

(** [vax_per_continent] (lines 30-73), as a function of the table. *)
Definition vax_per_continent_value (E : Env) (df : DataFrame) (continent : string)
  : result Figure :=
  world_vax ← regrouped E df;
  continents ← column world_vax "continent";
  let cont_vax := frame_map (λ A, select (series_eq continents continent)) world_vax in
  location ← column cont_vax "location";
  fully ← column cont_vax "people_fully_vaccinated_per_hundred";
  mret {| data := [choropleth {| colorscale := "Greens"; locations := location;
                                 locationmode := "country names"; z := fully;
                                 text := location; colorbar_title := "number of doses";
                                 reversescale := false |}];
          layout := {| title := "People fully vaccinated per hundred in " +:+ continent;
                       xaxis_title := None; yaxis_title := None; barmode := None;
                       showlegend := false; geo_projection := Some "mercator" |};
          geos := Some {| geo_visible := false; resolution := 50;
                          scope := lower continent; showcountries := true;
                          countrycolor := "Black"; showsubunits := true;
                          subunitcolor := "Blue" |} |}.

(** [vax_time_series] (lines 74-111), as a function of the table. *)
Definition vax_time_series_value (countries : list string) (df : DataFrame)
  : result (list trace * Layout) :=
  traces ← mapM (country_value df) countries;
  mret (scatter <$> traces,
        {| title := "vaccination evolution"; xaxis_title := Some "Date";
           yaxis_title := Some "number of vaccines applied"; barmode := None;
           showlegend := true; geo_projection := None |}).

(** The countries of line 198. *)
Definition chart_countries : list string :=
  ["India"; "United States"; "Russia"; "Brazil"; "Mexico"; "Germany"; "Turkey"].

(** [return_figures] (lines 113-209), as a function of the file's table. *)
Definition return_figures_value (E : Env) : result (list Figure) :=
  world_vax ← cleaned E owid_path cols;
  fig_one ← first_chart_value world_vax;
  fig_two ← second_chart_value world_vax;
  owid ← owid_value E owid_path;
  fig_three ← third_chart_value owid;
  fig_four ← vax_per_continent_value E owid "South America";
  five ← vax_time_series_value chart_countries owid;
  mret [fig_one; fig_two; fig_three; fig_four;
        {| data := five.1; layout := five.2; geos := None |}].

(** The sample table up to the row of Germany (it has no row for Turkey),
    and two more environments: one that finds that table at every path,
    one that finds no file. *)
Definition sample_without_turkey : DataFrame := frame_map (λ A, take 8) sample.

Definition env_without_turkey : Env :=
  {| files := λ _, Some sample_without_turkey; argsort := stable_argsort |}.

Definition env_without_files : Env :=
  {| files := λ _, None; argsort := stable_argsort |}.

(** * Running the heap computations *)

Section run.
Implicit Types (h : heap) (r : ref) (df : DataFrame).

Lemma run_bind {A B} (m : M A) (f : A → M B) h :
  (m ≫= f) h =
  match m h with
  | (Ok a, h') => f a h'
  | (Raise e, h') => (Raise e, h')
  end.
Proof. reflexivity. Qed.

Lemma run_ret {A} (a : A) h : (mret a : M A) h = (Ok a, h).
Proof. reflexivity. Qed.

Lemma run_new h df : new df h = (Ok (length h), h ++ [df]).
Proof. reflexivity. Qed.

Lemma run_load h r df : h !! r = Some df → load r h = (Ok df, h).
Proof. unfold load. by intros ->. Qed.

Lemma run_load_None h r : h !! r = None → load r h = (Raise ReferenceError, h).
Proof. unfold load. by intros ->. Qed.

Lemma lookup_last h df : (h ++ [df]) !! length h = Some df.
Proof. by rewrite list_lookup_middle. Qed.

Lemma run_getitem h r df key :
  h !! r = Some df → getitem r key h = (column df key, h).
Proof. intros Hr. unfold getitem. by rewrite run_bind, (run_load h r df). Qed.

Lemma run_getattr h r df name :
  h !! r = Some df → getattr r name h = (attribute df name, h).
Proof. intros Hr. unfold getattr. by rewrite run_bind, (run_load h r df). Qed.

Lemma run_getitem_list h r df keys :
  h !! r = Some df →
  getitem_list r keys h =
  match columns df keys with
  | Ok v => (Ok (length h), h ++ [v])
  | Raise e => (Raise e, h)
  end.
Proof.
  intros Hr. unfold getitem_list. rewrite run_bind, (run_load h r df) by done.
  rewrite run_bind. unfold lift. by destruct (columns df keys).
Qed.

Lemma run_getitem_mask h r df mask :
  h !! r = Some df →
  getitem_mask r mask h = (Ok (length h), h ++ [frame_map (λ A, select mask) df]).
Proof. intros Hr. unfold getitem_mask. by rewrite run_bind, (run_load h r df). Qed.

Lemma run_setitem_last h df key s :
  setitem (length h) key s (h ++ [df]) = (Ok (), h ++ [set_column df key s]).
Proof.
  unfold setitem. rewrite run_bind, (run_load _ _ df) by apply lookup_last.
  unfold store. rewrite decide_True by (rewrite length_app; cbn; lia).
  f_equal. rewrite <- (Nat.add_0_r (length h)) at 1. by rewrite insert_app_r.
Qed.

Lemma run_groupby_max h r df key cols :
  h !! r = Some df →
  groupby_max r key cols h =
  match grouped_max df key cols with
  | Ok v => (Ok (length h), h ++ [v])
  | Raise e => (Raise e, h)
  end.
Proof.
  intros Hr. unfold groupby_max. rewrite run_bind, (run_load h r df) by done.
  rewrite run_bind. unfold lift. by destruct (grouped_max df key cols).
Qed.

Lemma run_reset_index h r df :
  h !! r = Some df → reset_index r h = (Ok (length h), h ++ [df]).
Proof. intros Hr. unfold reset_index. by rewrite run_bind, (run_load h r df). Qed.

Lemma run_sort_values E h r df key ascending :
  h !! r = Some df →
  sort_values E r key ascending h =
  match sorted_frame E df key ascending with
  | Ok v => (Ok (length h), h ++ [v])
  | Raise e => (Raise e, h)
  end.
Proof.
  intros Hr. unfold sort_values. rewrite run_bind, (run_load h r df) by done.
  rewrite run_bind. unfold lift. by destruct (sorted_frame E df key ascending).
Qed.

Lemma run_head h r df n :
  h !! r = Some df → head r n h = (Ok (length h), h ++ [frame_map (λ A, take n) df]).
Proof. intros Hr. unfold head. by rewrite run_bind, (run_load h r df). Qed.

End run.

(** Looking up a reference after further allocations. *)
Ltac heap_lookup :=
  repeat first
    [ apply lookup_last
    | eassumption
    | rewrite lookup_app_l by (rewrite ?length_app; cbn [length]; lia) ].

(** * What the two snapshot builders compute *)

(** One step of a computation: unfold the bind, run the call. *)
Ltac run lem := rewrite run_bind; erewrite lem by heap_lookup; cbv beta iota.
Ltac run_pure := rewrite run_bind; unfold lift at 1; cbv beta iota.
Ltac grows := repeat apply prefix_app_r; done.
Ltac raised := intros [= <- <-]; split; [grows|done].
Ltac on_result r pat :=
  destruct r as pat; cbn [mbind result_bind]; [|raised].

Lemma clean_data_spec E dataset keepcols h res h' :
  clean_data E dataset keepcols h = (res, h') →
  h `prefix_of` h' ∧
  match res with
  | Ok r => ∃ snap, cleaned E dataset keepcols = Ok snap ∧ h' !! r = Some snap
  | Raise e => cleaned E dataset keepcols = Raise e
  end.
Proof.
  unfold clean_data, cleaned, read_csv, snapshot.
  destruct (files E dataset) as [csv|]; [|raised].
  run run_new. run run_groupby_max.
  on_result (grouped_max csv "iso_code" keepcols) ipattern:([g|e]).
  run run_reset_index. run run_getitem.
  on_result (column g "people_vaccinated") ipattern:([pv|e]).
  run run_getitem.
  on_result (column g "people_fully_vaccinated") ipattern:([pfv|e]).
  run_pure.
  on_result (series_sub pv pfv) ipattern:([partly|e]).
  run run_setitem_last. run run_sort_values.
  on_result (sorted_frame E (set_column g "people_partly_vaccinated" partly)
               "people_vaccinated" false) ipattern:([sorted|e]).
  run run_getitem.
  on_result (column sorted "continent") ipattern:([continent|e]).
  run run_getitem_mask. rewrite run_ret. intros [= <- <-].
  split; [grows|]. eexists. split; [done|]. heap_lookup.
Qed.

(** * Columns, masks and positions *)

Section frames.
Implicit Types (df : DataFrame) (s : Series) (mask : list bool).

Lemma column_set_column_eq df key s : column (set_column df key s) key = Ok s.
Proof.
  induction df as [|[label s'] df IH]; cbn.
  - by rewrite String.eqb_refl.
  - destruct (String.eqb label key) eqn:Hl; cbn; by rewrite Hl.
Qed.

Lemma column_set_column_ne df key key' s :
  key ≠ key' → column (set_column df key s) key' = column df key'.
Proof.
  intros Hne. induction df as [|[label s'] df IH]; cbn.
  - by apply String.eqb_neq in Hne as ->.
  - destruct (String.eqb label key) eqn:Hl; cbn; [|by rewrite IH].
    apply String.eqb_eq in Hl as ->.
    by apply String.eqb_neq in Hne as ->.
Qed.

Lemma column_frame_map f df key :
  column (frame_map f df) key = series_map f <$> column df key.
Proof.
  induction df as [|[label s] df IH]; [done|]. cbn.
  by destruct (String.eqb label key).
Qed.

Lemma select_fmap {A B} (f : A → B) mask (l : list A) :
  select mask (f <$> l) = f <$> select mask l.
Proof.
  revert l. induction mask as [|[] mask IH]; intros [|x l]; cbn; by rewrite ?IH.
Qed.

Lemma take_positions_fmap {A B} (f : A → B) indexer (l : list A) :
  take_positions indexer (f <$> l) = f <$> take_positions indexer l.
Proof.
  unfold take_positions. induction indexer as [|i indexer IH]; [done|]. cbn.
  rewrite list_lookup_fmap. destruct (l !! i); cbn; by rewrite IH.
Qed.

Lemma objects_select mask s :
  objects (series_map (λ A, select mask) s) = select mask (objects s).
Proof. destruct s; cbn; by rewrite ?select_fmap. Qed.

Lemma objects_take_positions indexer s :
  objects (series_map (λ A, take_positions indexer) s)
  = take_positions indexer (objects s).
Proof. destruct s; cbn; by rewrite ?take_positions_fmap. Qed.

Lemma objects_take n s :
  objects (series_map (λ A, take n) s) = take n (objects s).
Proof. destruct s; cbn; by rewrite ?fmap_take. Qed.

(** Selection by a mask keeps the entries the mask marks, in order. *)
Lemma select_filter {A} (f : A → bool) (l : list A) :
  select (f <$> l) l = List.filter f l.
Proof. induction l as [|x l IH]; cbn; [done|]. by rewrite IH. Qed.

Lemma select_lookup {A} mask (l : list A) i :
  select mask l !! i = position mask i ≫= λ j, l !! j.
Proof.
  revert l i. induction mask as [|[] mask IH]; intros [|x l] i; cbn; try done.
  - destruct i; cbn; [done|]. by destruct (position mask i).
  - destruct i as [|i]; cbn; [done|]. rewrite IH. by destruct (position mask i).
  - by destruct (position mask i).
  - rewrite IH. by destruct (position mask i).
Qed.

Lemma take_positions_lookup {A} indexer (l : list A) i :
  Forall (λ j, j < length l) indexer →
  take_positions indexer l !! i = indexer !! i ≫= λ j, l !! j.
Proof.
  unfold take_positions. intros Hall. revert i.
  induction Hall as [|j indexer Hj Hall IH]; intros i; [done|]. cbn.
  destruct (lookup_lt_is_Some_2 l j Hj) as [x Hx]. rewrite Hx.
  destruct i; cbn; [done|apply IH].
Qed.

(** Entries of a frame after a row selection. *)
Lemma entry_select mask df key i :
  entry (frame_map (λ A, select mask) df) key i
  = position mask i ≫= entry df key.
Proof.
  unfold entry. rewrite column_frame_map.
  destruct (column df key) as [s|e]; cbn.
  - by rewrite objects_select, select_lookup.
  - by destruct (position mask i).
Qed.

Lemma entry_take_positions indexer df key i s :
  column df key = Ok s →
  Forall (λ j, j < size s) indexer →
  entry (frame_map (λ A, take_positions indexer) df) key i
  = indexer !! i ≫= entry df key.
Proof.
  intros Hs Hall. unfold entry. rewrite column_frame_map, Hs. cbn.
  by rewrite objects_take_positions, take_positions_lookup.
Qed.

End frames.

(** * The error monad on lists *)

Section mapM.
Context {A B : Type} (f : A → result B).

Lemma mapM_Ok l k : mapM f l = Ok k ↔ Forall2 (λ x y, f x = Ok y) l k.
Proof.
  revert k. induction l as [|x l IH]; intros k; cbn.
  - split; [intros [= <-]; constructor|by inversion 1].
  - split.
    + destruct (f x) as [y|e] eqn:Hx; cbn; [|done].
      destruct (mapM f l) as [k'|e] eqn:Hl; cbn; [|done].
      intros [= <-]. constructor; [done|]. by apply IH.
    + inversion 1 as [|? y ? k' Hx Hk]; subst. rewrite Hx. cbn.
      apply IH in Hk. by rewrite Hk.
Qed.

Lemma mapM_Ok_length l k : mapM f l = Ok k → length k = length l.
Proof. intros Hk%mapM_Ok. symmetry. by eapply Forall2_length. Qed.

End mapM.

(** * The order of the keys *)

Section float_order.
Local Open Scope float_scope.

Lemma SFcompare_refl x : x ≠ S754_nan → SFcompare x x = Some Eq.
Proof.
  destruct x as [|[]| |[] m e]; cbn; try done.
  all: intros _; rewrite Z.compare_refl, Pos.compare_cont_refl; done.
Qed.

Lemma is_nan_spec x : PrimFloat.is_nan x = true ↔ Prim2SF x = S754_nan.
Proof.
  unfold PrimFloat.is_nan. rewrite FloatAxioms.eqb_spec. unfold SFeqb. split.
  - destruct (Prim2SF x) eqn:Hx; [..|done|]; by rewrite SFcompare_refl.
  - by intros ->.
Qed.

Lemma not_nan_spec x : PrimFloat.is_nan x = false ↔ Prim2SF x ≠ S754_nan.
Proof. rewrite <- is_nan_spec. by destruct (PrimFloat.is_nan x). Qed.

Ltac compare_cases :=
  repeat match goal with
    | H : context [(?a ?= ?b)%Z] |- _ => destruct (Z.compare_spec a b)
    | |- context [(?a ?= ?b)%Z] => destruct (Z.compare_spec a b)
    | H : context [Pos.compare_cont Eq ?a ?b] |- _ =>
        change (Pos.compare_cont Eq a b) with (a ?= b)%positive in *;
        destruct (Pos.compare_spec a b)
    | |- context [Pos.compare_cont Eq ?a ?b] =>
        change (Pos.compare_cont Eq a b) with (a ?= b)%positive in *;
        destruct (Pos.compare_spec a b)
    end.

Lemma SFleb_total x y :
  x ≠ S754_nan → y ≠ S754_nan → SFleb x y = false → SFleb y x = true.
Proof.
  unfold SFleb.
  destruct x as [|[]| |[] m e], y as [|[]| |[] m' e']; cbn; try done.
  all: intros _ _; compare_cases; cbn in *; try done; lia.
Qed.

Lemma SFleb_trans x y z :
  SFleb x y = true → SFleb y z = true → SFleb x z = true.
Proof.
  unfold SFleb.
  destruct x as [|[]| |[] m e], y as [|[]| |[] m' e'], z as [|[]| |[] m'' e''];
    cbn; try done.
  all: compare_cases; cbn in *; try done; lia.
Qed.

Lemma float_leb_total x y :
  PrimFloat.is_nan x = false → PrimFloat.is_nan y = false →
  (x <=? y) = false → (y <=? x) = true.
Proof. rewrite !not_nan_spec, !leb_spec. apply SFleb_total. Qed.

Lemma float_leb_trans x y z :
  (x <=? y) = true → (y <=? z) = true → (x <=? z) = true.
Proof. rewrite !leb_spec. apply SFleb_trans. Qed.






End float_order.

Section key_order.

Lemma ascii_compare_N a b : Ascii.compare a b = (N_of_ascii a ?= N_of_ascii b)%N.
Proof. reflexivity. Qed.

Lemma string_compare_trans s t u :
  String.compare s t ≠ Gt → String.compare t u ≠ Gt → String.compare s u ≠ Gt.
Proof.
  revert t u. induction s as [|a s IH]; intros [|b t] [|c u]; cbn; try done.
  rewrite !ascii_compare_N.
  destruct (N.compare_spec (N_of_ascii a) (N_of_ascii b)) as [Hab|Hab|Hab];
    destruct (N.compare_spec (N_of_ascii b) (N_of_ascii c)) as [Hbc|Hbc|Hbc];
    destruct (N.compare_spec (N_of_ascii a) (N_of_ascii c)) as [Hac|Hac|Hac];
    try done; try lia.
  apply IH.
Qed.

Lemma string_leb_trans s t u :
  String.leb s t = true → String.leb t u = true → String.leb s u = true.
Proof.
  unfold String.leb. intros Hst Htu.
  pose proof (string_compare_trans s t u) as H.
  destruct (String.compare s t), (String.compare t u), (String.compare s u);
    try done; exfalso; by apply H.
Qed.

Lemma py_le_trans a b c : py_le a b = true → py_le b c = true → py_le a c = true.
Proof.
  destruct a, b, c; cbn; try done.
  - apply float_leb_trans.
  - apply string_leb_trans.
Qed.

Lemma py_le_total a b :
  comparable [a; b] = true → isna a = false → isna b = false →
  py_le a b = false → py_le b a = true.
Proof.
  destruct a as [x|s], b as [y|t]; cbn; try done.
  - intros _. apply float_leb_total.
  - intros _ _ _ Hst. destruct (String.leb_total s t); congruence.
Qed.

End key_order.

Lemma take_positions_cons {A} i indexer (l : list A) :
  take_positions (i :: indexer) l
  = match l !! i with
    | Some x => x :: take_positions indexer l
    | None => take_positions indexer l
    end.
Proof. reflexivity. Qed.

Section positions.
Context {A : Type}.
Implicit Types (l : list A) (mask : list bool) (indexer : list nat).

Lemma take_positions_app indexer indexer' l :
  take_positions (indexer ++ indexer') l
  = take_positions indexer l ++ take_positions indexer' l.
Proof. apply omap_app. Qed.

Lemma take_positions_reverse indexer l :
  take_positions (reverse indexer) l = reverse (take_positions indexer l).
Proof.
  induction indexer as [|i indexer IH]; [done|].
  rewrite reverse_cons, take_positions_app, IH, !take_positions_cons.
  destruct (l !! i); by rewrite ?reverse_cons, ?app_nil_r.
Qed.

(** Taking positions of positions. *)
Lemma take_positions_compose indexer (positions : list nat) l :
  Forall (λ j, j < length l) positions →
  take_positions (take_positions indexer positions) l
  = take_positions indexer (take_positions positions l).
Proof.
  intros Hall. induction indexer as [|i indexer IH]; [done|].
  rewrite (take_positions_cons i indexer (take_positions positions l)).
  rewrite (take_positions_lookup positions l i Hall).
  rewrite (take_positions_cons i indexer positions).
  destruct (positions !! i) as [j|] eqn:Hi; cbn [mbind option_bind]; [|exact IH].
  assert (j < length l) as Hj.
  { eapply Forall_forall in Hall; [done|]. by eapply list_elem_of_lookup_2. }
  destruct (lookup_lt_is_Some_2 l j Hj) as [x Hx].
  rewrite Hx, take_positions_cons, Hx. f_equal. apply IH.
Qed.

(** The positions a mask selects lead to the entries it selects. *)
Lemma take_positions_select mask l l' :
  take_positions (select mask (seq (length l') (length l))) (l' ++ l)
  = select mask l.
Proof.
  revert l l'. induction mask as [|b mask IH]; intros [|x l] l'; try done.
  cbn [length seq select].
  replace (l' ++ x :: l) with ((l' ++ [x]) ++ l) by by rewrite <- (assoc_L (++)).
  replace (S (length l')) with (length (l' ++ [x])) by (rewrite length_app; cbn; lia).
  destruct b; [|apply IH].
  rewrite take_positions_cons, (lookup_app_l _ l) by (rewrite length_app; cbn; lia).
  rewrite list_lookup_middle by done.
  f_equal. apply IH.
Qed.

Lemma select_seq_lt mask n m :
  Forall (λ j, j < n + m) (select mask (seq n m)).
Proof.
  revert n m. induction mask as [|b mask IH]; intros n [|m]; cbn; try done.
  assert (Forall (λ j, j < n + S m) (select mask (seq (S n) m))).
  { replace (n + S m) with (S n + m) by lia. apply IH. }
  destruct b; [constructor; [lia|done]|done].
Qed.

Lemma Forall_select (P : A → Prop) mask l : Forall P l → Forall P (select mask l).
Proof.
  intros Hall. revert mask. induction Hall as [|x l Hx Hall IH]; intros [|[] mask];
    cbn; try done. by constructor.
Qed.

Lemma StronglySorted_select (R : A → A → Prop) mask l :
  StronglySorted R l → StronglySorted R (select mask l).
Proof.
  intros Hl. revert mask. induction Hl as [|x l Hl IH Hx]; intros [|[] mask];
    cbn; try done; try constructor; try done.
  by apply Forall_select.
Qed.

Lemma StronglySorted_app (R : A → A → Prop) l l' :
  StronglySorted R l → StronglySorted R l' →
  Forall (λ x, Forall (R x) l') l → StronglySorted R (l ++ l').
Proof.
  intros Hl Hl' Hall. induction Hl as [|x l Hl IH Hx]; [done|].
  apply Forall_cons in Hall as [Hxl' Hall]. cbn. constructor; [by apply IH|].
  apply Forall_app. done.
Qed.

Lemma StronglySorted_reverse (R : A → A → Prop) l :
  StronglySorted R l → StronglySorted (flip R) (reverse l).
Proof.
  induction 1 as [|x l Hl IH Hx]; [constructor|].
  rewrite reverse_cons. apply StronglySorted_app; [done|repeat constructor|].
  apply Forall_reverse. eapply Forall_impl; [done|]. intros y Hy.
  by constructor.
Qed.

End positions.

(** * Sorting a frame *)

Section sorting.
Variable E : Env.

Lemma Forall_take_positions {A} (P : A → Prop) indexer (l : list A) :
  Forall P l → Forall P (take_positions indexer l).
Proof.
  intros Hall. induction indexer as [|i indexer IH]; [constructor|].
  rewrite take_positions_cons. destruct (l !! i) as [x|] eqn:Hi; [|done].
  constructor; [|done]. eapply Forall_forall in Hall; [done|].
  by eapply list_elem_of_lookup_2.
Qed.

Lemma eq_False_isna keys :
  eq_False (isna <$> keys) = (λ k, negb (isna k)) <$> keys.
Proof. unfold eq_False. by rewrite <- list_fmap_compose. Qed.

(** The keys of a frame sorted in descending order: the keys that are
    not missing, in the reverse of the order [argsort] gives to their
    reverse, then the missing ones. *)
Lemma nargsort_descending keys indexer :
  nargsort E keys false = Ok indexer →
  let non_nans := reverse (List.filter (λ k, negb (isna k)) keys) in
  comparable non_nans = true ∧
  Forall (λ j, j < length keys) indexer ∧
  take_positions indexer keys
  = reverse (take_positions (argsort E non_nans) non_nans) ++ List.filter isna keys.
Proof.
  unfold nargsort. rewrite eq_False_isna, !select_filter.
  destruct (comparable _) eqn:Hcmp; [|done]. intros [= <-].
  pose proof (select_seq_lt ((λ k, negb (isna k)) <$> keys) 0 (length keys)) as Hidx.
  pose proof (select_seq_lt (isna <$> keys) 0 (length keys)) as Hnan.
  cbn in Hidx, Hnan. split; [done|]. split.
  - apply Forall_app. split; [|done].
    apply Forall_reverse, Forall_take_positions. by apply Forall_reverse.
  - rewrite take_positions_app, take_positions_reverse. f_equal.
    + f_equal. rewrite take_positions_compose by by apply Forall_reverse.
      rewrite take_positions_reverse.
      by rewrite (take_positions_select _ keys []), select_filter.
    + by rewrite (take_positions_select _ keys []), select_filter.
Qed.

Lemma sorted_frame_Ok df key ascending v :
  sorted_frame E df key ascending = Ok v →
  ∃ keys indexer,
    column df key = Ok keys ∧
    nargsort E (objects keys) ascending = Ok indexer ∧
    v = frame_map (λ A, take_positions indexer) df.
Proof.
  unfold sorted_frame. destruct (column df key) as [keys|]; [|done]. cbn.
  destruct (nargsort E (objects keys) ascending) as [indexer|] eqn:Hidx; [|done].
  cbn. intros [= <-]. by eexists _, _.
Qed.

(** The steps of [snapshot], when it succeeds. *)
Lemma snapshot_Ok g snap :
  snapshot E g = Ok snap →
  ∃ pv pfv partly indexer continent,
    column g "people_vaccinated" = Ok pv ∧
    column g "people_fully_vaccinated" = Ok pfv ∧
    series_sub pv pfv = Ok partly ∧
    nargsort E (objects pv) false = Ok indexer ∧
    let sorted := frame_map (λ A, take_positions indexer)
                    (set_column g "people_partly_vaccinated" partly) in
    column sorted "continent" = Ok continent ∧
    snap = frame_map (λ A, select (eq_False (series_isna continent))) sorted.
Proof.
  unfold snapshot.
  destruct (column g "people_vaccinated") as [pv|] eqn:Hpv; [|done]. cbn.
  destruct (column g "people_fully_vaccinated") as [pfv|] eqn:Hpfv; [|done]. cbn.
  destruct (series_sub pv pfv) as [partly|] eqn:Hsub; [|done]. cbn.
  destruct (sorted_frame E _ _ _) as [sorted|] eqn:Hsort; [|done]. cbn.
  apply sorted_frame_Ok in Hsort as (keys & indexer & Hkeys & Hidx & ->).
  rewrite column_set_column_ne in Hkeys by done.
  destruct (column (frame_map _ _) "continent") as [continent|] eqn:Hc; [|done]. cbn.
  intros [= <-]. exists pv, pfv, partly, indexer, continent.
  assert (keys = pv) as -> by congruence. done.
Qed.

End sorting.

Lemma vax_per_continent_frames_spec E data continent h res h' :
  vax_per_continent_frames E data continent h = (res, h') →
  h `prefix_of` h' ∧
  match h !! data, res with
  | None, res => res = Raise ReferenceError
  | Some df, Raise e => regrouped E df = Raise e
  | Some df, Ok frames =>
      ∃ snap continents,
        regrouped E df = Ok snap ∧
        h' !! frames.1 = Some snap ∧
        column snap "continent" = Ok continents ∧
        h' !! frames.2
        = Some (frame_map (λ A, select (series_eq continents continent)) snap)
  end.
Proof.
  unfold vax_per_continent_frames, regrouped, snapshot.
  destruct (h !! data) as [df|] eqn:Hdata.
  2:{ rewrite run_bind. unfold groupby_max.
      rewrite run_bind, run_load_None by done. by intros [= <- <-]. }
  run run_groupby_max.
  on_result (grouped_max df "iso_code" cols) ipattern:([g|e]).
  run run_reset_index. run run_getitem.
  on_result (column g "people_vaccinated") ipattern:([pv|e]).
  run run_getitem.
  on_result (column g "people_fully_vaccinated") ipattern:([pfv|e]).
  run_pure.
  on_result (series_sub pv pfv) ipattern:([partly|e]).
  run run_setitem_last. run run_sort_values.
  on_result (sorted_frame E (set_column g "people_partly_vaccinated" partly)
               "people_vaccinated" false) ipattern:([sorted|e]).
  run run_getitem.
  destruct (column sorted "continent") as [c|e] eqn:Hc; cbn [mbind result_bind];
    [|raised].
  run run_getitem_mask. run run_getitem.
  rewrite column_frame_map, Hc. cbn [fmap result_fmap].
  run run_getitem_mask. rewrite run_ret. intros [= <- <-].
  split; [grows|]. cbn [fst snd]. eexists _, _.
  split_and!; [done|heap_lookup| |heap_lookup].
  by rewrite column_frame_map, Hc.
Qed.

(** * The snapshot has no row without a continent *)

Lemma snapshot_continent E g snap :
  snapshot E g = Ok snap →
  ∃ continent,
    column snap "continent" = Ok continent ∧
    Forall (λ o, isna o = false) (objects continent).
Proof.
  intros (pv & pfv & partly & indexer & c & _ & _ & _ & _ & Hc & ->)%snapshot_Ok.
  eexists. rewrite column_frame_map, Hc. split; [done|].
  rewrite objects_select. unfold series_isna. rewrite eq_False_isna, select_filter.
  apply Forall_forall. intros o [_ Ho]%list_elem_of_In%filter_In.
  by destruct (isna o).
Qed.

(** * The derived column *)

Lemma float_sub_nan x y :
  PrimFloat.is_nan x = true ∨ PrimFloat.is_nan y = true → PrimFloat.sub x y = nan.
Proof.
  rewrite !is_nan_spec. intros Hnan. apply Prim2SF_inj. rewrite sub_spec.
  change (Prim2SF nan) with S754_nan.
  destruct Hnan as [-> | ->]; [done|]. unfold SF64sub, SFsub.
  by destruct (Prim2SF x).
Qed.

Lemma py_op_minus a b c : py_op Sub a b = Ok c → c = py_minus a b.
Proof. destruct a, b; cbn; by intros [= <-]. Qed.

Lemma py_op_masked_minus a b c : py_op_masked Sub a b = Ok c → c = py_minus a b.
Proof.
  unfold py_op_masked. destruct (isna a || isna b) eqn:Hna; [|apply py_op_minus].
  intros [= <-]. destruct a as [x|], b as [y|]; cbn in *; try done.
  by rewrite float_sub_nan by by apply orb_true_iff.
Qed.

Lemma Forall2_zip_with {A B C} (f : A → B → C) (P : A * B → C → Prop) l k r :
  (∀ p c, P p c → c = f p.1 p.2) → Forall2 P (zip l k) r → r = zip_with f l k.
Proof.
  intros HP. revert k r. induction l as [|x l IH]; intros [|y k] r; cbn;
    inversion 1; subst; try done.
  f_equal; [by apply (HP (x, y))|by apply IH].
Qed.

Lemma series_sub_objects a b c :
  series_sub a b = Ok c → objects c = zip_with py_minus (objects a) (objects b).
Proof.
  unfold series_sub, series_arith.
  assert (∀ r, mapM (λ p, py_op Sub p.1 p.2) (zip (objects a) (objects b)) = Ok r →
               r = zip_with py_minus (objects a) (objects b)) as Hfirst.
  { intros r Hr%mapM_Ok. eapply Forall2_zip_with; [|done].
    intros p o. apply py_op_minus. }
  assert (∀ r, mapM (λ p, py_op_masked Sub p.1 p.2) (zip (objects a) (objects b)) = Ok r →
               r = zip_with py_minus (objects a) (objects b)) as Hsecond.
  { intros r Hr%mapM_Ok. eapply Forall2_zip_with; [|done].
    intros p o. apply py_op_masked_minus. }
  destruct a as [x|x], b as [y|y].
  { intros [= <-]. cbn. clear. revert y.
    induction x as [|u x IH]; intros [|v y]; cbn; by rewrite ?IH. }
  all: destruct (mapM (λ p, py_op Sub p.1 p.2) _) as [r|[]] eqn:Hr; cbn; try done.
  all: try (intros [= <-]; by apply Hfirst).
  all: destruct (mapM (λ p, py_op_masked Sub p.1 p.2) _) as [r|] eqn:Hr'; cbn; try done.
  all: intros [= <-]; by apply Hsecond.
Qed.

(** Every column of a grouped frame has one entry per group. *)
Lemma group_max_size keys labels s s' :
  group_max keys labels s = Ok s' → size s' = length labels.
Proof.
  destruct s as [v|v]; cbn.
  - intros [= <-]. unfold size. cbn. by rewrite !length_fmap.
  - destruct (mapM _ labels) as [r|] eqn:Hr; cbn; [|done]. intros [= <-].
    by apply mapM_Ok_length in Hr.
Qed.

Lemma grouped_max_size df key cols g :
  grouped_max df key cols = Ok g → ∃ n, Forall (λ c, size c.2 = n) g.
Proof.
  unfold grouped_max. destruct (column df key) as [keys|]; [|done]. cbn.
  destruct (columns df cols) as [sel|]; [|done]. cbn.
  intros Hg%mapM_Ok. exists (length (group_labels (objects keys))).
  induction Hg as [|c c' sel g Hc Hg IH]; constructor; [|done].
  destruct (group_max _ _ c.2) as [s'|] eqn:Hs; [|done]. cbn in Hc.
  injection Hc as <-. by apply group_max_size in Hs.
Qed.

Lemma column_Forall (P : Series → Prop) (df : DataFrame) key s :
  Forall (λ c, P c.2) df → column df key = Ok s → P s.
Proof.
  induction 1 as [|[label s'] df Hs Hall IH]; cbn; [done|].
  destruct (String.eqb label key); [by intros [= <-]|done].
Qed.

Lemma Forall_set_column (P : Series → Prop) (df : DataFrame) key s :
  Forall (λ c, P c.2) df → P s → Forall (λ c, P c.2) (set_column df key s).
Proof.
  intros Hall Hs. induction Hall as [|[label s'] df Hs' Hall IH]; cbn.
  - by repeat constructor.
  - destruct (String.eqb label key); by constructor.
Qed.

(** Every row of the snapshot is a row of the grouped frame with its
    derived column: row [i] of the one is row [source i] of the other. *)
Lemma snapshot_rows E g snap :
  (∃ n, Forall (λ c, size c.2 = n) g) →
  snapshot E g = Ok snap →
  ∃ pv pfv partly (source : nat → option nat),
    column g "people_vaccinated" = Ok pv ∧
    column g "people_fully_vaccinated" = Ok pfv ∧
    series_sub pv pfv = Ok partly ∧
    ∀ key i,
      entry snap key i
      = source i ≫= entry (set_column g "people_partly_vaccinated" partly) key.
Proof.
  intros [n Hn] (pv & pfv & partly & indexer & c & Hpv & Hpfv & Hsub & Hidx & Hc & ->)%snapshot_Ok.
  exists pv, pfv, partly.
  exists (λ i, position (eq_False (series_isna c)) i ≫= λ j, indexer !! j).
  split_and!; try done. intros key i. rewrite entry_select.
  destruct (position _ i) as [j|]; cbn; [|done].
  apply nargsort_descending in Hidx as (_ & Hlt & _).
  assert (size pv = n) as Hpvn by by eapply (column_Forall (λ s, size s = n)).
  assert (size pfv = n) as Hpfvn by by eapply (column_Forall (λ s, size s = n)).
  assert (size partly = n) as Hpn.
  { unfold size in *. rewrite (series_sub_objects _ _ _ Hsub), length_zip_with. lia. }
  set (wp := set_column g "people_partly_vaccinated" partly).
  assert (Forall (λ c, size c.2 = n) wp) as Hwp
    by by apply (Forall_set_column (λ s, size s = n)).
  destruct (column wp key) as [s|e] eqn:Hs.
  - erewrite entry_take_positions; [done|done|].
    apply (column_Forall (λ s, size s = n)) in Hs; [|done].
    unfold size in *. by rewrite Hs, <- Hpvn.
  - unfold entry. rewrite column_frame_map, Hs. cbn. by destruct (indexer !! j).
Qed.

Lemma snapshot_difference E g snap :
  (∃ n, Forall (λ c, size c.2 = n) g) →
  snapshot E g = Ok snap → derived_difference snap.
Proof.
  intros Hn (pv & pfv & partly & source & Hpv & Hpfv & Hsub & Hrows)%snapshot_rows;
    [|done].
  intros i x y. rewrite !Hrows. destruct (source i) as [j|]; cbn; [|done].
  unfold entry. rewrite !column_set_column_ne, column_set_column_eq by done.
  rewrite Hpv, Hpfv, (series_sub_objects _ _ _ Hsub), lookup_zip_with.
  by intros -> ->.
Qed.

Lemma cleaned_Ok E dataset keepcols snap :
  cleaned E dataset keepcols = Ok snap →
  ∃ csv g, files E dataset = Some csv ∧
    grouped_max csv "iso_code" keepcols = Ok g ∧ snapshot E g = Ok snap.
Proof.
  unfold cleaned. destruct (files E dataset) as [csv|]; [|done].
  destruct (grouped_max csv _ _) as [g|] eqn:Hg; [|done]. cbn. eauto.
Qed.

Lemma regrouped_Ok E df snap :
  regrouped E df = Ok snap →
  ∃ g, grouped_max df "iso_code" cols = Ok g ∧ snapshot E g = Ok snap.
Proof.
  unfold regrouped. destruct (grouped_max df _ _) as [g|] eqn:Hg; [|done]. cbn. eauto.
Qed.

(** What holds of every snapshot holds of the frames the two builders
    return. *)
Lemma snapshot_builders E (P : DataFrame → Prop) :
  (∀ g snap, (∃ n, Forall (λ c, size c.2 = n) g) → snapshot E g = Ok snap → P snap) →
  (∀ dataset keepcols h r h',
     clean_data E dataset keepcols h = (Ok r, h') →
     ∃ snap, h' !! r = Some snap ∧ P snap) ∧
  (∀ data continent h frames h',
     vax_per_continent_frames E data continent h = (Ok frames, h') →
     ∃ snap, h' !! frames.1 = Some snap ∧ P snap).
Proof.
  intros HP. split.
  - intros dataset keepcols h r h' [_ (snap & Hsnap & Hr)]%clean_data_spec.
    apply cleaned_Ok in Hsnap as (csv & g & _ & Hg & Hsnap).
    exists snap. split; [done|]. eapply HP; [|done]. by eapply grouped_max_size.
  - intros data continent h frames h' [_ Hspec]%vax_per_continent_frames_spec.
    destruct (h !! data) as [df|]; [|done].
    destruct Hspec as (snap & continents & Hsnap & Hw & _).
    apply regrouped_Ok in Hsnap as (g & Hg & Hsnap).
    exists snap. split; [done|]. eapply HP; [|done]. by eapply grouped_max_size.
Qed.

(** C1. In every row of the snapshot that [clean_data] returns, and of the
    snapshot [world_vax] that [vax_per_continent] builds, the entry of
    [people_partly_vaccinated] is exactly the entry of [people_vaccinated]
    minus the entry of [people_fully_vaccinated]. *)
Theorem partly_vaccinated_is_difference E :
  (∀ dataset keepcols h r h',
     clean_data E dataset keepcols h = (Ok r, h') →
     ∃ snap, h' !! r = Some snap ∧ derived_difference snap) ∧
  (∀ data continent h frames h',
     vax_per_continent_frames E data continent h = (Ok frames, h') →
     ∃ snap, h' !! frames.1 = Some snap ∧ derived_difference snap).
Proof. apply snapshot_builders, snapshot_difference. Qed.

(** C5. No row of the snapshot that [clean_data] returns, or of the
    snapshot that [vax_per_continent] builds, has a missing continent. *)
Theorem snapshot_has_no_missing_continent E :
  (∀ dataset keepcols h r h',
     clean_data E dataset keepcols h = (Ok r, h') →
     ∃ snap, h' !! r = Some snap ∧
       ∃ continent, column snap "continent" = Ok continent ∧
         Forall (λ o, isna o = false) (objects continent)) ∧
  (∀ data continent h frames h',
     vax_per_continent_frames E data continent h = (Ok frames, h') →
     ∃ snap, h' !! frames.1 = Some snap ∧
       ∃ continent, column snap "continent" = Ok continent ∧
         Forall (λ o, isna o = false) (objects continent)).
Proof.
  apply (snapshot_builders E (λ snap, ∃ continent, _)).
  intros g snap _. apply snapshot_continent.
Qed.

(** * The order of the snapshot *)

Lemma StronglySorted_impl {A} (R R' : A → A → Prop) l :
  (∀ a b, R a b → R' a b) → StronglySorted R l → StronglySorted R' l.
Proof.
  intros HR. induction 1 as [|x l Hl IH Hx]; constructor; [done|].
  eapply Forall_impl; [done|]. apply HR.
Qed.

Lemma StronglySorted_missing l :
  Forall (λ o, isna o = true) l → StronglySorted (λ a b, key_ge a b = true) l.
Proof.
  induction 1 as [|x l Hx Hl IH]; constructor; [done|].
  eapply Forall_impl; [done|]. intros b Hb. unfold key_ge. by rewrite Hb.
Qed.

Lemma snapshot_sorted E g snap :
  argsort_spec E →
  snapshot E g = Ok snap →
  ∃ pv, column snap "people_vaccinated" = Ok pv ∧
    StronglySorted (λ a b, key_ge a b = true) (objects pv).
Proof.
  intros Hspec (pv & pfv & partly & indexer & c & Hpv & _ & _ & Hidx & _ & ->)%snapshot_Ok.
  eexists. rewrite !column_frame_map, column_set_column_ne, Hpv by done.
  split; [done|]. rewrite objects_select, objects_take_positions.
  apply StronglySorted_select.
  apply nargsort_descending in Hidx as (Hcmp & _ & ->).
  set (non_nans := reverse (List.filter (λ k, negb (isna k)) (objects pv))) in *.
  assert (Forall (λ k, isna k = false) non_nans) as Hnotna.
  { apply Forall_reverse, Forall_forall.
    intros o [_ Ho]%list_elem_of_In%filter_In. by destruct (isna o). }
  destruct (Hspec non_nans Hcmp Hnotna) as [_ Hsorted].
  apply StronglySorted_app.
  - apply (StronglySorted_impl (flip (λ a b, py_le a b = true))).
    { intros a b Hab. unfold key_ge. cbn in Hab. rewrite Hab. apply orb_true_r. }
    apply StronglySorted_reverse, Sorted_StronglySorted; [|done].
    intros x y z. apply py_le_trans.
  - apply StronglySorted_missing, Forall_forall.
    by intros o [_ Ho]%list_elem_of_In%filter_In.
  - apply Forall_forall. intros a _. apply Forall_forall.
    intros b [_ Hb]%list_elem_of_In%filter_In. unfold key_ge. by rewrite Hb.
Qed.

(** C4, as amended.  When [argsort] sorts, the snapshot that [clean_data]
    returns, and the one [vax_per_continent] builds, is in non-increasing
    order of [people_vaccinated], the rows where it is missing last: the
    key of a row is not less than the key of any later row, unless the
    later key is missing. *)
Theorem snapshot_sorted_by_people_vaccinated E :
  argsort_spec E →
  (∀ dataset keepcols h r h',
     clean_data E dataset keepcols h = (Ok r, h') →
     ∃ snap, h' !! r = Some snap ∧
       ∃ pv, column snap "people_vaccinated" = Ok pv ∧
         StronglySorted (λ a b, key_ge a b = true) (objects pv)) ∧
  (∀ data continent h frames h',
     vax_per_continent_frames E data continent h = (Ok frames, h') →
     ∃ snap, h' !! frames.1 = Some snap ∧
       ∃ pv, column snap "people_vaccinated" = Ok pv ∧
         StronglySorted (λ a b, key_ge a b = true) (objects pv)).
Proof.
  intros Hspec. apply (snapshot_builders E (λ snap, ∃ pv, _)).
  intros g snap _. by apply snapshot_sorted.
Qed.

(** * The two sorting kernels sort *)

Section insertion.
Variable before : pyobj → pyobj → bool.
Hypothesis before_le : ∀ a b, before a b = true → py_le a b = true.
Hypothesis before_total : ∀ a b,
  comparable [a; b] = true → isna a = false → isna b = false →
  before a b = false → py_le b a = true.

Let le_key (p q : nat * pyobj) : Prop := py_le p.2 q.2 = true.

Lemma insert_by_perm p l : insert_by before p l ≡ₚ p :: l.
Proof.
  induction l as [|q l IH]; cbn; [done|].
  destruct (before p.2 q.2); [done|]. by rewrite IH, Permutation_swap.
Qed.

Lemma insert_by_sorted (ok : pyobj → Prop) p l :
  (∀ a b, ok a → ok b → comparable [a; b] = true ∧ isna a = false ∧ isna b = false) →
  ok p.2 → Forall (λ q, ok q.2) l →
  StronglySorted le_key l → StronglySorted le_key (insert_by before p l).
Proof.
  intros Hok Hp Hall Hl. induction Hl as [|q l Hl IH Hq]; cbn.
  - repeat constructor.
  - apply Forall_cons in Hall as [Hokq Hall].
    destruct (before p.2 q.2) eqn:Hpq.
    + constructor; [by constructor|]. apply before_le in Hpq.
      constructor; [done|]. eapply Forall_impl; [done|].
      intros x Hx. unfold le_key in *. by eapply py_le_trans.
    + constructor; [by apply IH|].
      rewrite insert_by_perm. constructor; [|done].
      destruct (Hok _ _ Hp Hokq) as (? & ? & ?). by apply before_total.
Qed.

Lemma foldr_insert_by_perm l : foldr (insert_by before) [] l ≡ₚ l.
Proof. induction l as [|p l IH]; cbn; [done|]. by rewrite insert_by_perm, IH. Qed.

Lemma foldr_insert_by_sorted (ok : pyobj → Prop) l :
  (∀ a b, ok a → ok b → comparable [a; b] = true ∧ isna a = false ∧ isna b = false) →
  Forall (λ q, ok q.2) l →
  StronglySorted le_key (foldr (insert_by before) [] l).
Proof.
  intros Hok. induction 1 as [|p l Hp Hall IH]; cbn; [constructor|].
  eapply insert_by_sorted; [done..| |done].
  by rewrite foldr_insert_by_perm.
Qed.

Lemma take_positions_pairs (keys : list pyobj) (l : list (nat * pyobj)) :
  Forall (λ p, keys !! p.1 = Some p.2) l → take_positions (l.*1) keys = l.*2.
Proof.
  induction 1 as [|p l Hp Hall IH]; [done|].
  by rewrite !fmap_cons, take_positions_cons, Hp, IH.
Qed.

Lemma zip_seq_lookup (keys : list pyobj) :
  Forall (λ p, keys !! p.1 = Some p.2) (zip (seq 0 (length keys)) keys).
Proof.
  apply Forall_forall. intros [i k] (j & Hj)%list_elem_of_lookup_1.
  apply lookup_zip_with_Some in Hj as (i' & k' & [= <- <-] & Hi & Hk).
  apply lookup_seq in Hi as [-> _]. done.
Qed.

Lemma comparable_pairs keys :
  comparable keys = true → Forall (λ k, isna k = false) keys →
  ∃ ok : pyobj → Prop,
    (∀ a b, ok a → ok b → comparable [a; b] = true ∧ isna a = false ∧ isna b = false) ∧
    Forall ok keys.
Proof.
  unfold comparable. intros [Hf|Hs]%orb_true_iff Hna.
  - exists (λ k, isna k = false ∧ ∃ x, k = PyFloat x). split.
    + by intros a b [? [x ->]] [? [y ->]].
    + rewrite forallb_forall in Hf. apply Forall_forall. intros k Hk.
      split; [by eapply Forall_forall in Hna|].
      apply list_elem_of_In, Hf in Hk. destruct k; [by eexists|done].
  - exists (λ k, isna k = false ∧ ∃ s, k = PyStr s). split.
    + by intros a b [? [s ->]] [? [t ->]].
    + rewrite forallb_forall in Hs. apply Forall_forall. intros k Hk.
      split; [by eapply Forall_forall in Hna|].
      apply list_elem_of_In, Hs in Hk. destruct k; [done|by eexists].
Qed.

Lemma insertion_argsort_spec files :
  argsort_spec {| files := files; argsort := insertion_argsort before |}.
Proof.
  intros keys Hcmp Hna. cbn [argsort]. unfold insertion_argsort.
  set (pairs := zip (seq 0 (length keys)) keys).
  pose proof (foldr_insert_by_perm pairs) as Hperm. split.
  - rewrite Hperm. unfold pairs. by rewrite fst_zip by by rewrite length_seq.
  - rewrite take_positions_pairs.
    2:{ rewrite Hperm. apply zip_seq_lookup. }
    destruct (comparable_pairs keys Hcmp Hna) as (ok & Hok & Hall).
    assert (StronglySorted le_key (foldr (insert_by before) [] pairs)) as Hsorted.
    { apply (foldr_insert_by_sorted ok); [done|].
      apply Forall_forall. intros [i k] (j & Hj)%list_elem_of_lookup_1.
      apply lookup_zip_with_Some in Hj as (i' & k' & [= <- <-] & _ & Hk).
      eapply Forall_forall in Hall; [done|]. by eapply list_elem_of_lookup_2. }
    apply StronglySorted_Sorted. clear -Hsorted.
    induction Hsorted as [|p l Hl IH Hp]; rewrite ?fmap_cons; constructor; [done|].
    by apply Forall_fmap.
Qed.

End insertion.

Lemma stable_argsort_spec files :
  argsort_spec {| files := files; argsort := stable_argsort |}.
Proof. apply insertion_argsort_spec; [done|apply py_le_total]. Qed.

Lemma unstable_argsort_spec files :
  argsort_spec {| files := files; argsort := unstable_argsort |}.
Proof.
  apply insertion_argsort_spec.
  - unfold py_lt. by intros a b [? _]%andb_true_iff.
  - unfold py_lt. intros a b Hcmp Ha Hb [Hab|Hba%negb_false_iff]%andb_false_iff;
      [by apply py_le_total|done].
Qed.

(** * The continent filter *)

Lemma py_eq_str_spec text o : py_eq_str text o = true ↔ o = PyStr text.
Proof.
  destruct o as [x|s]; cbn; [done|]. rewrite String.eqb_eq.
  split; [by intros ->|by intros [= ->]].
Qed.

(** The rows a mask [f <$> l] selects are the rows whose entry in [l]
    passes [f]. *)
Lemma select_filter_zip {A} (P : pyobj → Prop) `{∀ o, Decision (P o)}
    (f : pyobj → bool) (l : list pyobj) (k : list A) :
  (∀ o, f o = true ↔ P o) →
  select (f <$> l) k = (filter (λ p, P p.1) (zip l k)).*2.
Proof.
  intros Hf. revert k. induction l as [|o l IH]; intros [|x k]; cbn; try done.
  destruct (f o) eqn:Ho.
  - apply Hf in Ho. rewrite decide_True by done. cbn. by rewrite IH.
  - rewrite decide_False; [apply IH|]. rewrite <- Hf. congruence.
Qed.

Lemma regrouped_any_continent E data continent continent' h frames h' :
  vax_per_continent_frames E data continent h = (Ok frames, h') →
  ∃ frames2 h2, vax_per_continent_frames E data continent' h = (Ok frames2, h2).
Proof.
  intros [_ Hspec]%vax_per_continent_frames_spec.
  destruct (vax_per_continent_frames E data continent' h) as [[frames2|e] h2] eqn:Hrun;
    [by eauto|].
  apply vax_per_continent_frames_spec in Hrun as [_ Hspec'].
  destruct (h !! data) as [df|]; [|done].
  destruct Hspec as (snap & continents & Hsnap & _). congruence.
Qed.

(** C8. The frame [cont_vax] that [vax_per_continent] selects from its
    snapshot [world_vax] holds, in every column and in the order of the
    snapshot, the entries of exactly the rows whose continent is the given
    name, character for character; and the selection raises for no name:
    when it returns for one name it returns for every other. *)
Theorem continent_filter_selects_matching_rows E data continent h frames h' :
  vax_per_continent_frames E data continent h = (Ok frames, h') →
  ∃ world_vax cont_vax continents,
    h' !! frames.1 = Some world_vax ∧
    h' !! frames.2 = Some cont_vax ∧
    column world_vax "continent" = Ok continents ∧
    (∀ key,
       objects <$> column cont_vax key
       = (λ s, (filter (λ p, p.1 = PyStr continent)
                  (zip (objects continents) (objects s))).*2)
         <$> column world_vax key) ∧
    (∀ other, ∃ frames2 h2,
       vax_per_continent_frames E data other h = (Ok frames2, h2)).
Proof.
  intros Hrun. pose proof Hrun as [_ Hspec]%vax_per_continent_frames_spec.
  destruct (h !! data) as [df|]; [|done].
  destruct Hspec as (snap & continents & _ & Hw & Hc & Hcont).
  eexists _, _, continents. split_and!; [done..| |].
  - intros key. rewrite column_frame_map.
    destruct (column snap key) as [s|e]; [|done]. cbn. f_equal.
    rewrite objects_select. unfold series_eq.
    apply (@select_filter_zip _ (λ o, o = PyStr continent)
             (λ o, is_str_dec o continent)), py_eq_str_spec.
  - intros other. by eapply regrouped_any_continent.
Qed.

(** * The time series *)

Lemma country_trace_spec dataset country h res h' :
  country_trace dataset country h = (res, h') →
  h `prefix_of` h' ∧
  match h !! dataset with
  | None => res = Raise ReferenceError
  | Some df => res = country_value df country
  end.
Proof.
  unfold country_trace, country_value.
  destruct (h !! dataset) as [df|] eqn:Hdata.
  2:{ rewrite run_bind. unfold getitem.
      rewrite run_bind, run_load_None by done. by intros [= <- <-]. }
  run run_getitem.
  on_result (column df "location") ipattern:([location|e]).
  run run_getitem_mask. run run_getitem_list.
  on_result (columns (frame_map (λ A, select (series_eq location country)) df)
               ["iso_code"; "date"; "new_vaccinations_per_hundred"])
    ipattern:([country_vax|e]).
  run run_getitem.
  on_result (column country_vax "new_vaccinations_per_hundred") ipattern:([metric|e]).
  run run_getitem_mask. run run_getattr.
  on_result (attribute (frame_map (λ A, select (eq_False (series_isna metric)))
                          country_vax) "date") ipattern:([date|e]).
  run run_getattr.
  on_result (attribute (frame_map (λ A, select (eq_False (series_isna metric)))
                          country_vax) "new_vaccinations_per_hundred")
    ipattern:([metric'|e]).
  run run_getattr.
  on_result (attribute (frame_map (λ A, select (eq_False (series_isna metric)))
                          country_vax) "iso_code") ipattern:([iso_code|e]).
  run_pure.
  on_result (iloc0 iso_code) ipattern:([name|e]).
  rewrite run_ret. intros [= <- <-]. split; [grows|done].
Qed.

Lemma for_countries_spec dataset countries graph h res h' :
  for_countries dataset countries graph h = (res, h') →
  h `prefix_of` h' ∧
  match h !! dataset with
  | None => res = match countries with [] => Ok graph | _ => Raise ReferenceError end
  | Some df =>
      res = (traces ← mapM (country_value df) countries;
             mret (graph ++ (scatter <$> traces)))
  end.
Proof.
  revert graph h. induction countries as [|country countries IH]; intros graph h.
  - cbn. intros [= <- <-]. split; [done|]. rewrite app_nil_r. by destruct (h !! dataset).
  - cbn [for_countries]. rewrite run_bind.
    destruct (country_trace dataset country h) as [[t|e] h1] eqn:Ht.
    + apply country_trace_spec in Ht as [Hh1 Ht].
      intros [Hh' Hres]%IH. split; [by etrans|].
      destruct (h !! dataset) as [df|] eqn:Hdata; [|done].
      rewrite (prefix_lookup_Some _ _ _ _ Hdata Hh1) in Hres.
      cbn. rewrite <- Ht. cbn. rewrite Hres.
      destruct (mapM (country_value df) countries); cbn; [|done].
      by rewrite <- (assoc_L (++)).
    + apply country_trace_spec in Ht as [Hh1 Ht]. intros [= <- <-]. split; [done|].
      destruct (h !! dataset) as [df|]; [|by injection Ht as ->].
      cbn. by rewrite <- Ht.
Qed.

Lemma vax_time_series_spec countries dataset h res h' :
  vax_time_series countries dataset h = (res, h') →
  h `prefix_of` h' ∧
  ∀ df, h !! dataset = Some df →
    fst <$> res = fmap scatter <$> mapM (country_value df) countries.
Proof.
  unfold vax_time_series. rewrite run_bind.
  destruct (for_countries dataset countries [] h) as [[graph|e] h1] eqn:Hg.
  - rewrite run_ret. intros [= <- <-].
    apply for_countries_spec in Hg as [Hh1 Hg]. split; [done|].
    intros df Hdf. rewrite Hdf in Hg. cbn.
    destruct (mapM (country_value df) countries); cbn in *;
      unfold mret, result_ret in *; congruence.
  - intros [= <- <-]. apply for_countries_spec in Hg as [Hh1 Hg]. split; [done|].
    intros df Hdf. rewrite Hdf in Hg. cbn.
    destruct (mapM (country_value df) countries); cbn in *;
      unfold mret, result_ret in *; congruence.
Qed.

Lemma select_all_false {A} mask (l : list A) :
  Forall (λ b, b = false) mask → select mask l = [].
Proof.
  intros Hall. revert l. induction Hall as [|b mask -> Hall IH]; intros [|x l]; cbn; done.
Qed.

Lemma length_select_eq {A B} mask (l : list A) (k : list B) :
  length l = length k → length (select mask l) = length (select mask k).
Proof.
  revert l k. induction mask as [|[] mask IH]; intros [|x l] [|y k]; cbn; try done.
  - intros [= Hlen]. f_equal. by apply IH.
  - intros [= Hlen]. by apply IH.
Qed.

Section points.
Variables (who metric : Series) (name : string).

Lemma with_metric_notna :
  with_metric who metric name (objects metric)
  = List.filter (λ o, negb (isna o)) (rows_of who name (objects metric)).
Proof. unfold with_metric. by rewrite eq_False_isna, select_filter. Qed.

Lemma with_metric_Forall :
  Forall (λ o, isna o = false) (with_metric who metric name (objects metric)).
Proof.
  rewrite with_metric_notna. apply Forall_forall.
  intros o [_ Ho]%list_elem_of_In%filter_In. by destruct (isna o).
Qed.

Lemma length_with_metric :
  length (with_metric who metric name (objects metric)) = matching_rows who metric name.
Proof.
  rewrite with_metric_notna. unfold rows_of, series_eq, matching_rows.
  rewrite (@select_filter_zip _ (λ o, o = PyStr name) (λ o, is_str_dec o name))
    by apply py_eq_str_spec.
  generalize (zip (objects who) (objects metric)). intros l.
  induction l as [|[a b] l IH]; [done|]. rewrite !filter_cons. cbn.
  destruct (decide (a = PyStr name)) as [->|Hne].
  - cbn. destruct (isna b) eqn:Hb; cbn.
    + rewrite decide_False by (intros [_ ?]; done). apply IH.
    + rewrite decide_True by done. cbn. by rewrite IH.
  - rewrite decide_False by (intros [? _]; done). apply IH.
Qed.

Lemma length_with_metric_other (s : Series) :
  size s = size metric →
  length (with_metric who metric name (objects s)) = matching_rows who metric name.
Proof.
  intros Hs. rewrite <- length_with_metric. unfold with_metric, rows_of.
  by apply length_select_eq, length_select_eq.
Qed.

Lemma with_metric_no_rows {A} (l : list A) :
  matching_rows who metric name = 0 → with_metric who metric name l = [].
Proof.
  rewrite <- length_with_metric, with_metric_notna. intros Hnil%nil_length_inv.
  unfold with_metric. rewrite select_all_false; [done|]. rewrite eq_False_isna.
  apply Forall_fmap, Forall_forall. intros o Ho. cbn.
  destruct (isna o) eqn:Hna; [done|]. exfalso.
  assert (o ∈ List.filter (λ o, negb (isna o)) (rows_of who name (objects metric)))
    as Hin.
  { apply list_elem_of_In, filter_In. split; [by apply list_elem_of_In|]. by rewrite Hna. }
  rewrite Hnil in Hin. by apply not_elem_of_nil in Hin.
Qed.

End points.

Lemma country_value_eq df country location metric date iso_code :
  column df "location" = Ok location →
  column df "new_vaccinations_per_hundred" = Ok metric →
  column df "date" = Ok date →
  column df "iso_code" = Ok iso_code →
  country_value df country =
  match with_metric location metric country (objects iso_code) with
  | [] => Raise IndexError
  | name :: _ =>
      Ok {| scatter_x := with_metric location metric country (objects date);
            scatter_y := with_metric location metric country (objects metric);
            scatter_mode := "lines"; line_width := 1; connectgaps := true;
            scatter_name := name |}
  end.
Proof.
  intros Hlocation Hmetric Hdate Hiso.
  unfold country_value, columns, attribute, iloc0. rewrite Hlocation. cbn.
  rewrite !column_frame_map, Hiso, Hdate, Hmetric. cbn.
  rewrite !objects_select. unfold series_isna. rewrite !objects_select.
  change (select (eq_False (isna <$> select (series_eq location country) (objects metric)))
            (select (series_eq location country) (objects iso_code)))
    with (with_metric location metric country (objects iso_code)).
  by destruct (with_metric location metric country (objects iso_code)).
Qed.

Lemma country_value_columns df country s :
  country_value df country = Ok s →
  ∃ location metric date iso_code,
    column df "location" = Ok location ∧
    column df "new_vaccinations_per_hundred" = Ok metric ∧
    column df "date" = Ok date ∧
    column df "iso_code" = Ok iso_code.
Proof.
  unfold country_value, columns.
  destruct (column df "location") as [location|]; [|done]. cbn.
  rewrite !column_frame_map.
  destruct (column df "iso_code") as [iso_code|]; [|done]. cbn.
  destruct (column df "date") as [date|]; [|done]. cbn.
  destruct (column df "new_vaccinations_per_hundred") as [metric|]; [|done].
  intros _. by eexists _, _, _, _.
Qed.

Lemma third_chart_spec owid h res h' :
  third_chart owid h = (res, h') →
  h `prefix_of` h' ∧
  match h !! owid with
  | None => res = Raise ReferenceError
  | Some df => data <$> res = (λ b, [bar b]) <$> brazil_value df
  end.
Proof.
  unfold third_chart, brazil_value.
  destruct (h !! owid) as [df|] eqn:Howid.
  2:{ rewrite run_bind. unfold getitem.
      rewrite run_bind, run_load_None by done. by intros [= <- <-]. }
  run run_getitem.
  on_result (column df "iso_code") ipattern:([iso_code|e]).
  run run_getitem_mask. run run_getitem_list.
  on_result (columns (frame_map (λ A, select (series_eq iso_code "BRA")) df)
               ["date"; "new_vaccinations"]) ipattern:([bra_vax|e]).
  run run_getitem.
  on_result (column bra_vax "new_vaccinations") ipattern:([counts|e]).
  run run_getitem_mask. run run_getattr.
  on_result (attribute (frame_map (λ A, select (eq_False (series_isna counts)))
                          bra_vax) "date") ipattern:([date|e]).
  run run_getattr.
  on_result (attribute (frame_map (λ A, select (eq_False (series_isna counts)))
                          bra_vax) "new_vaccinations") ipattern:([counts'|e]).
  rewrite run_ret. intros [= <- <-]. split; [grows|done].
Qed.

Lemma brazil_value_Ok df b :
  brazil_value df = Ok b →
  ∃ iso_code counts date,
    column df "iso_code" = Ok iso_code ∧
    column df "new_vaccinations" = Ok counts ∧
    column df "date" = Ok date ∧
    bar_x b = with_metric iso_code counts "BRA" (objects date) ∧
    bar_y b = with_metric iso_code counts "BRA" (objects counts).
Proof.
  unfold brazil_value, columns, attribute.
  destruct (column df "iso_code") as [iso_code|]; [|done]. cbn.
  rewrite !column_frame_map.
  destruct (column df "date") as [date|]; [|done]. cbn.
  destruct (column df "new_vaccinations") as [counts|]; [|done]. cbn.
  intros [= <-]. eexists _, _, _. split_and!; [done..| |]; cbn.
  all: rewrite !objects_select; unfold series_isna; by rewrite !objects_select.
Qed.

(** C7. In the series that [vax_time_series] returns for a country, no
    point has a missing metric, and the series has as many points as the
    table has rows with that location and a metric that is not missing.
    The same holds of the bar series of Brazil in the third chart of
    [return_figures], for the rows with code BRA and their new
    vaccinations. *)
Theorem series_points_have_a_metric :
  (∀ countries dataset h df n graph layout h',
     h !! dataset = Some df →
     Forall (λ c, size c.2 = n) df →
     vax_time_series countries dataset h = (Ok (graph, layout), h') →
     Forall2 (λ country t, ∃ s location metric,
                t = scatter s ∧
                column df "location" = Ok location ∧
                column df "new_vaccinations_per_hundred" = Ok metric ∧
                Forall (λ o, isna o = false) (scatter_y s) ∧
                length (scatter_y s) = matching_rows location metric country ∧
                length (scatter_x s) = length (scatter_y s))
       countries graph) ∧
  (∀ owid h df n fig h',
     h !! owid = Some df →
     Forall (λ c, size c.2 = n) df →
     third_chart owid h = (Ok fig, h') →
     ∃ b iso_code counts,
       data fig = [bar b] ∧
       column df "iso_code" = Ok iso_code ∧
       column df "new_vaccinations" = Ok counts ∧
       Forall (λ o, isna o = false) (bar_y b) ∧
       length (bar_y b) = matching_rows iso_code counts "BRA" ∧
       length (bar_x b) = length (bar_y b)).
Proof.
  split.
  - intros countries dataset h df n graph layout h' Hdf Hn [_ Hrun]%vax_time_series_spec.
    specialize (Hrun df Hdf). cbn in Hrun.
    destruct (mapM (country_value df) countries) as [traces|] eqn:Htraces; [|done].
    injection Hrun as ->. apply mapM_Ok in Htraces. apply Forall2_fmap_r.
    eapply Forall2_impl; [done|]. intros country s Hs. cbn in Hs.
    pose proof Hs as (location & metric & date & iso_code & Hl & Hm & Hd & Hi)%country_value_columns.
    rewrite (country_value_eq _ _ _ _ _ _ Hl Hm Hd Hi) in Hs.
    destruct (with_metric location metric country (objects iso_code)); [done|].
    injection Hs as <-. eexists _, location, metric. cbn [scatter_x scatter_y].
    split_and!; [done..|apply with_metric_Forall|apply length_with_metric|].
    cbn [scatter_x scatter_y].
    rewrite length_with_metric. apply length_with_metric_other.
    apply (column_Forall (λ s, size s = n)) in Hm, Hd; [congruence|done..].
  - intros owid h df n fig h' Hdf Hn [_ Hrun]%third_chart_spec.
    rewrite Hdf in Hrun. cbn in Hrun.
    destruct (brazil_value df) as [b|] eqn:Hb; [|done]. injection Hrun as Hfig.
    apply brazil_value_Ok in Hb as (iso_code & counts & date & Hi & Hc & Hd & Hx & Hy).
    exists b, iso_code, counts. rewrite Hx, Hy.
    split_and!; [done..|apply with_metric_Forall|apply length_with_metric|].
    rewrite length_with_metric. apply length_with_metric_other.
    apply (column_Forall (λ s, size s = n)) in Hc, Hd; [congruence|done..].
Qed.

Lemma mapM_Raise {A B} (f : A → result B) l x e :
  Forall (λ y, f y = Raise e ∨ ∃ b, f y = Ok b) l → x ∈ l → f x = Raise e →
  mapM f l = Raise e.
Proof.
  intros Hall Hx Hfx. induction Hall as [|y l Hy Hall IH]; [by apply not_elem_of_nil in Hx|].
  cbn. destruct Hy as [Hy|[b Hy]]; rewrite Hy; [done|]. cbn.
  apply elem_of_cons in Hx as [->|Hx]; [congruence|]. by rewrite IH.
Qed.

(** C2, as the code has it.  When some requested country has no row with
    a metric in the table, [vax_time_series] raises [IndexError] (at
    [country_vax.iso_code.iloc[0]], line 101) instead of returning an
    empty series for it. *)
Theorem absent_country_raises_IndexError
    countries dataset h df location metric date iso_code country :
  h !! dataset = Some df →
  column df "location" = Ok location →
  column df "new_vaccinations_per_hundred" = Ok metric →
  column df "date" = Ok date →
  column df "iso_code" = Ok iso_code →
  country ∈ countries →
  matching_rows location metric country = 0 →
  ∃ h', vax_time_series countries dataset h = (Raise IndexError, h').
Proof.
  intros Hdf Hl Hm Hd Hi Hin Hrows.
  destruct (vax_time_series countries dataset h) as [res h'] eqn:Hrun. exists h'.
  apply vax_time_series_spec in Hrun as [_ Hrun]. specialize (Hrun df Hdf).
  rewrite (mapM_Raise _ _ country IndexError) in Hrun.
  - destruct res; cbn in Hrun; congruence.
  - apply Forall_forall. intros c _.
    rewrite (country_value_eq _ _ _ _ _ _ Hl Hm Hd Hi).
    destruct (with_metric location metric c (objects iso_code)); eauto.
  - done.
  - rewrite (country_value_eq _ _ _ _ _ _ Hl Hm Hd Hi).
    by rewrite with_metric_no_rows.
Qed.

(** * The tables passed in are left as they are *)

Lemma getitem_heap r key h : (getitem r key h).2 = h.
Proof. unfold getitem, load, lift. rewrite run_bind. by destruct (h !! r). Qed.

Lemma vax_per_continent_grows E data continent h :
  h `prefix_of` (vax_per_continent E data continent h).2.
Proof.
  unfold vax_per_continent. rewrite run_bind.
  destruct (vax_per_continent_frames E data continent h) as [[frames|e] h1] eqn:Hf;
    apply vax_per_continent_frames_spec in Hf as [Hh1 _]; [|done].
  repeat (rewrite run_bind;
          match goal with
          | |- context [getitem ?r ?key h1] =>
              pose proof (getitem_heap r key h1);
              destruct (getitem r key h1) as [[?|?] ?]; simplify_eq/=; [|done]
          end).
  done.
Qed.

(** C9. [vax_per_continent] and [vax_time_series] change no frame that
    was in the heap when they were called, whether they return or raise:
    the heap after the call is the heap before it, followed by the frames
    the call has built.  In particular the table passed to them is, after
    the call, the table it was. *)
Theorem passed_tables_are_not_mutated E data continent countries h :
  let after_map := (vax_per_continent E data continent h).2 in
  let after_series := (vax_time_series countries data h).2 in
  h `prefix_of` after_map ∧ h `prefix_of` after_series ∧
  ∀ df, h !! data = Some df →
    after_map !! data = Some df ∧ after_series !! data = Some df.
Proof.
  cbn zeta.
  assert (h `prefix_of` (vax_time_series countries data h).2) as Hseries.
  { destruct (vax_time_series countries data h) as [res h'] eqn:Hrun.
    by apply vax_time_series_spec in Hrun as [? _]. }
  pose proof (vax_per_continent_grows E data continent h) as Hmap.
  split_and!; [done..|]. intros df Hdf.
  split; by eapply prefix_lookup_Some.
Qed.

(** * Columns that [clean_data] needs *)

Lemma columns_labels (df : DataFrame) keys v : columns df keys = Ok v → v.*1 = keys.
Proof.
  intros Hv%mapM_Ok. induction Hv as [|key c keys v Hc Hv IH]; [done|].
  rewrite fmap_cons, IH. f_equal.
  destruct (column df key); cbn in Hc; unfold mret, result_ret in Hc; by simplify_eq.
Qed.

Lemma grouped_max_labels (df : DataFrame) key keepcols g :
  grouped_max df key keepcols = Ok g → g.*1 = keepcols.
Proof.
  unfold grouped_max. destruct (column df key) as [keys|]; [|done]. cbn.
  destruct (columns df keepcols) as [sel|] eqn:Hsel; [|done]. cbn.
  apply columns_labels in Hsel as <-. intros Hg%mapM_Ok.
  induction Hg as [|c c' sel g Hc Hg IH]; [done|].
  rewrite !fmap_cons, IH. f_equal.
  destruct (group_max _ _ c.2); cbn in Hc; unfold mret, result_ret in Hc;
    by simplify_eq.
Qed.

Lemma column_Ok_label (df : DataFrame) key s : column df key = Ok s → key ∈ df.*1.
Proof.
  induction df as [|[label s'] df IH]; cbn; [done|].
  destruct (String.eqb label key) eqn:Hl.
  - apply String.eqb_eq in Hl as ->. intros _. apply elem_of_cons. by left.
  - intros Hs. apply elem_of_cons. right. by apply IH.
Qed.

Lemma snapshot_needs_columns E g snap :
  snapshot E g = Ok snap →
  "people_vaccinated" ∈ g.*1 ∧ "people_fully_vaccinated" ∈ g.*1 ∧ "continent" ∈ g.*1.
Proof.
  intros (pv & pfv & partly & indexer & c & Hpv & Hpfv & _ & _ & Hc & _)%snapshot_Ok.
  rewrite column_frame_map, column_set_column_ne in Hc by done.
  destruct (column g "continent") as [c'|] eqn:Hc'; [|done].
  split_and!; by eapply column_Ok_label.
Qed.

Lemma column_Raise (df : DataFrame) key e :
  column df key = Raise e → e = KeyError key ∧ key ∉ df.*1.
Proof.
  induction df as [|[label s] df IH]; cbn.
  - intros [= <-]. split; [done|apply not_elem_of_nil].
  - destruct (String.eqb label key) eqn:Hl; [done|].
    intros [-> Hkey]%IH. split; [done|]. apply not_elem_of_cons. split; [|done].
    intros ->. by rewrite String.eqb_refl in Hl.
Qed.

Lemma mapM_Raise_inv {A B} (f : A → result B) l e :
  mapM f l = Raise e → ∃ x, x ∈ l ∧ f x = Raise e.
Proof.
  induction l as [|x l IH]; cbn; [done|].
  destruct (f x) as [y|e'] eqn:Hx; cbn.
  - destruct (mapM f l) as [k|e'] eqn:Hl; cbn; [done|]. intros [= ->].
    destruct IH as (x' & Hx' & Hfx'); [done|]. exists x'. split; [|done].
    apply elem_of_cons. by right.
  - intros [= ->]. exists x. split; [|done]. apply elem_of_cons. by left.
Qed.

Lemma py_op_Sub_Raise a b e : py_op Sub a b = Raise e → e = TypeError.
Proof. destruct a, b; cbn; congruence. Qed.

(** A subtraction of columns fails with a [TypeError] only. *)
Lemma series_sub_Raise a b e : series_sub a b = Raise e → e = TypeError.
Proof.
  unfold series_sub, series_arith.
  assert (∀ e', mapM (λ p, py_op_masked Sub p.1 p.2) (zip (objects a) (objects b))
                = Raise e' → e' = TypeError) as Hsecond.
  { intros e' (p & _ & Hp)%mapM_Raise_inv. unfold py_op_masked in Hp.
    destruct (isna p.1 || isna p.2); [done|]. by eapply py_op_Sub_Raise. }
  destruct a as [x|x], b as [y|y]; [done|..].
  all: destruct (mapM (λ p, py_op Sub p.1 p.2) _) as [r|e1] eqn:Hr; cbn; [done|].
  all: apply mapM_Raise_inv in Hr as (p & _ & Hp);
    apply py_op_Sub_Raise in Hp as ->.
  all: destruct (mapM (λ p, py_op_masked Sub p.1 p.2) _) as [r|e2] eqn:Hr'; cbn;
    [done|].
  all: intros [= <-]; by apply Hsecond.
Qed.

Lemma nargsort_Raise E items ascending e :
  nargsort E items ascending = Raise e → e = TypeError.
Proof. unfold nargsort. destruct (comparable _); congruence. Qed.

(** The snapshot fails for a column it needs and does not find, or with
    a [TypeError] of the subtraction or of the sort. *)
Lemma snapshot_Raise E g e :
  snapshot E g = Raise e →
  e = TypeError ∨
  ∃ key, e = KeyError key ∧ (key ∉ g.*1) ∧
    key ∈ ["people_vaccinated"; "people_fully_vaccinated"; "continent"].
Proof.
  unfold snapshot.
  destruct (column g "people_vaccinated") as [pv|e1] eqn:Hpv; cbn.
  2:{ intros [= <-]. apply column_Raise in Hpv as [-> ?]. right. eexists.
      split_and!; [done..|]. apply list_elem_of_In. cbn. tauto. }
  destruct (column g "people_fully_vaccinated") as [pfv|e1] eqn:Hpfv; cbn.
  2:{ intros [= <-]. apply column_Raise in Hpfv as [-> ?]. right. eexists.
      split_and!; [done..|]. apply list_elem_of_In. cbn. tauto. }
  destruct (series_sub pv pfv) as [partly|e1] eqn:Hsub; cbn.
  2:{ intros [= <-]. left. by eapply series_sub_Raise. }
  unfold sorted_frame. rewrite column_set_column_ne, Hpv by done. cbn.
  destruct (nargsort E (objects pv) false) as [indexer|e1] eqn:Hidx; cbn.
  2:{ intros [= <-]. left. by eapply nargsort_Raise. }
  rewrite column_frame_map, column_set_column_ne by done.
  destruct (column g "continent") as [c|e1] eqn:Hc; cbn; [done|].
  intros [= <-]. apply column_Raise in Hc as [-> ?]. right. eexists.
  split_and!; [done..|]. apply list_elem_of_In. cbn. tauto.
Qed.

(** C10. Called with a list of columns that lacks [people_vaccinated],
    [people_fully_vaccinated] or [continent] - the default, empty list for
    instance - [clean_data] raises and returns no snapshot.  When the file
    has been read and grouped, what it raises is the [KeyError] of one of
    the three columns, absent from the list (or the [TypeError] of an
    earlier subtraction or sort, on columns that are not numeric). *)
Theorem clean_data_needs_three_columns E dataset keepcols h :
  "people_vaccinated" ∉ keepcols ∨ "people_fully_vaccinated" ∉ keepcols
    ∨ "continent" ∉ keepcols →
  ∃ e h',
    clean_data E dataset keepcols h = (Raise e, h') ∧
    ∀ csv g,
      files E dataset = Some csv →
      grouped_max csv "iso_code" keepcols = Ok g →
      e = TypeError ∨
      ∃ key, e = KeyError key ∧ (key ∉ keepcols) ∧
        key ∈ ["people_vaccinated"; "people_fully_vaccinated"; "continent"].
Proof.
  intros Hmissing.
  destruct (clean_data E dataset keepcols h) as [[r|e] h'] eqn:Hrun.
  - apply clean_data_spec in Hrun as [_ (snap & Hsnap & _)].
    apply cleaned_Ok in Hsnap as (csv & g & _ & Hg & Hsnap).
    apply grouped_max_labels in Hg as <-.
    apply snapshot_needs_columns in Hsnap. tauto.
  - exists e, h'. split; [done|]. intros csv g Hcsv Hg.
    apply clean_data_spec in Hrun as [_ Hrun]. unfold cleaned in Hrun.
    rewrite Hcsv, Hg in Hrun. cbn in Hrun.
    apply grouped_max_labels in Hg as <-. by apply (snapshot_Raise E).
Qed.

(** * The first ten rows *)

Lemma column_head (df : DataFrame) n key :
  column (frame_map (λ A, take n) df) key = series_map (λ A, take n) <$> column df key.
Proof. apply column_frame_map. Qed.

(** C6. The two bar series of the second chart are read off
    [world_vax.head(10)]: their labels and values are the first ten
    entries of the snapshot's columns, in the snapshot's order - a prefix
    of each column, of length [min 10 (number of rows)] - and the
    snapshot is not sorted again. *)
Theorem top_ten_is_a_prefix_of_the_snapshot world_vax h snap location partly fully :
  h !! world_vax = Some snap →
  column snap "location" = Ok location →
  column snap "people_partly_vaccinated" = Ok partly →
  column snap "people_fully_vaccinated" = Ok fully →
  ∃ fig h',
    second_chart world_vax h = (Ok fig, h') ∧
    h' !! world_vax = Some snap ∧
    data fig
    = [bar {| bar_x := take 10 (objects location); bar_y := take 10 (objects partly);
              bar_name := Some "partly" |};
       bar {| bar_x := take 10 (objects location); bar_y := take 10 (objects fully);
              bar_name := Some "fully" |}] ∧
    Forall (λ s, take 10 (objects s) `prefix_of` objects s ∧
                 length (take 10 (objects s)) = 10 `min` size s)
      [location; partly; fully].
Proof.
  intros Hsnap Hlocation Hpartly Hfully.
  pose proof (lookup_lt_Some _ _ _ Hsnap) as Hlt.
  eexists _, _. split_and!.
  - unfold second_chart.
    run run_head. run run_getattr.
    unfold attribute at 1. rewrite column_head, Hlocation. cbn [fmap result_fmap].
    run run_head. run run_getitem.
    rewrite column_head, Hpartly. cbn [fmap result_fmap].
    run run_head. run run_getattr.
    unfold attribute at 1. rewrite column_head, Hlocation. cbn [fmap result_fmap].
    run run_head. run run_getitem.
    rewrite column_head, Hfully. cbn [fmap result_fmap].
    rewrite run_ret. reflexivity.
  - heap_lookup.
  - cbn [data]. by rewrite !objects_take.
  - repeat constructor; try apply prefix_take.
    all: unfold size; by rewrite length_take.
Qed.

(** * The derived rate *)

Section rate.
Local Open Scope float_scope.

Lemma float_eqb_zero x : (x =? 0) = true ↔ ∃ s, Prim2SF x = S754_zero s.
Proof.
  rewrite FloatAxioms.eqb_spec. change (Prim2SF 0) with (S754_zero false).
  unfold SFeqb. destruct (Prim2SF x) as [s|[]| |[] m e]; cbn; split;
    try done; try (by intros [? ?]). by exists s.
Qed.

Lemma rate_spec n d :
  Prim2SF (rate n d)
  = SF64mul (SF64div (Prim2SF n) (Prim2SF d)) (Prim2SF 100).
Proof. unfold rate. by rewrite mul_spec, div_spec. Qed.

(** A missing denominator gives a missing rate. *)
Lemma rate_missing_denominator n d :
  PrimFloat.is_nan d = true → PrimFloat.is_nan (rate n d) = true.
Proof.
  rewrite !is_nan_spec, rate_spec. intros ->.
  unfold SF64div, SFdiv. by destruct (Prim2SF n).
Qed.

(** A zero denominator gives a missing rate when the numerator is zero or
    missing, and an infinite rate otherwise. *)
Lemma rate_zero_denominator n d :
  (d =? 0) = true →
  if PrimFloat.is_nan n || (n =? 0) then PrimFloat.is_nan (rate n d) = true
  else rate n d = infinity ∨ rate n d = neg_infinity.
Proof.
  intros [s Hd]%float_eqb_zero.
  destruct (PrimFloat.is_nan n) eqn:Hnan; cbn [orb].
  { apply is_nan_spec in Hnan. by rewrite is_nan_spec, rate_spec, Hnan. }
  destruct (n =? 0) eqn:Hzero.
  { apply float_eqb_zero in Hzero as [s' Hn].
    by rewrite is_nan_spec, rate_spec, Hn, Hd. }
  apply not_nan_spec in Hnan.
  assert (∀ s', Prim2SF n ≠ S754_zero s') as Hnz.
  { intros s' Hn. assert ((n =? 0) = true) by (apply float_eqb_zero; eauto). congruence. }
  assert (Prim2SF (rate n d) = S754_infinity false
          ∨ Prim2SF (rate n d) = S754_infinity true) as [Hr|Hr].
  { rewrite rate_spec, Hd. change (Prim2SF 100) with (S754_finite false 7036874417766400 (-46)).
    destruct (Prim2SF n) as [s'|s'| |s' m e]; [by destruct (Hnz s')|..|done|].
    all: cbn; destruct (xorb s' s); cbn; auto. }
  - left. by apply Prim2SF_inj.
  - right. by apply Prim2SF_inj.
Qed.

End rate.

(** C3, as amended.  On [float64] columns the derived rate of a row is
    [(new_vaccinations / population) * 100] in binary64 arithmetic (25.0
    for 50 and 200), and computing it raises nothing.  A missing
    denominator gives a missing rate.  A zero denominator gives a missing
    rate when the numerator is zero or missing, and an infinite rate - not
    a missing one - otherwise. *)
Theorem derived_rate E path h csv numerators denominators :
  files E path = Some csv →
  column csv "new_vaccinations" = Ok (Float64 numerators) →
  column csv "population" = Ok (Float64 denominators) →
  (∃ h',
     read_owid E path h = (Ok (length h), h') ∧
     h' !! length h
     = Some (set_column csv "new_vaccinations_per_hundred"
               (Float64 (zip_with rate numerators denominators)))) ∧
  rate 50 200 = 25%float ∧
  (∀ n d, PrimFloat.is_nan d = true → PrimFloat.is_nan (rate n d) = true) ∧
  (∀ n d, PrimFloat.eqb d 0 = true →
     if PrimFloat.is_nan n || PrimFloat.eqb n 0
     then PrimFloat.is_nan (rate n d) = true
     else rate n d = infinity ∨ rate n d = neg_infinity).
Proof.
  intros Hcsv Hn Hd. split_and!.
  - eexists. unfold read_owid, read_csv. rewrite Hcsv.
    run run_new. run run_getitem. rewrite Hn. cbn [mbind result_bind].
    run run_getitem. rewrite Hd. cbn [mbind result_bind].
    run_pure. cbn [series_div series_arith mbind result_bind].
    run run_setitem_last. rewrite run_ret. split; [done|].
    rewrite lookup_last. do 2 f_equal. cbn [series_mul_100]. f_equal.
    clear. revert denominators.
    induction numerators as [|n ns IH]; intros [|d ds]; cbn; by rewrite ?IH.
  - reflexivity.
  - apply rate_missing_denominator.
  - apply rate_zero_denominator.
Qed.

(** * The charts, as functions of the table *)

Lemma first_chart_spec world_vax h snap :
  h !! world_vax = Some snap →
  first_chart world_vax h = (first_chart_value snap, h).
Proof.
  intros Hsnap. unfold first_chart, first_chart_value.
  run run_getitem. destruct (column snap "location") as [location|e] eqn:Hl; [|done].
  cbn [mbind result_bind]. run run_getitem.
  destruct (column snap "people_vaccinated_per_hundred") as [per_hundred|e]; [|done].
  cbn [mbind result_bind]. run run_getitem. rewrite Hl. by rewrite run_ret.
Qed.

Lemma second_chart_spec world_vax h snap :
  h !! world_vax = Some snap →
  ∃ h', second_chart world_vax h = (second_chart_value snap, h') ∧ h `prefix_of` h'.
Proof.
  intros Hsnap. unfold second_chart, second_chart_value.
  pose proof (lookup_lt_Some _ _ _ Hsnap) as Hlt.
  set (top := frame_map (λ A, take 10) snap).
  run run_head. run run_getattr. fold top.
  destruct (attribute top "location") as [x1|e] eqn:Hx;
    cbn [mbind result_bind]; [|eexists; split; [done|grows]].
  run run_head. run run_getitem. fold top.
  destruct (column top "people_partly_vaccinated") as [y1|e];
    cbn [mbind result_bind]; [|eexists; split; [done|grows]].
  run run_head. run run_getattr. fold top. rewrite Hx.
  run run_head. run run_getitem. fold top.
  destruct (column top "people_fully_vaccinated") as [y2|e];
    cbn [mbind result_bind]; [|eexists; split; [done|grows]].
  rewrite run_ret. eexists; split; [done|grows].
Qed.

Lemma read_owid_spec E path h :
  read_owid E path h
  = match owid_value E path with
    | Ok df => (Ok (length h), h ++ [df])
    | Raise e =>
        (Raise e, match files E path with Some csv => h ++ [csv] | None => h end)
    end.
Proof.
  unfold read_owid, owid_value, read_csv.
  destruct (files E path) as [csv|]; [|done].
  run run_new. run run_getitem.
  destruct (column csv "new_vaccinations") as [nv|e]; [|done].
  cbn [mbind result_bind]. run run_getitem.
  destruct (column csv "population") as [pop|e]; [|done].
  cbn [mbind result_bind]. run_pure.
  destruct (series_div nv pop) as [ratio|e]; [|done].
  cbn [mbind result_bind]. run run_setitem_last. by rewrite run_ret.
Qed.

Lemma third_chart_value_spec owid h df :
  h !! owid = Some df →
  ∃ h', third_chart owid h = (third_chart_value df, h') ∧ h `prefix_of` h'.
Proof.
  intros Howid. pose proof (lookup_lt_Some _ _ _ Howid) as Hlt.
  unfold third_chart, third_chart_value, brazil_value.
  run run_getitem.
  destruct (column df "iso_code") as [iso_code|e];
    cbn [mbind result_bind]; [|eexists; split; [done|grows]].
  run run_getitem_mask. run run_getitem_list.
  destruct (columns (frame_map (λ A, select (series_eq iso_code "BRA")) df)
              ["date"; "new_vaccinations"]) as [bra_vax|e];
    cbn [mbind result_bind]; [|eexists; split; [done|grows]].
  run run_getitem.
  destruct (column bra_vax "new_vaccinations") as [counts|e];
    cbn [mbind result_bind]; [|eexists; split; [done|grows]].
  run run_getitem_mask. run run_getattr.
  destruct (attribute (frame_map (λ A, select (eq_False (series_isna counts)))
                         bra_vax) "date") as [date|e];
    cbn [mbind result_bind]; [|eexists; split; [done|grows]].
  run run_getattr.
  destruct (attribute (frame_map (λ A, select (eq_False (series_isna counts)))
                         bra_vax) "new_vaccinations") as [counts'|e];
    cbn [mbind result_bind]; [|eexists; split; [done|grows]].
  rewrite run_ret. eexists; split; [done|grows].
Qed.

Lemma vax_per_continent_spec E data continent h df :
  h !! data = Some df →
  ∃ h', vax_per_continent E data continent h
        = (vax_per_continent_value E df continent, h') ∧ h `prefix_of` h'.
Proof.
  intros Hdata. unfold vax_per_continent, vax_per_continent_value.
  rewrite run_bind.
  destruct (vax_per_continent_frames E data continent h) as [[frames|e] h1] eqn:Hf;
    apply vax_per_continent_frames_spec in Hf as [Hh1 Hspec]; rewrite Hdata in Hspec.
  2:{ rewrite Hspec. by exists h1. }
  destruct Hspec as (snap & continents & Hsnap & _ & Hc & Hcont).
  rewrite Hsnap. cbn [mbind result_bind]. rewrite Hc. cbn [mbind result_bind].
  exists h1. split; [|done].
  set (cont_vax := frame_map (λ A, select (series_eq continents continent)) snap) in *.
  run run_getitem.
  destruct (column cont_vax "location") as [location|e] eqn:Hl; [|done].
  cbn [mbind result_bind]. run run_getitem.
  destruct (column cont_vax "people_fully_vaccinated_per_hundred") as [fully|e]; [|done].
  cbn [mbind result_bind]. run run_getitem. rewrite Hl. by rewrite run_ret.
Qed.

Lemma vax_time_series_value_spec countries dataset h df :
  h !! dataset = Some df →
  ∃ h', vax_time_series countries dataset h
        = (vax_time_series_value countries df, h') ∧ h `prefix_of` h'.
Proof.
  intros Hdf. unfold vax_time_series, vax_time_series_value. rewrite run_bind.
  destruct (for_countries dataset countries [] h) as [[graph|e] h1] eqn:Hg;
    apply for_countries_spec in Hg as [Hh1 Hg]; rewrite Hdf in Hg; exists h1.
  - destruct (mapM (country_value df) countries) as [traces|]; [|done].
    cbn in Hg |- *. injection Hg as ->. by rewrite run_ret.
  - destruct (mapM (country_value df) countries) as [traces|]; [done|].
    cbn in Hg |- *. by injection Hg as ->.
Qed.

Lemma return_figures_spec E h :
  ∃ h', return_figures E h = (return_figures_value E, h') ∧ h `prefix_of` h'.
Proof.
  unfold return_figures, return_figures_value. fold owid_path. rewrite run_bind.
  destruct (clean_data E owid_path cols h) as [[world_vax|e] h1] eqn:Hclean;
    apply clean_data_spec in Hclean as [Hh1 Hclean].
  2:{ rewrite Hclean. by exists h1. }
  destruct Hclean as (snap & -> & Hsnap). cbn [mbind result_bind].
  rewrite run_bind, (first_chart_spec _ _ _ Hsnap).
  destruct (first_chart_value snap) as [fig_one|e]; cbn [mbind result_bind];
    [|by exists h1].
  rewrite run_bind. destruct (second_chart_spec _ _ _ Hsnap) as (h2 & -> & Hh2).
  destruct (second_chart_value snap) as [fig_two|e]; cbn [mbind result_bind];
    [|exists h2; split; [done|by etrans]].
  rewrite run_bind, read_owid_spec.
  destruct (owid_value E owid_path) as [owid|e]; cbn [mbind result_bind].
  2:{ eexists. split; [done|]. etrans; [done|]. etrans; [done|].
      destruct (files E owid_path); [by apply prefix_app_r|done]. }
  rewrite run_bind.
  destruct (third_chart_value_spec (length h2) (h2 ++ [owid]) owid) as (h3 & -> & Hh3);
    [apply lookup_last|].
  assert (h `prefix_of` h3) as Hh.
  { etrans; [done|]. etrans; [done|]. etrans; [|done]. by apply prefix_app_r. }
  assert (h3 !! length h2 = Some owid) as Howid.
  { eapply prefix_lookup_Some; [apply lookup_last|done]. }
  destruct (third_chart_value owid) as [fig_three|e]; cbn [mbind result_bind];
    [|by exists h3].
  rewrite run_bind.
  destruct (vax_per_continent_spec E (length h2) "South America" h3 owid Howid)
    as (h4 & -> & Hh4).
  destruct (vax_per_continent_value E owid "South America") as [fig_four|e];
    cbn [mbind result_bind]; [|exists h4; split; [done|by etrans]].
  rewrite run_bind.
  destruct (vax_time_series_value_spec chart_countries (length h2) h4 owid)
    as (h5 & Hfive & Hh5); [by eapply prefix_lookup_Some|].
  unfold chart_countries in Hfive at 1. rewrite Hfive.
  destruct (vax_time_series_value chart_countries owid) as [five|e];
    cbn [mbind result_bind]; [|exists h5; split; [done|by repeat (etrans; [done|])]].
  rewrite run_ret. exists h5. split; [done|]. by repeat (etrans; [done|]).
Qed.

(** * The columns of a grouped frame *)

Section labelled.
Implicit Types (df sel g : DataFrame) (k key : string).

Lemma column_mapM_keys (f : string → result Series) keys v k :
  mapM (λ key, s ← f key; mret (key, s)) keys = Ok v →
  column v k = if decide (k ∈ keys) then f k else Raise (KeyError k).
Proof.
  intros Hv%mapM_Ok. induction Hv as [|key c keys v Hc Hv IH]; [done|].
  destruct (f key) as [s|] eqn:Hs; [|done]. injection Hc as <-. cbn.
  destruct (String.eqb key k) eqn:Hk.
  - apply String.eqb_eq in Hk as ->. rewrite decide_True by left. done.
  - apply String.eqb_neq in Hk. rewrite IH.
    destruct (decide (k ∈ keys)) as [Hin|Hin].
    + rewrite decide_True by by right. done.
    + rewrite decide_False; [done|]. intros [->|?]%elem_of_cons; done.
Qed.

Lemma column_mapM_values (G : Series → result Series) sel g k :
  mapM (λ c, s ← G c.2; mret (c.1, s)) sel = Ok g →
  column g k = column sel k ≫= G.
Proof.
  intros Hg%mapM_Ok. induction Hg as [|[label s] c sel g Hc Hg IH]; [done|].
  cbn in Hc. destruct (G s) as [s'|] eqn:Hs; [|done]. injection Hc as <-. cbn.
  destruct (String.eqb label k); [done|apply IH].
Qed.

(** A column of the grouped frame is the column of the table, reduced to
    one entry per group. *)
Lemma grouped_max_column df key keepcols g keys k :
  grouped_max df key keepcols = Ok g →
  column df key = Ok keys →
  k ∈ keepcols →
  column g k = column df k ≫= group_max (objects keys) (group_labels (objects keys)).
Proof.
  unfold grouped_max. intros Hg Hkeys Hk. rewrite Hkeys in Hg. cbn in Hg.
  destruct (columns df keepcols) as [sel|] eqn:Hsel; [|done]. cbn in Hg.
  rewrite (column_mapM_values _ _ _ _ Hg).
  unfold columns in Hsel. rewrite (column_mapM_keys _ _ _ _ Hsel).
  by rewrite decide_True.
Qed.

End labelled.

Lemma mapM_returns {A B} (f : A → result B) l :
  Forall (λ x, ∃ y, f x = Ok y) l → ∃ k, mapM f l = Ok k.
Proof.
  induction 1 as [|x l [y Hy] Hl [k IH]]; [by eexists|].
  exists (y :: k). cbn. by rewrite Hy, IH.
Qed.

Lemma object_max_returns v :
  Forall (λ o, isna o = true ∨ ∃ t, o = PyStr t) v → ∃ o, object_max v = Ok o.
Proof.
  intros Hv. unfold object_max.
  assert (Forall (λ o, ∃ t, o = PyStr t) (List.filter (λ x, negb (isna x)) v)) as Hobs.
  { apply Forall_forall. intros o [Ho Hna]%list_elem_of_In%filter_In.
    apply list_elem_of_In in Ho. eapply Forall_forall in Hv as [Hv|Hv]; [|done..].
    by rewrite Hv in Hna. }
  destruct Hobs as [|x obs [t ->] Hobs]; [by eexists|].
  revert t. induction Hobs as [|y obs [u ->] Hobs IH]; intros t; [by eexists|].
  cbn. destruct (String.ltb t u); apply IH.
Qed.

Lemma group_max_returns keys labels s :
  csv_column s → ∃ s', group_max keys labels s = Ok s'.
Proof.
  destruct s as [v|v]; cbn; [by eexists|]. intros Hv.
  destruct (mapM_returns (λ l, object_max (select (same_label l <$> keys) v)) labels)
    as [r ->]; [|by eexists].
  apply Forall_forall. intros l _. by apply object_max_returns, Forall_select.
Qed.

Lemma grouped_max_returns df key keepcols keys :
  column df key = Ok keys →
  Forall (λ k, ∃ s, column df k = Ok s ∧ csv_column s) keepcols →
  ∃ g, grouped_max df key keepcols = Ok g.
Proof.
  intros Hkeys Hcols. unfold grouped_max. rewrite Hkeys. cbn.
  destruct (mapM_returns (λ k, s ← column df k; mret (k, s)) keepcols) as [sel Hsel].
  { eapply Forall_impl; [done|]. intros k (s & -> & _). by eexists. }
  unfold columns. rewrite Hsel. cbn. apply mapM_returns.
  apply mapM_Ok in Hsel. clear Hkeys.
  induction Hsel as [|k c keepcols sel Hc Hsel IH]; [done|].
  apply Forall_cons in Hcols as [(s & Hs & Htyped) Hcols].
  rewrite Hs in Hc. injection Hc as <-. constructor; [|by apply IH]. cbn.
  destruct (group_max_returns (objects keys) (group_labels (objects keys)) s Htyped)
    as [s' ->]. by eexists.
Qed.

Lemma comparable_floats (v : list float) : comparable (PyFloat <$> v) = true.
Proof.
  unfold comparable. apply orb_true_iff. left. apply forallb_forall.
  intros o (x & -> & _)%list_elem_of_In%list_elem_of_fmap. done.
Qed.

(** On numeric columns the snapshot is built without an error. *)
Lemma snapshot_returns E g pv pfv continent :
  column g "people_vaccinated" = Ok (Float64 pv) →
  column g "people_fully_vaccinated" = Ok (Float64 pfv) →
  column g "continent" = Ok continent →
  ∃ snap, snapshot E g = Ok snap.
Proof.
  intros Hpv Hpfv Hc. unfold snapshot, sorted_frame. rewrite Hpv, Hpfv. cbn.
  rewrite column_set_column_ne, Hpv by done. cbn.
  unfold nargsort. rewrite eq_False_isna, !select_filter.
  assert (comparable (reverse (List.filter (λ k, negb (isna k)) (PyFloat <$> pv))) = true)
    as ->.
  { rewrite <- select_filter, select_fmap, <- fmap_reverse. apply comparable_floats. }
  cbn. rewrite column_frame_map, column_set_column_ne, Hc by done. cbn. by eexists.
Qed.

(** The table grouped, and its snapshot, on columns typed as [read_csv]
    types them. *)
Lemma grouped_snapshot_returns E df keepcols codes pv pfv :
  column df "iso_code" = Ok codes →
  Forall (λ key, ∃ s, column df key = Ok s ∧ csv_column s) keepcols →
  column df "people_vaccinated" = Ok (Float64 pv) →
  column df "people_fully_vaccinated" = Ok (Float64 pfv) →
  "people_vaccinated" ∈ keepcols →
  "people_fully_vaccinated" ∈ keepcols →
  "continent" ∈ keepcols →
  ∃ g snap, grouped_max df "iso_code" keepcols = Ok g ∧ snapshot E g = Ok snap.
Proof.
  intros Hcodes Hcols Hpv Hpfv Hin1 Hin2 Hin3.
  destruct (grouped_max_returns df "iso_code" keepcols codes Hcodes Hcols) as [g Hg].
  pose proof (grouped_max_column _ _ _ _ _ "people_vaccinated" Hg Hcodes Hin1) as Hgpv.
  pose proof (grouped_max_column _ _ _ _ _ "people_fully_vaccinated" Hg Hcodes Hin2) as Hgpfv.
  pose proof (grouped_max_column _ _ _ _ _ "continent" Hg Hcodes Hin3) as Hgc.
  rewrite Hpv in Hgpv. rewrite Hpfv in Hgpfv. cbn in Hgpv, Hgpfv.
  eapply Forall_forall in Hcols as (c & Hc & Htyped); [|exact Hin3].
  rewrite Hc in Hgc. cbn in Hgc.
  destruct (group_max_returns (objects codes) (group_labels (objects codes)) c Htyped)
    as [c' Hc']. rewrite Hc' in Hgc.
  destruct (snapshot_returns E g _ _ _ Hgpv Hgpfv Hgc) as [snap Hsnap].
  by exists g, snap.
Qed.

Lemma set_column_labels (df : DataFrame) key s :
  (set_column df key s).*1 = if decide (key ∈ df.*1) then df.*1 else df.*1 ++ [key].
Proof.
  induction df as [|[label s'] df IH]; cbn.
  - rewrite decide_False; [done|apply not_elem_of_nil].
  - destruct (String.eqb label key) eqn:Hl; cbn.
    + apply String.eqb_eq in Hl as ->. by rewrite decide_True by left.
    + apply String.eqb_neq in Hl. rewrite IH.
      destruct (decide (key ∈ df.*1)) as [Hin|Hin].
      * by rewrite decide_True by by right.
      * rewrite decide_False; [done|]. intros [->|?]%elem_of_cons; done.
Qed.

Lemma frame_map_labels f (df : DataFrame) : (frame_map f df).*1 = df.*1.
Proof. unfold frame_map. rewrite <- list_fmap_compose. by apply list_fmap_ext; intros ? []. Qed.

Lemma snapshot_labels E g snap :
  snapshot E g = Ok snap →
  snap.*1 = if decide ("people_partly_vaccinated" ∈ g.*1) then g.*1
            else g.*1 ++ ["people_partly_vaccinated"].
Proof.
  intros (pv & pfv & partly & indexer & c & _ & _ & _ & _ & _ & ->)%snapshot_Ok.
  by rewrite !frame_map_labels, set_column_labels.
Qed.

(** X1. Called on a file whose table has the code column and every listed
    column, typed as [read_csv] types them, with the two vaccination counts
    numeric, and with a list that names each column once and the three
    columns it works on among them, [clean_data] returns a snapshot: no
    step of it raises. *)
Theorem clean_data_returns E dataset keepcols csv codes pv pfv h :
  files E dataset = Some csv →
  NoDup keepcols →
  column csv "iso_code" = Ok codes →
  Forall (λ key, ∃ s, column csv key = Ok s ∧ csv_column s) keepcols →
  column csv "people_vaccinated" = Ok (Float64 pv) →
  column csv "people_fully_vaccinated" = Ok (Float64 pfv) →
  "people_vaccinated" ∈ keepcols →
  "people_fully_vaccinated" ∈ keepcols →
  "continent" ∈ keepcols →
  ∃ r h' snap,
    clean_data E dataset keepcols h = (Ok r, h') ∧
    h' !! r = Some snap ∧
    cleaned E dataset keepcols = Ok snap.
Proof.
  intros Hcsv _ Hcodes Hcols Hpv Hpfv Hin1 Hin2 Hin3.
  destruct (grouped_snapshot_returns E csv keepcols codes pv pfv)
    as (g & snap & Hg & Hsnap); [done..|].
  assert (cleaned E dataset keepcols = Ok snap) as Hcleaned.
  { unfold cleaned. by rewrite Hcsv, Hg. }
  destruct (clean_data E dataset keepcols h) as [[r|e] h'] eqn:Hrun;
    apply clean_data_spec in Hrun as [_ Hrun].
  - destruct Hrun as (snap' & Hsnap' & Hr). exists r, h', snap.
    split_and!; [done| |done]. congruence.
  - congruence.
Qed.

(** X2. The snapshot that [clean_data] returns has the listed columns, in
    the order of the list, followed by [people_partly_vaccinated] (which
    takes the place of a listed column of that name): the code column is in
    it only when the list names it. *)
Theorem snapshot_has_the_listed_columns E dataset keepcols h r h' :
  NoDup keepcols →
  clean_data E dataset keepcols h = (Ok r, h') →
  ∃ snap,
    h' !! r = Some snap ∧
    snap.*1 = if decide ("people_partly_vaccinated" ∈ keepcols) then keepcols
              else keepcols ++ ["people_partly_vaccinated"].
Proof.
  intros _ [_ (snap & Hsnap & Hr)]%clean_data_spec. exists snap. split; [done|].
  apply cleaned_Ok in Hsnap as (csv & g & _ & Hg & Hsnap).
  apply grouped_max_labels in Hg as <-. by eapply snapshot_labels.
Qed.

(** * The rows of the snapshot *)

Section permutations.
Context {A : Type}.
Implicit Types (l : list A) (mask : list bool) (indexer : list nat).

Lemma take_positions_seq l l' :
  take_positions (seq (length l') (length l)) (l' ++ l) = l.
Proof.
  revert l'. induction l as [|x l IH]; intros l'; [done|].
  cbn [length seq]. rewrite take_positions_cons, list_lookup_middle by done.
  f_equal. specialize (IH (l' ++ [x])).
  rewrite length_app, <- (assoc_L (++)) in IH. cbn in IH.
  by rewrite Nat.add_1_r in IH.
Qed.

(** Taking every position once takes every entry once. *)
Lemma take_positions_Permutation indexer l :
  indexer ≡ₚ seq 0 (length l) → take_positions indexer l ≡ₚ l.
Proof.
  intros Hperm. trans (take_positions (seq 0 (length l)) l).
  - unfold take_positions. by rewrite Hperm.
  - pose proof (take_positions_seq l []) as Hseq. cbn in Hseq. by rewrite Hseq.
Qed.

Lemma select_Permutation mask l :
  length mask = length l → select (eq_False mask) l ++ select mask l ≡ₚ l.
Proof.
  revert l. induction mask as [|[] mask IH]; intros [|x l]; cbn; try done.
  - intros [= Hlen]. rewrite <- Permutation_middle. by rewrite (IH l Hlen).
  - intros [= Hlen]. by rewrite (IH l Hlen).
Qed.

Lemma select_sublist mask l : select mask l `sublist_of` l.
Proof.
  revert l. induction mask as [|[] mask IH]; intros [|x l]; cbn;
    try apply sublist_nil_l.
  - by apply sublist_skip.
  - by apply sublist_cons.
Qed.

(** A mask on the entries taken at some positions selects the entries at
    the positions it selects. *)
Lemma select_take_positions mask indexer l :
  Forall (λ j, j < length l) indexer →
  select mask (take_positions indexer l) = take_positions (select mask indexer) l.
Proof.
  intros Hall. revert mask. induction Hall as [|j indexer Hj Hall IH]; intros mask.
  - by destruct mask.
  - destruct (lookup_lt_is_Some_2 l j Hj) as [x Hx].
    rewrite take_positions_cons, Hx. destruct mask as [|[] mask]; cbn [select]; [done|..].
    + by rewrite take_positions_cons, Hx, IH.
    + apply IH.
Qed.

Lemma elem_of_select_take_positions (f : A → bool) indexer l j :
  Forall (λ j, j < length l) indexer →
  j ∈ select (f <$> take_positions indexer l) indexer
  ↔ j ∈ indexer ∧ ∃ x, l !! j = Some x ∧ f x = true.
Proof.
  induction 1 as [|i indexer Hi Hall IH].
  - cbn. split; [by intros ?%not_elem_of_nil|by intros [?%not_elem_of_nil _]].
  - destruct (lookup_lt_is_Some_2 l i Hi) as [x Hx].
    rewrite take_positions_cons, Hx. cbn [fmap list_fmap select].
    destruct (f x) eqn:Hfx; rewrite ?elem_of_cons, IH; split.
    + intros [->|[? ?]]; eauto.
    + intros [[->|?] ?]; eauto.
    + intros [? ?]; eauto.
    + intros [[->|?] (y & Hy & Hfy)]; [congruence|eauto].
Qed.

End permutations.

(** When [argsort] sorts, the positions [nargsort] returns are the
    positions of the keys, each once. *)
Lemma nargsort_Permutation E keys indexer :
  argsort_spec E →
  nargsort E keys false = Ok indexer → indexer ≡ₚ seq 0 (length keys).
Proof.
  intros Hspec. unfold nargsort.
  destruct (comparable _) eqn:Hcmp; [|done]. intros [= <-].
  set (mask := isna <$> keys) in *.
  assert (length mask = length (seq 0 (length keys))) as Hlen
    by (unfold mask; by rewrite length_fmap, length_seq).
  rewrite <- (select_Permutation mask (seq 0 (length keys)) Hlen) at 3.
  apply Permutation_app; [|done].
  rewrite reverse_Permutation.
  set (non_nans := reverse (select (eq_False mask) keys)) in *.
  destruct (Hspec non_nans Hcmp) as [Hperm _].
  { apply Forall_reverse. unfold mask. rewrite eq_False_isna, select_filter.
    apply Forall_forall. intros o [_ Ho]%list_elem_of_In%filter_In.
    by destruct (isna o). }
  trans (reverse (select (eq_False mask) (seq 0 (length keys))));
    [|apply reverse_Permutation].
  apply take_positions_Permutation. rewrite Hperm. unfold non_nans.
  rewrite !length_reverse.
  by rewrite (length_select_eq _ keys (seq 0 (length keys))) by by rewrite length_seq.
Qed.

(** The rows of the snapshot are the rows of the grouped frame that have
    a continent, each once. *)
Lemma snapshot_positions E g snap n :
  argsort_spec E →
  Forall (λ c, size c.2 = n) g →
  snapshot E g = Ok snap →
  ∃ continents indexer,
    column g "continent" = Ok continents ∧
    NoDup indexer ∧
    (∀ j, j ∈ indexer ↔ ∃ o, objects continents !! j = Some o ∧ isna o = false) ∧
    ∀ key, key ≠ "people_partly_vaccinated" →
      objects <$> column snap key
      = (λ s, take_positions indexer (objects s)) <$> column g key.
Proof.
  intros Hspec Hn (pv & pfv & partly & idx & c & Hpv & _ & _ & Hidx & Hc & ->)%snapshot_Ok.
  rewrite column_frame_map, column_set_column_ne in Hc by done.
  destruct (column g "continent") as [continents|] eqn:Hcont; [|done].
  injection Hc as <-.
  pose proof (nargsort_Permutation _ _ _ Hspec Hidx) as Hperm.
  apply nargsort_descending in Hidx as (_ & Hlt & _).
  assert (size pv = n) as Hpvn by by eapply (column_Forall (λ s, size s = n)).
  fold (size pv) in Hlt, Hperm. rewrite Hpvn in Hlt, Hperm.
  assert (size continents = n) as Hcn by by eapply (column_Forall (λ s, size s = n)).
  unfold series_isna. rewrite objects_take_positions, eq_False_isna.
  set (mask := (λ k, negb (isna k)) <$> take_positions idx (objects continents)).
  exists continents, (select mask idx). split_and!; [done|..].
  - apply (sublist_NoDup _ idx), select_sublist.
    rewrite Hperm. apply NoDup_seq.
  - intros j. unfold mask. rewrite elem_of_select_take_positions
      by (by fold (size continents); rewrite Hcn).
    rewrite Hperm, elem_of_seq. split.
    + intros [_ (o & Ho & Hna)]. exists o. split; [done|]. by destruct (isna o).
    + intros (o & Ho & Hna). split.
      * apply lookup_lt_Some in Ho. fold (size continents) in Ho. lia.
      * exists o. by rewrite Hna.
  - intros key Hkey. rewrite !column_frame_map, column_set_column_ne by done.
    destruct (column g key) as [s|e] eqn:Hs; [|done]. cbn. f_equal.
    rewrite objects_select, objects_take_positions.
    apply select_take_positions.
    apply (column_Forall (λ s, size s = n)) in Hs; [|done].
    fold (size s). by rewrite Hs.
Qed.

(** X3. When [argsort] sorts, the snapshot that [clean_data] returns holds
    the row of every region that has a continent, once, and no other row:
    its rows are the rows of the grouped table at positions that are
    distinct and are exactly those with a continent. *)
Theorem snapshot_holds_each_region_with_a_continent_once
    E dataset keepcols h r h' csv g :
  argsort_spec E →
  NoDup keepcols →
  clean_data E dataset keepcols h = (Ok r, h') →
  files E dataset = Some csv →
  grouped_max csv "iso_code" keepcols = Ok g →
  ∃ snap continents indexer,
    h' !! r = Some snap ∧
    column g "continent" = Ok continents ∧
    NoDup indexer ∧
    (∀ j, j ∈ indexer ↔ ∃ o, objects continents !! j = Some o ∧ isna o = false) ∧
    ∀ key, key ≠ "people_partly_vaccinated" →
      objects <$> column snap key
      = (λ s, take_positions indexer (objects s)) <$> column g key.
Proof.
  intros Hspec _ [_ (snap & Hsnap & Hr)]%clean_data_spec Hcsv Hg.
  unfold cleaned in Hsnap. rewrite Hcsv, Hg in Hsnap. cbn in Hsnap.
  destruct (grouped_max_size _ _ _ _ Hg) as [n Hn].
  destruct (snapshot_positions E g snap n Hspec Hn Hsnap)
    as (continents & indexer & ? & ? & ? & ?).
  by exists snap, continents, indexer.
Qed.

(** * The maximum of a group *)

Section float_maximum.
Local Open Scope float_scope.



End float_maximum.


(** * The groups *)

Section groups.

Lemma string_ltb_irrefl s : String.ltb s s = false.
Proof.
  unfold String.ltb. pose proof (String.compare_antisym s s) as Hs.
  by destruct (String.compare s s).
Qed.

Lemma string_ltb_trans s t u :
  String.ltb s t = true → String.ltb t u = true → String.ltb s u = true.
Proof.
  unfold String.ltb. intros Hst Htu.
  pose proof (string_compare_trans s t u) as Hle.
  destruct (String.compare s t) eqn:Hst'; try done.
  destruct (String.compare t u) eqn:Htu'; try done.
  destruct (String.compare s u) eqn:Hsu; [|done|exfalso; by apply Hle].
  apply String.compare_eq_iff in Hsu as ->.
  rewrite String.compare_antisym, Htu' in Hst'. done.
Qed.

Lemma string_ltb_trichotomy s t :
  String.ltb s t = false → String.ltb t s = false → s = t.
Proof.
  unfold String.ltb. intros Hst Hts. apply String.compare_eq_iff.
  rewrite (String.compare_antisym t s) in Hts.
  by destruct (String.compare s t).
Qed.

(** A string has the label of itself only. *)
Lemma same_label_str s o : same_label (PyStr s) o = true ↔ o = PyStr s.
Proof.
  unfold same_label. destruct o as [x|t]; cbn; [done|]. split.
  - intros [Hst Hts]%andb_true_iff. f_equal. symmetry.
    apply string_ltb_trichotomy; by apply negb_true_iff.
  - intros [= ->]. by rewrite string_ltb_irrefl.
Qed.

Lemma add_label_spec k labels :
  is_str k → Forall is_str labels →
  StronglySorted (λ a b, label_ltb a b = true) labels →
  StronglySorted (λ a b, label_ltb a b = true) (add_label k labels)
  ∧ ∀ o, o ∈ add_label k labels ↔ o = k ∨ o ∈ labels.
Proof.
  intros [s ->] Hstr Hsorted. induction Hsorted as [|l labels Hsorted IH Hl].
  { split; [repeat constructor|]. intros o. cbn. rewrite elem_of_cons. tauto. }
  apply Forall_cons in Hstr as [[t ->] Hstr].
  destruct (IH Hstr) as [IHsorted IHin]. cbn [add_label label_ltb].
  destruct (String.ltb s t) eqn:Hst; [|destruct (String.ltb t s) eqn:Hts].
  - split; [|intros o; by rewrite !elem_of_cons].
    constructor; [by constructor|]. constructor; [done|].
    apply Forall_forall. intros x Hx.
    pose proof (proj1 (Forall_forall _ _) Hstr x Hx) as [u ->].
    eapply Forall_forall in Hl; [|done]. cbn in *. by eapply string_ltb_trans.
  - split.
    + constructor; [done|]. apply Forall_forall. intros x [->|Hx]%IHin; [done|].
      by eapply Forall_forall in Hl.
    + intros o. rewrite !elem_of_cons, IHin. tauto.
  - assert (s = t) as -> by by apply string_ltb_trichotomy.
    split; [by constructor|]. intros o. rewrite !elem_of_cons. tauto.
Qed.

Lemma foldr_add_label l :
  Forall is_str l →
  StronglySorted (λ a b, label_ltb a b = true) (foldr add_label [] l)
  ∧ ∀ o, o ∈ foldr add_label [] l ↔ o ∈ l.
Proof.
  induction 1 as [|k l Hk Hl [IHsorted IHin]]; cbn; [split; [constructor|done]|].
  destruct (add_label_spec k (foldr add_label [] l)) as [Hsorted Hin]; [done| |done|].
  { apply Forall_forall. intros o Ho%IHin. by eapply Forall_forall in Hl. }
  split; [done|]. intros o. by rewrite Hin, elem_of_cons, IHin.
Qed.

Lemma group_labels_spec keys :
  Forall (λ o, isna o = true ∨ is_str o) keys →
  let labels := group_labels keys in
  Forall is_str labels ∧
  StronglySorted (λ a b, label_ltb a b = true) labels ∧
  ∀ o, o ∈ labels ↔ o ∈ keys ∧ isna o = false.
Proof.
  intros Hkeys. cbn zeta. unfold group_labels.
  assert (Forall is_str (List.filter (λ k, negb (isna k)) keys)) as Hstr.
  { apply Forall_forall. intros o [Ho Hna]%list_elem_of_In%filter_In.
    apply list_elem_of_In in Ho. eapply Forall_forall in Hkeys as [Hk|Hk]; [|done..].
    by rewrite Hk in Hna. }
  destruct (foldr_add_label _ Hstr) as [Hsorted Hin].
  assert (∀ o, o ∈ foldr add_label [] (List.filter (λ k, negb (isna k)) keys)
               ↔ o ∈ keys ∧ isna o = false) as Hin'.
  { intros o. rewrite Hin, list_elem_of_In, filter_In, <- list_elem_of_In.
    destruct (isna o); cbn; intuition congruence. }
  split_and!; [|done..].
  apply Forall_forall. intros o [Ho Hna]%Hin'.
  eapply Forall_forall in Hkeys as [Hk|Hk]; [|done..]. congruence.
Qed.

Lemma StronglySorted_NoDup {A} (R : A → A → Prop) l :
  Forall (λ x, ¬ R x x) l → StronglySorted R l → NoDup l.
Proof.
  intros Hirr Hl. induction Hl as [|x l Hl IH Hx]; [constructor|].
  apply Forall_cons in Hirr as [Hxx Hirr]. constructor; [|by apply IH].
  intros Hin. by eapply Forall_forall in Hx.
Qed.

(** The maximum of the codes of a group is the code of the group. *)
Lemma foldl_py_max_constant s l :
  Forall (λ o, o = PyStr s) l →
  foldl py_max (Ok (PyStr s)) (List.filter (λ x, negb (isna x)) l) = Ok (PyStr s).
Proof.
  induction 1 as [|y l -> Hl IH]; [done|]. cbn [List.filter isna negb foldl].
  unfold py_max at 2. cbn. by rewrite string_ltb_irrefl.
Qed.

Lemma object_max_constant s l :
  l ≠ [] → Forall (λ o, o = PyStr s) l → object_max l = Ok (PyStr s).
Proof.
  intros Hne Hl. destruct Hl as [|x l -> Hl]; [done|]. unfold object_max.
  cbn [List.filter isna negb]. by apply foldl_py_max_constant.
Qed.

Lemma object_max_same_label s keys :
  PyStr s ∈ keys →
  object_max (select (same_label (PyStr s) <$> keys) keys) = Ok (PyStr s).
Proof.
  intros Hin. rewrite select_filter. apply object_max_constant.
  - intros Hnil.
    assert (PyStr s ∈ List.filter (same_label (PyStr s)) keys) as Hs.
    { apply list_elem_of_In, filter_In. split; [by apply list_elem_of_In|].
      by apply same_label_str. }
    rewrite Hnil in Hs. by apply not_elem_of_nil in Hs.
  - apply Forall_forall. intros o [_ Ho]%list_elem_of_In%filter_In.
    by apply same_label_str.
Qed.

End groups.

Lemma grouped_max_rows df key keepcols g keys :
  grouped_max df key keepcols = Ok g →
  column df key = Ok keys →
  Forall (λ c, size c.2 = length (group_labels (objects keys))) g.
Proof.
  unfold grouped_max. intros Hg Hkeys. rewrite Hkeys in Hg. cbn in Hg.
  destruct (columns df keepcols) as [sel|]; [|done]. cbn in Hg.
  apply mapM_Ok in Hg.
  induction Hg as [|c c' sel g Hc Hg IH]; constructor; [|done].
  destruct (group_max _ _ c.2) as [s'|] eqn:Hs; [|done]. cbn in Hc.
  injection Hc as <-. by apply group_max_size in Hs.
Qed.

(** X5. The grouped table of lines 22 and 43 has one row for each distinct
    region code: the rows stand for the codes of the table that are not
    missing, each once, in increasing order; and when the code column is
    among the listed columns, its entries in the grouped table are those
    codes. *)
Theorem one_row_for_each_region_code df keepcols g codes :
  NoDup keepcols →
  grouped_max df "iso_code" keepcols = Ok g →
  column df "iso_code" = Ok (Object codes) →
  Forall (λ o, isna o = true ∨ is_str o) codes →
  let labels := group_labels codes in
  Forall (λ c, size c.2 = length labels) g ∧
  NoDup labels ∧
  StronglySorted (λ a b, label_ltb a b = true) labels ∧
  (∀ o, o ∈ labels ↔ o ∈ codes ∧ isna o = false) ∧
  ("iso_code" ∈ keepcols → column g "iso_code" = Ok (Object labels)).
Proof.
  intros _ Hg Hcodes Hstr. cbn zeta.
  destruct (group_labels_spec codes Hstr) as (Hlabels & Hsorted & Hin).
  split_and!; [|..|done|].
  - apply (grouped_max_rows _ _ _ _ _ Hg Hcodes).
  - eapply StronglySorted_NoDup; [|done].
    eapply Forall_impl; [done|]. intros o [s ->]. cbn.
    by rewrite string_ltb_irrefl.
  - done.
  - intros Hkey.
    rewrite (grouped_max_column _ _ _ _ _ "iso_code" Hg Hcodes Hkey), Hcodes.
    cbn [mbind result_bind group_max objects].
    assert (mapM (λ l, object_max (select (same_label l <$> codes) codes))
              (group_labels codes) = Ok (group_labels codes)) as ->; [|done].
    apply mapM_Ok, Forall_Forall2_diag, Forall_forall. intros o Ho.
    pose proof Ho as [Hoc _]%Hin.
    pose proof (proj1 (Forall_forall _ _) Hlabels o Ho) as [s ->].
    by apply object_max_same_label.
Qed.

(** * When the series are returned *)

Lemma column_returns (df : DataFrame) key : key ∈ df.*1 → ∃ s, column df key = Ok s.
Proof.
  intros Hin. destruct (column df key) as [s|e] eqn:Hs; [by eexists|].
  by apply column_Raise in Hs as [_ ?].
Qed.

Lemma mapM_cons_Raise {A B} (f : A → result B) x l e :
  f x = Raise e → mapM f (x :: l) = Raise e.
Proof. intros Hx. cbn. by rewrite Hx. Qed.

(** The trace of a country that has rows with a metric. *)
Lemma country_value_returns df n country location metric date iso_code :
  Forall (λ c, size c.2 = n) df →
  column df "location" = Ok location →
  column df "new_vaccinations_per_hundred" = Ok metric →
  column df "date" = Ok date →
  column df "iso_code" = Ok iso_code →
  0 < matching_rows location metric country →
  ∃ name,
    with_metric location metric country (objects iso_code) !! 0 = Some name ∧
    country_value df country
    = Ok {| scatter_x := with_metric location metric country (objects date);
            scatter_y := with_metric location metric country (objects metric);
            scatter_mode := "lines"; line_width := 1; connectgaps := true;
            scatter_name := name |}.
Proof.
  intros Hn Hl Hm Hd Hi Hrows.
  rewrite (country_value_eq _ _ _ _ _ _ Hl Hm Hd Hi).
  assert (length (with_metric location metric country (objects iso_code))
          = matching_rows location metric country) as Hlen.
  { apply length_with_metric_other.
    apply (column_Forall (λ s, size s = n)) in Hm, Hi; [congruence|done..]. }
  destruct (with_metric location metric country (objects iso_code)) as [|name names];
    [cbn in Hlen; lia|].
  by exists name.
Qed.

Lemma vax_time_series_value_returns countries df n location metric date iso_code :
  Forall (λ c, size c.2 = n) df →
  column df "location" = Ok location →
  column df "new_vaccinations_per_hundred" = Ok metric →
  column df "date" = Ok date →
  column df "iso_code" = Ok iso_code →
  Forall (λ country, 0 < matching_rows location metric country) countries →
  ∃ traces,
    mapM (country_value df) countries = Ok traces ∧
    Forall2 (λ country s,
               scatter_x s = with_metric location metric country (objects date) ∧
               scatter_y s = with_metric location metric country (objects metric) ∧
               with_metric location metric country (objects iso_code) !! 0
               = Some (scatter_name s) ∧
               scatter_mode s = "lines" ∧ connectgaps s = true)
      countries traces.
Proof.
  intros Hn Hl Hm Hd Hi Hrows.
  induction Hrows as [|country countries Hrow Hrows (traces & Htraces & Hall)];
    [by exists []|].
  destruct (country_value_returns df n country _ _ _ _ Hn Hl Hm Hd Hi Hrow)
    as (name & Hname & Hcountry).
  eexists (_ :: traces). cbn. rewrite Hcountry, Htraces. cbn.
  split; [done|]. by constructor.
Qed.

(** X6. When the table has the four columns the series are made of and
    every requested country has a row with a metric, [vax_time_series]
    returns one line per country, in the order requested: its points are
    the dates and metrics of the country's rows that have a metric, in the
    order of the table, and its name is the code of the first of them. *)
Theorem vax_time_series_returns
    countries dataset h df n location metric date iso_code :
  h !! dataset = Some df →
  Forall (λ c, size c.2 = n) df →
  column df "location" = Ok location →
  column df "new_vaccinations_per_hundred" = Ok metric →
  column df "date" = Ok date →
  column df "iso_code" = Ok iso_code →
  Forall (λ country, 0 < matching_rows location metric country) countries →
  ∃ graph layout h',
    vax_time_series countries dataset h = (Ok (graph, layout), h') ∧
    Forall2 (λ country t, ∃ s,
               t = scatter s ∧
               scatter_x s = with_metric location metric country (objects date) ∧
               scatter_y s = with_metric location metric country (objects metric) ∧
               with_metric location metric country (objects iso_code) !! 0
               = Some (scatter_name s) ∧
               scatter_mode s = "lines" ∧ connectgaps s = true)
      countries graph ∧
    title layout = "vaccination evolution" ∧ showlegend layout = true.
Proof.
  intros Hdf Hn Hl Hm Hd Hi Hrows.
  destruct (vax_time_series_value_returns countries df n _ _ _ _ Hn Hl Hm Hd Hi Hrows)
    as (traces & Htraces & Hall).
  destruct (vax_time_series_value_spec countries dataset h df Hdf) as (h' & Hrun & _).
  unfold vax_time_series_value in Hrun. rewrite Htraces in Hrun. cbn in Hrun.
  eexists _, _, h'. split; [done|]. split; [|done].
  apply Forall2_fmap_r. eapply Forall2_impl; [done|]. intros country s ?.
  by exists s.
Qed.

(** X7. [vax_time_series] needs four columns of its table: called for at
    least one country on a table that lacks [location], [iso_code], [date]
    or [new_vaccinations_per_hundred] - the empty table that is its
    default, for instance - it raises a [KeyError]. *)
Theorem vax_time_series_needs_four_columns countries dataset h df key :
  h !! dataset = Some df →
  countries ≠ [] →
  key ∈ ["location"; "iso_code"; "date"; "new_vaccinations_per_hundred"] →
  key ∉ df.*1 →
  ∃ missing h',
    vax_time_series countries dataset h = (Raise (KeyError missing), h').
Proof.
  intros Hdf Hne Hkey Hmissing.
  destruct countries as [|country countries]; [done|].
  assert (∃ missing, country_value df country = Raise (KeyError missing)
                     ∧ missing ∉ df.*1) as (missing & Hraise & Hnot).
  { unfold country_value, columns.
    destruct (column df "location") as [location|e] eqn:Hl;
      [|apply column_Raise in Hl as [-> ?]; by eexists].
    cbn. rewrite !column_frame_map.
    destruct (column df "iso_code") as [iso_code|e] eqn:Hi;
      [|apply column_Raise in Hi as [-> ?]; by eexists].
    cbn. destruct (column df "date") as [date|e] eqn:Hd;
      [|apply column_Raise in Hd as [-> ?]; by eexists].
    cbn. destruct (column df "new_vaccinations_per_hundred") as [metric|e] eqn:Hm;
      [|apply column_Raise in Hm as [-> ?]; by eexists].
    exfalso. apply column_Ok_label in Hl, Hi, Hd, Hm.
    repeat (apply elem_of_cons in Hkey as [->|Hkey]; [done|]).
    by apply not_elem_of_nil in Hkey. }
  exists missing.
  destruct (vax_time_series (country :: countries) dataset h) as [res h'] eqn:Hrun.
  exists h'. apply vax_time_series_spec in Hrun as [_ Hspec].
  specialize (Hspec df Hdf). rewrite (mapM_cons_Raise _ _ _ _ Hraise) in Hspec.
  destruct res; cbn in Hspec; congruence.
Qed.

Lemma brazil_value_returns df iso_code counts date :
  column df "iso_code" = Ok iso_code →
  column df "new_vaccinations" = Ok counts →
  column df "date" = Ok date →
  brazil_value df
  = Ok {| bar_x := with_metric iso_code counts "BRA" (objects date);
          bar_y := with_metric iso_code counts "BRA" (objects counts);
          bar_name := None |}.
Proof.
  intros Hi Hc Hd. unfold brazil_value, columns, attribute. rewrite Hi. cbn.
  rewrite !column_frame_map, Hd, Hc. cbn.
  rewrite !objects_select. unfold series_isna. by rewrite !objects_select.
Qed.

(** X8. The third chart is built whatever the rows of the table: when the
    table has the columns [iso_code], [date] and [new_vaccinations],
    [third_chart] returns one bar series, of the dates and the new
    vaccinations of the rows with code BRA that have a count - an empty
    series, and no error, when there is no such row. *)
Theorem third_chart_returns owid h df iso_code counts date :
  h !! owid = Some df →
  column df "iso_code" = Ok iso_code →
  column df "new_vaccinations" = Ok counts →
  column df "date" = Ok date →
  ∃ fig h',
    third_chart owid h = (Ok fig, h') ∧
    data fig
    = [bar {| bar_x := with_metric iso_code counts "BRA" (objects date);
              bar_y := with_metric iso_code counts "BRA" (objects counts);
              bar_name := None |}] ∧
    (matching_rows iso_code counts "BRA" = 0 →
     data fig = [bar {| bar_x := []; bar_y := []; bar_name := None |}]).
Proof.
  intros Hdf Hi Hc Hd.
  pose proof (brazil_value_returns df iso_code counts date Hi Hc Hd) as Hvalue.
  destruct (third_chart owid h) as [[fig|e] h'] eqn:Hrun;
    apply third_chart_spec in Hrun as [_ Hspec]; rewrite Hdf, Hvalue in Hspec;
    [|done].
  injection Hspec as Hdata. exists fig, h'. split_and!; [done..|].
  intros Hrows. by rewrite Hdata, !with_metric_no_rows.
Qed.

(** * What [return_figures] needs, and returns *)

Lemma mapM_Ok_elem {A B} (f : A → result B) l k x :
  mapM f l = Ok k → x ∈ l → ∃ y, f x = Ok y.
Proof.
  intros Hk%mapM_Ok Hx. induction Hk as [|a b l k Hab Hk IH];
    [by apply not_elem_of_nil in Hx|].
  apply elem_of_cons in Hx as [->|Hx]; [by eexists|by apply IH].
Qed.

Lemma mapM_Raise_elem {A B} (f : A → result B) l x e :
  x ∈ l → f x = Raise e → ∃ e', mapM f l = Raise e'.
Proof.
  intros Hx Hfx. destruct (mapM f l) as [k|e'] eqn:Hk; [|by eexists].
  destruct (mapM_Ok_elem f l k x Hk Hx) as [y Hy]. congruence.
Qed.

(** Grouping raises the [KeyError] of a column that the table lacks. *)
Lemma grouped_max_Raise (df : DataFrame) key keepcols k :
  k = key ∨ k ∈ keepcols → k ∉ df.*1 →
  ∃ missing, grouped_max df key keepcols = Raise (KeyError missing) ∧ missing ∉ df.*1.
Proof.
  intros Hk Hmissing. unfold grouped_max.
  destruct (column df key) as [keys|e] eqn:Hkeys;
    [|apply column_Raise in Hkeys as [-> ?]; by eexists].
  destruct Hk as [->|Hk]; [by apply column_Ok_label in Hkeys|]. cbn.
  destruct (columns df keepcols) as [sel|e] eqn:Hsel; cbn.
  - destruct (mapM_Ok_elem _ _ _ k Hsel Hk) as [c Hc].
    destruct (column df k) as [s|] eqn:Hs; [|done].
    by apply column_Ok_label in Hs.
  - apply mapM_Raise_inv in Hsel as (x & _ & Hx).
    destruct (column df x) as [s|e'] eqn:Hs; [done|].
    apply column_Raise in Hs as [-> ?]. injection Hx as <-. by eexists.
Qed.

(** The rate of line 174 on numeric columns. *)
Lemma owid_value_float64 E path csv numerators denominators :
  files E path = Some csv →
  column csv "new_vaccinations" = Ok (Float64 numerators) →
  column csv "population" = Ok (Float64 denominators) →
  owid_value E path
  = Ok (set_column csv "new_vaccinations_per_hundred"
          (Float64 (zip_with rate numerators denominators))).
Proof.
  intros Hcsv Hn Hd. unfold owid_value. rewrite Hcsv, Hn, Hd. cbn. do 3 f_equal.
  clear. revert denominators.
  induction numerators as [|n ns IH]; intros [|d ds]; cbn; by rewrite ?IH.
Qed.

(** A label of a list that is written out. *)
Ltac in_list := apply list_elem_of_In; cbn; tauto.

(** The columns of a snapshot of the seven columns of [cols]. *)
Lemma snapshot_cols_columns E g snap key :
  g.*1 = cols → snapshot E g = Ok snap →
  key ∈ cols ++ ["people_partly_vaccinated"] → ∃ s, column snap key = Ok s.
Proof.
  intros Hg Hsnap Hkey. apply column_returns.
  rewrite (snapshot_labels _ _ _ Hsnap), Hg. rewrite decide_False; [done|].
  unfold cols. rewrite !not_elem_of_cons. split_and!; try done. apply not_elem_of_nil.
Qed.

Lemma first_chart_value_returns snap :
  (∀ key, key ∈ cols ++ ["people_partly_vaccinated"] → ∃ s, column snap key = Ok s) →
  ∃ fig c, first_chart_value snap = Ok fig ∧ data fig = [choropleth c].
Proof.
  intros Hcols. unfold first_chart_value.
  destruct (Hcols "location") as [location ->]; [in_list|].
  destruct (Hcols "people_vaccinated_per_hundred") as [z ->]; [in_list|].
  by eexists _, _.
Qed.

Lemma second_chart_value_returns snap :
  (∀ key, key ∈ cols ++ ["people_partly_vaccinated"] → ∃ s, column snap key = Ok s) →
  ∃ fig b1 b2, second_chart_value snap = Ok fig ∧ data fig = [bar b1; bar b2].
Proof.
  intros Hcols. unfold second_chart_value, attribute. rewrite !column_frame_map.
  destruct (Hcols "location") as [location ->]; [in_list|].
  destruct (Hcols "people_partly_vaccinated") as [partly ->]; [in_list|].
  destruct (Hcols "people_fully_vaccinated") as [fully ->]; [in_list|].
  by eexists _, _, _.
Qed.

Lemma vax_per_continent_value_returns E df continent g snap :
  grouped_max df "iso_code" cols = Ok g → snapshot E g = Ok snap →
  ∃ fig c, vax_per_continent_value E df continent = Ok fig ∧ data fig = [choropleth c].
Proof.
  intros Hg Hsnap. unfold vax_per_continent_value, regrouped. rewrite Hg. cbn.
  rewrite Hsnap. cbn. pose proof (grouped_max_labels _ _ _ _ Hg) as Hlabels.
  destruct (snapshot_cols_columns E g snap "continent" Hlabels Hsnap) as [c ->];
    [in_list|].
  cbn. rewrite !column_frame_map.
  destruct (snapshot_cols_columns E g snap "location" Hlabels Hsnap) as [l ->];
    [in_list|].
  destruct (snapshot_cols_columns E g snap "people_fully_vaccinated_per_hundred"
              Hlabels Hsnap) as [z ->]; [in_list|].
  by eexists _, _.
Qed.

Lemma not_in_cols key : key ∈ cols → key ≠ "new_vaccinations_per_hundred".
Proof.
  intros Hkey ->. revert Hkey. unfold cols. rewrite !elem_of_cons.
  intros Hkey. repeat (destruct Hkey as [[=]|Hkey]). by apply not_elem_of_nil in Hkey.
Qed.

(** X9. [return_figures] returns its five figures - the world map, the two
    stacked bar series, the bars of Brazil, the map of South America and
    one line for each of the seven countries - when the file is found, its
    table has the columns the charts are made of, typed as [read_csv] types
    them with the counts and the population numeric, and each of the seven
    countries has a row with a rate. *)
Theorem return_figures_returns E h csv n codes pv pfv location date nvs pops :
  files E owid_path = Some csv →
  Forall (λ c, size c.2 = n) csv →
  column csv "iso_code" = Ok codes →
  Forall (λ key, ∃ s, column csv key = Ok s ∧ csv_column s) cols →
  column csv "people_vaccinated" = Ok (Float64 pv) →
  column csv "people_fully_vaccinated" = Ok (Float64 pfv) →
  column csv "location" = Ok location →
  column csv "date" = Ok date →
  column csv "new_vaccinations" = Ok (Float64 nvs) →
  column csv "population" = Ok (Float64 pops) →
  Forall (λ country,
            0 < matching_rows location (Float64 (zip_with rate nvs pops)) country)
    chart_countries →
  ∃ figures h',
    return_figures E h = (Ok figures, h') ∧
    h `prefix_of` h' ∧
    (λ fig, length (data fig)) <$> figures = [1; 2; 1; 1; 7].
Proof.
  intros Hcsv Hn Hcodes Hcols Hpv Hpfv Hl Hd Hnv Hpop Hrows.
  destruct (return_figures_spec E h) as (h' & -> & Hh').
  assert (∃ figures, return_figures_value E = Ok figures ∧
            (λ fig, length (data fig)) <$> figures = [1; 2; 1; 1; 7])
    as (figures & -> & Hshape); [|by exists figures, h'].
  unfold return_figures_value.
  destruct (grouped_snapshot_returns E csv cols codes pv pfv) as (g & snap & Hg & Hsnap);
    [done..|in_list|in_list|in_list|].
  assert (cleaned E owid_path cols = Ok snap) as ->.
  { unfold cleaned. by rewrite Hcsv, Hg. }
  cbn [mbind result_bind].
  pose proof (λ key, snapshot_cols_columns E g snap key (grouped_max_labels _ _ _ _ Hg) Hsnap)
    as Hsnapcols.
  destruct (first_chart_value_returns snap Hsnapcols) as (fig_one & c1 & -> & Hone).
  destruct (second_chart_value_returns snap Hsnapcols) as (fig_two & b1 & b2 & -> & Htwo).
  cbn [mbind result_bind].
  rewrite (owid_value_float64 E owid_path csv nvs pops Hcsv Hnv Hpop).
  cbn [mbind result_bind].
  set (metric := Float64 (zip_with rate nvs pops)) in *.
  set (owid := set_column csv "new_vaccinations_per_hundred" metric).
  assert (∀ key, key ≠ "new_vaccinations_per_hundred" → column owid key = column csv key)
    as Hsame by (intros key Hkey; by apply column_set_column_ne).
  unfold third_chart_value.
  rewrite (brazil_value_returns owid codes (Float64 nvs) date)
    by (rewrite Hsame; done).
  cbn [mbind result_bind].
  destruct (grouped_snapshot_returns E owid cols codes pv pfv)
    as (g' & snap' & Hg' & Hsnap'); [by rewrite Hsame| |by rewrite Hsame..
                                     |in_list|in_list|in_list|].
  { apply Forall_forall. intros key Hkey. rewrite Hsame by by apply not_in_cols.
    by eapply Forall_forall in Hcols. }
  destruct (vax_per_continent_value_returns E owid "South America" g' snap' Hg' Hsnap')
    as (fig_four & c4 & -> & Hfour).
  cbn [mbind result_bind]. unfold vax_time_series_value.
  destruct (vax_time_series_value_returns chart_countries owid n location metric
              date codes) as (traces & -> & Htraces); try done.
  - apply (Forall_set_column (λ s, size s = n)); [done|].
    apply (column_Forall (λ s, size s = n)) in Hnv, Hpop; [|done..].
    unfold metric, size in *. cbn in *.
    rewrite length_fmap in Hnv, Hpop. rewrite length_fmap, length_zip_with. lia.
  - by rewrite Hsame.
  - apply column_set_column_eq.
  - by rewrite Hsame.
  - by rewrite Hsame.
  - cbn [mbind result_bind]. eexists. split; [done|]. cbn.
    rewrite Hone, Htwo, Hfour, length_fmap.
    by rewrite <- (Forall2_length _ _ _ Htraces).
Qed.

(** X10. [return_figures] returns no figure at all when one of its seven
    countries has no row with a rate in the file: the error of the fifth
    chart is not caught, and the four charts built before it are lost. *)
Theorem return_figures_needs_a_rate_for_each_country
    E h csv location nvs pops country :
  files E owid_path = Some csv →
  column csv "location" = Ok location →
  column csv "new_vaccinations" = Ok (Float64 nvs) →
  column csv "population" = Ok (Float64 pops) →
  country ∈ chart_countries →
  matching_rows location (Float64 (zip_with rate nvs pops)) country = 0 →
  ∃ e h', return_figures E h = (Raise e, h').
Proof.
  intros Hcsv Hl Hnv Hpop Hcountry Hrows.
  destruct (return_figures_spec E h) as (h' & -> & _).
  assert (∃ e, return_figures_value E = Raise e) as [e ->]; [|by exists e, h'].
  unfold return_figures_value.
  destruct (cleaned E owid_path cols) as [snap|]; cbn [mbind result_bind]; [|by eexists].
  destruct (first_chart_value snap); cbn [mbind result_bind]; [|by eexists].
  destruct (second_chart_value snap); cbn [mbind result_bind]; [|by eexists].
  rewrite (owid_value_float64 E owid_path csv nvs pops Hcsv Hnv Hpop).
  cbn [mbind result_bind].
  set (metric := Float64 (zip_with rate nvs pops)) in *.
  set (owid := set_column csv "new_vaccinations_per_hundred" metric).
  destruct (third_chart_value owid); cbn [mbind result_bind]; [|by eexists].
  destruct (vax_per_continent_value E owid "South America"); cbn [mbind result_bind];
    [|by eexists].
  assert (∃ e, country_value owid country = Raise e) as [e Hraise].
  { destruct (country_value owid country) as [s|e] eqn:Hs; [|by eexists].
    pose proof Hs as (l & m & d & i & Hl' & Hm' & Hd' & Hi')%country_value_columns.
    rewrite (country_value_eq _ _ _ _ _ _ Hl' Hm' Hd' Hi') in Hs.
    unfold owid in Hl', Hm'.
    rewrite column_set_column_ne, Hl in Hl' by done. injection Hl' as <-.
    rewrite column_set_column_eq in Hm'. injection Hm' as <-.
    by rewrite with_metric_no_rows in Hs. }
  unfold vax_time_series_value.
  destruct (mapM_Raise_elem (country_value owid) chart_countries country e Hcountry Hraise)
    as [e' ->].
  by eexists.
Qed.

(** X11. When the file is not found, [clean_data] and [return_figures] raise
    [FileNotFoundError] with its path at once: no frame is built. *)
Theorem missing_file_raises_FileNotFoundError E :
  (∀ dataset keepcols h,
     files E dataset = None →
     clean_data E dataset keepcols h = (Raise (FileNotFoundError dataset), h)) ∧
  (∀ h,
     files E owid_path = None →
     return_figures E h = (Raise (FileNotFoundError owid_path), h)).
Proof.
  assert (∀ dataset keepcols h,
            files E dataset = None →
            clean_data E dataset keepcols h = (Raise (FileNotFoundError dataset), h))
    as Hclean.
  { intros dataset keepcols h Hfile. unfold clean_data, read_csv.
    by rewrite run_bind, Hfile. }
  split; [done|]. intros h Hfile. unfold return_figures. fold owid_path.
  by rewrite run_bind, Hclean.
Qed.

(** X12. [clean_data], the reading of lines 173-174 and [return_figures]
    assign columns in place ([world_vax[...] = ...], [owid[...] = ...]),
    but only in frames they have built themselves: whether they return or
    raise, every frame that was in the heap when they were called is in it
    afterwards, unchanged. *)
Theorem only_new_frames_are_assigned_to E dataset keepcols h :
  h `prefix_of` (clean_data E dataset keepcols h).2 ∧
  h `prefix_of` (read_owid E dataset h).2 ∧
  h `prefix_of` (return_figures E h).2.
Proof.
  split_and!.
  - destruct (clean_data E dataset keepcols h) as [res h'] eqn:Hrun.
    by apply clean_data_spec in Hrun as [? _].
  - rewrite read_owid_spec. destruct (owid_value E dataset); cbn.
    + by apply prefix_app_r.
    + destruct (files E dataset); [by apply prefix_app_r|done].
  - by destruct (return_figures_spec E h) as (h' & -> & ?).
Qed.

(** X13. [vax_per_continent] needs the seven columns of its list [cols]:
    called on a table that lacks one of them, it raises a [KeyError] when
    it groups the table (line 43). *)
Theorem vax_per_continent_needs_seven_columns E data continent h df key :
  h !! data = Some df →
  key ∈ cols →
  key ∉ df.*1 →
  ∃ missing h',
    vax_per_continent E data continent h = (Raise (KeyError missing), h').
Proof.
  intros Hdf Hkey Hmissing.
  destruct (vax_per_continent_spec E data continent h df Hdf) as (h' & -> & _).
  destruct (grouped_max_Raise df "iso_code" cols key) as (missing & Hg & Hnot);
    [by right|done|].
  exists missing, h'.
  unfold vax_per_continent_value, regrouped. by rewrite Hg.
Qed.

(** X14. The map that [vax_per_continent] returns shows the regions of the
    continent: its locations, and its hover texts, are the locations of
    the rows of the snapshot whose continent is the given name, its colours
    their [people_fully_vaccinated_per_hundred], both in the order of the
    snapshot; its title ends with the name, and the scope of the map is the
    name in lower case. *)
Theorem continent_map_shows_the_regions_of_the_continent
    E table continent h df fig h' :
  h !! table = Some df →
  vax_per_continent E table continent h = (Ok fig, h') →
  ∃ snap continents location fully c,
    regrouped E df = Ok snap ∧
    column snap "continent" = Ok continents ∧
    column snap "location" = Ok location ∧
    column snap "people_fully_vaccinated_per_hundred" = Ok fully ∧
    data fig = [choropleth c] ∧
    objects (locations c)
    = (filter (λ p, p.1 = PyStr continent)
         (zip (objects continents) (objects location))).*2 ∧
    objects (z c)
    = (filter (λ p, p.1 = PyStr continent)
         (zip (objects continents) (objects fully))).*2 ∧
    text c = locations c ∧
    title (layout fig) = "People fully vaccinated per hundred in " +:+ continent ∧
    scope <$> geos fig = Some (lower continent).
Proof.
  intros Hdf Hrun.
  destruct (vax_per_continent_spec E table continent h df Hdf) as (h1 & Hspec & _).
  rewrite Hrun in Hspec. injection Hspec as Hfig _.
  unfold vax_per_continent_value in Hfig.
  destruct (regrouped E df) as [snap|] eqn:Hsnap; [|done]. cbn in Hfig.
  destruct (column snap "continent") as [continents|] eqn:Hc; [|done]. cbn in Hfig.
  rewrite !column_frame_map in Hfig.
  destruct (column snap "location") as [location|] eqn:Hl; [|done]. cbn in Hfig.
  destruct (column snap "people_fully_vaccinated_per_hundred") as [fully|] eqn:Hz;
    [|done].
  cbn in Hfig. injection Hfig as ->.
  eexists snap, continents, location, fully, _. split_and!; try done; cbn.
  all: rewrite objects_select; unfold series_eq.
  all: apply (@select_filter_zip _ (λ o, o = PyStr continent)
                (λ o, is_str_dec o continent)), py_eq_str_spec.
Qed.

(** * The table with the rate, and the snapshot rebuilt from it *)

Lemma mapM_ext_in {A B} (f f' : A → result B) l :
  Forall (λ x, f x = f' x) l → mapM f l = mapM f' l.
Proof. induction 1 as [|x l Hx Hl IH]; [done|]. cbn. by rewrite Hx, IH. Qed.

(** Grouping reads the key column and the listed columns only. *)
Lemma grouped_max_ext (df df' : DataFrame) key keepcols :
  Forall (λ k, column df k = column df' k) (key :: keepcols) →
  grouped_max df key keepcols = grouped_max df' key keepcols.
Proof.
  intros [Hkey Hcols]%Forall_cons. unfold grouped_max, columns. rewrite Hkey.
  rewrite (mapM_ext_in (λ k, s ← column df k; mret (k, s))
             (λ k, s ← column df' k; mret (k, s)) keepcols); [done|].
  eapply Forall_impl; [done|]. by intros k ->.
Qed.

Lemma owid_value_Ok E path owid :
  owid_value E path = Ok owid →
  ∃ csv rate_column,
    files E path = Some csv ∧
    owid = set_column csv "new_vaccinations_per_hundred" rate_column.
Proof.
  unfold owid_value. destruct (files E path) as [csv|]; [|done].
  destruct (column csv "new_vaccinations") as [nv|]; [|done]. cbn.
  destruct (column csv "population") as [pop|]; [|done]. cbn.
  destruct (series_div nv pop) as [ratio|]; [|done]. cbn.
  intros [= <-]. by eexists _, _.
Qed.

Lemma regrouped_owid_value E owid :
  owid_value E owid_path = Ok owid → regrouped E owid = cleaned E owid_path cols.
Proof.
  intros (csv & rate_column & Hcsv & ->)%owid_value_Ok.
  unfold regrouped, cleaned. rewrite Hcsv.
  rewrite (grouped_max_ext _ csv); [done|].
  apply Forall_forall. intros key Hkey. apply column_set_column_ne.
  intros <-. apply elem_of_cons in Hkey as [[=]|Hkey]. by apply not_in_cols in Hkey.
Qed.

(** X15. The assignment of line 174 leaves the columns of the file as they
    are: in the table that [read_owid] returns, every column but
    [new_vaccinations_per_hundred] is the column of the file, and the rate
    is a column of it - in the place of the file's column of that name when
    it has one, after the last column otherwise. *)
Theorem the_rate_is_added_to_the_columns_of_the_file E path h owid h' :
  read_owid E path h = (Ok owid, h') →
  ∃ csv df rate_column,
    files E path = Some csv ∧
    h' !! owid = Some df ∧
    column df "new_vaccinations_per_hundred" = Ok rate_column ∧
    (∀ key, key ≠ "new_vaccinations_per_hundred" → column df key = column csv key) ∧
    df.*1 = if decide ("new_vaccinations_per_hundred" ∈ csv.*1) then csv.*1
            else csv.*1 ++ ["new_vaccinations_per_hundred"].
Proof.
  rewrite read_owid_spec.
  destruct (owid_value E path) as [df|] eqn:Hdf; [|done]. intros [= <- <-].
  apply owid_value_Ok in Hdf as (csv & rate_column & Hcsv & ->).
  eexists csv, _, rate_column. split_and!; [done|apply lookup_last|..].
  - apply column_set_column_eq.
  - intros key Hkey. by apply column_set_column_ne.
  - apply set_column_labels.
Qed.

(** X16. In [return_figures] the snapshot is computed twice from the same
    rows: the snapshot that [vax_per_continent] rebuilds from the table
    with the rate (line 195) is the snapshot that [clean_data] built from
    the file (line 129), row for row. *)
Theorem vax_per_continent_rebuilds_the_snapshot_of_clean_data
    E h1 world_vax h1' h2 owid h2' continent frames h3 :
  clean_data E owid_path cols h1 = (Ok world_vax, h1') →
  read_owid E owid_path h2 = (Ok owid, h2') →
  vax_per_continent_frames E owid continent h2' = (Ok frames, h3) →
  ∃ snap, h1' !! world_vax = Some snap ∧ h3 !! frames.1 = Some snap.
Proof.
  intros [_ (snap & Hsnap & Hworld)]%clean_data_spec Howid [_ Hframes]%vax_per_continent_frames_spec.
  rewrite read_owid_spec in Howid.
  destruct (owid_value E owid_path) as [df|] eqn:Hdf; [|done].
  injection Howid as <- <-. rewrite lookup_last in Hframes.
  destruct Hframes as (snap' & continents & Hsnap' & Hlookup & _).
  rewrite (regrouped_owid_value E df Hdf) in Hsnap'.
  exists snap. split; [done|]. congruence.
Qed.

(** * Texts of a region, and a continent without regions *)



Lemma Forall_frame_map (P : Series → Prop) f (df : DataFrame) :
  (∀ s, P (series_map f s)) → Forall (λ c, P c.2) (frame_map f df).
Proof.
  intros HP. unfold frame_map. apply Forall_fmap, Forall_forall.
  intros [label s] _. apply HP.
Qed.

(** X18. On a table typed as [read_csv] types it, the frames of
    [vax_per_continent] (lines 42-48) are built for any name of continent;
    when no region of the snapshot has that continent, the selection has
    the columns of the snapshot and no row. *)
Theorem unknown_continent_selects_no_row E table continent h df codes pv pfv :
  h !! table = Some df →
  column df "iso_code" = Ok codes →
  Forall (λ key, ∃ s, column df key = Ok s ∧ csv_column s) cols →
  column df "people_vaccinated" = Ok (Float64 pv) →
  column df "people_fully_vaccinated" = Ok (Float64 pfv) →
  ∃ frames h' world_vax cont_vax continents,
    vax_per_continent_frames E table continent h = (Ok frames, h') ∧
    h' !! frames.1 = Some world_vax ∧
    h' !! frames.2 = Some cont_vax ∧
    column world_vax "continent" = Ok continents ∧
    cont_vax.*1 = world_vax.*1 ∧
    (PyStr continent ∉ objects continents → Forall (λ c, size c.2 = 0) cont_vax).
Proof.
  intros Hdf Hcodes Hcols Hpv Hpfv.
  destruct (grouped_snapshot_returns E df cols codes pv pfv) as (g & snap & Hg & Hsnap);
    [done..|in_list|in_list|in_list|].
  assert (regrouped E df = Ok snap) as Hre by (unfold regrouped; by rewrite Hg).
  destruct (vax_per_continent_frames E table continent h) as [[frames|e] h'] eqn:Hrun;
    apply vax_per_continent_frames_spec in Hrun as [_ Hspec]; rewrite Hdf in Hspec;
    [|congruence].
  destruct Hspec as (snap' & continents & Hsnap' & Hworld & Hcont & Hsel).
  eexists frames, h', snap', _, continents. split_and!; [done..| |].
  - apply frame_map_labels.
  - intros Hnone. apply (Forall_frame_map (λ s, size s = 0)). intros s.
    unfold size. rewrite objects_select, select_all_false; [done|].
    unfold series_eq. apply Forall_fmap, Forall_forall. intros o Ho. cbn.
    destruct (py_eq_str continent o) eqn:Heq; [|done].
    apply py_eq_str_spec in Heq as ->. done.
Qed.

(** * The sample table *)

Example read_owid_sample :
  read_owid stable_env owid_path [] = (Ok 0, [sample_with_rate]).
Proof. by vm_compute. Qed.

Lemma partly_vaccinated_is_difference_sample :
  ∃ snap,
    (clean_data stable_env owid_path cols []).2 !! 4 = Some snap ∧
    derived_difference snap.
Proof.
  apply (proj1 (partly_vaccinated_is_difference stable_env) owid_path cols [] 4).
  by vm_compute.
Defined.

(** The specification's example: of the regions A (100 vaccinated, 40
    fully, continent X) and B (200, 150, no continent), the snapshot keeps
    A alone, with 60 partly vaccinated. *)
Example snapshot_of_two_regions :
  let keepcols := ["iso_code"; "continent"; "people_vaccinated";
                   "people_fully_vaccinated"] in
  let run := clean_data stable_env "two_regions.csv" keepcols [] in
  run.1 = Ok 4 ∧
  run.2 !! 4
  = Some [("iso_code", Object [PyStr "A"]);
          ("continent", Object [PyStr "X"]);
          ("people_vaccinated", Float64 [100%float]);
          ("people_fully_vaccinated", Float64 [40%float]);
          ("people_partly_vaccinated", Float64 [60%float])].
Proof. by vm_compute. Qed.

Lemma snapshot_has_no_missing_continent_two_regions :
  ∃ snap,
    (clean_data stable_env "two_regions.csv"
       ["iso_code"; "continent"; "people_vaccinated"; "people_fully_vaccinated"]
       []).2 !! 4 = Some snap ∧
    ∃ continent, column snap "continent" = Ok continent ∧
      Forall (λ o, isna o = false) (objects continent).
Proof.
  apply (proj1 (snapshot_has_no_missing_continent stable_env) "two_regions.csv"
           ["iso_code"; "continent"; "people_vaccinated"; "people_fully_vaccinated"]
           [] 4).
  by vm_compute.
Defined.

Lemma snapshot_sorted_by_people_vaccinated_sample :
  ∃ snap,
    (clean_data stable_env owid_path cols []).2 !! 4 = Some snap ∧
    ∃ pv, column snap "people_vaccinated" = Ok pv ∧
      StronglySorted (λ a b, key_ge a b = true) (objects pv).
Proof.
  apply (proj1 (snapshot_sorted_by_people_vaccinated stable_env
                  (stable_argsort_spec sample_files)) owid_path cols [] 4).
  by vm_compute.
Defined.

(** C4 as stated fails twice on the sample table.  With a sorting kernel
    that meets numpy's contract, Argentina and Brazil, which have the same
    [people_vaccinated], come out of the grouping in the order ARG, BRA and
    stand in the snapshot in the order BRA, ARG.  And the snapshot ends
    with a row whose [people_vaccinated] is missing, which is not less
    than or equal to the key before it. *)
Lemma equal_keys_may_swap_and_missing_keys_go_last :
  argsort_spec unstable_env ∧
  ∃ grouped snap r h',
    grouped_max sample "iso_code" cols = Ok grouped ∧
    clean_data unstable_env owid_path cols [] = (Ok r, h') ∧
    h' !! r = Some snap ∧
    entry grouped "iso_code" 0 = Some (PyStr "ARG") ∧
    entry grouped "iso_code" 2 = Some (PyStr "BRA") ∧
    entry grouped "people_vaccinated" 0 = Some (PyFloat 100) ∧
    entry grouped "people_vaccinated" 2 = Some (PyFloat 100) ∧
    entry snap "iso_code" 5 = Some (PyStr "BRA") ∧
    entry snap "iso_code" 6 = Some (PyStr "ARG") ∧
    entry snap "people_vaccinated" 10 = Some (PyFloat 40) ∧
    entry snap "people_vaccinated" 11 = Some (PyFloat nan) ∧
    py_le (PyFloat nan) (PyFloat 40) = false.
Proof.
  split; [apply unstable_argsort_spec|].
  eexists _, _, _, _. split_and!; by vm_compute.
Qed.

Lemma continent_filter_sample :
  ∃ world_vax cont_vax continents,
    (vax_per_continent_frames stable_env 0 "South America" [sample]).2 !! 4
      = Some world_vax ∧
    (vax_per_continent_frames stable_env 0 "South America" [sample]).2 !! 5
      = Some cont_vax ∧
    column world_vax "continent" = Ok continents ∧
    (∀ key,
       objects <$> column cont_vax key
       = (λ s, (filter (λ p, p.1 = PyStr "South America")
                  (zip (objects continents) (objects s))).*2)
         <$> column world_vax key) ∧
    (∀ other, ∃ frames2 h2,
       vax_per_continent_frames stable_env 0 other [sample] = (Ok frames2, h2)).
Proof.
  apply (continent_filter_selects_matching_rows stable_env 0 "South America"
           [sample] (4, 5)).
  by vm_compute.
Defined.

(** The filter compares the name character for character: in lower case
    it matches no row of the sample, and the selection is empty. *)
Example continent_filter_is_case_sensitive :
  let run name := vax_per_continent_frames stable_env 0 name [sample] in
  (λ cont_vax, column cont_vax "iso_code") <$> (run "South America").2 !! 5
    = Some (Ok (Object (PyStr <$> ["ARG"; "BRA"; "CHL"; "PER"; "COL"]))) ∧
  (λ cont_vax, column cont_vax "iso_code") <$> (run "south america").2 !! 5
    = Some (Ok (Object [])).
Proof. by vm_compute. Qed.

Lemma sample_with_rate_rows : Forall (λ c, size c.2 = 16) sample_with_rate.
Proof. vm_compute. repeat (constructor; [reflexivity|]). constructor. Qed.

Lemma series_points_have_a_metric_sample :
  ∃ graph,
    length graph = 2 ∧
    Forall2 (λ country t, ∃ s location metric,
               t = scatter s ∧
               column sample_with_rate "location" = Ok location ∧
               column sample_with_rate "new_vaccinations_per_hundred" = Ok metric ∧
               Forall (λ o, isna o = false) (scatter_y s) ∧
               length (scatter_y s) = matching_rows location metric country ∧
               length (scatter_x s) = length (scatter_y s))
      ["India"; "Brazil"] graph.
Proof.
  eexists. split; [|
    eapply (proj1 series_points_have_a_metric ["India"; "Brazil"] 0
              [sample_with_rate] sample_with_rate 16 _ _ _ eq_refl
              sample_with_rate_rows); by vm_compute ].
  reflexivity.
Defined.

(** The input on which C2 fails: a country that the table does not have. *)
Lemma absent_country_raises_IndexError_sample :
  ∃ h', vax_time_series ["India"; "Atlantis"] 0 [sample_with_rate]
        = (Raise IndexError, h').
Proof.
  eapply (absent_country_raises_IndexError ["India"; "Atlantis"] 0
            [sample_with_rate] sample_with_rate _ _ _ _ "Atlantis");
    try (by vm_compute).
  apply elem_of_cons. right. apply elem_of_cons. by left.
Defined.

(** The same happens for a region that the table has, but with no rate:
    Antarctica. *)
Example region_without_rate_raises_IndexError :
  (vax_time_series ["Antarctica"] 0 [sample_with_rate]).1 = Raise IndexError.
Proof. by vm_compute. Qed.

(** The sibling series of Brazil in the third chart takes no first entry:
    for a table without a row for BRA it is empty, and nothing is raised. *)
Example third_chart_of_two_regions :
  data <$> (third_chart 0 [("date", Object [PyStr "2021-03-01"]) ::
                           ("new_vaccinations", Float64 [5%float]) ::
                           take 1 two_regions]).1
  = Ok [bar {| bar_x := []; bar_y := []; bar_name := None |}].
Proof. by vm_compute. Qed.

Lemma passed_tables_are_not_mutated_sample :
  [sample_with_rate] `prefix_of`
    (vax_per_continent stable_env 0 "South America" [sample_with_rate]).2 ∧
  [sample_with_rate] `prefix_of`
    (vax_time_series ["India"; "Atlantis"] 0 [sample_with_rate]).2 ∧
  (vax_per_continent stable_env 0 "South America" [sample_with_rate]).2 !! 0
    = Some sample_with_rate ∧
  (vax_time_series ["India"; "Atlantis"] 0 [sample_with_rate]).2 !! 0
    = Some sample_with_rate.
Proof.
  destruct (passed_tables_are_not_mutated stable_env 0 "South America"
              ["India"; "Atlantis"] [sample_with_rate]) as (Hmap & Hseries & Hdata).
  destruct (Hdata sample_with_rate eq_refl) as [? ?]. split_and!; assumption.
Defined.

Lemma clean_data_needs_three_columns_default :
  ∃ e h', clean_data stable_env owid_path [] [] = (Raise e, h').
Proof.
  destruct (clean_data_needs_three_columns stable_env owid_path [] [])
    as (e & h' & Hrun & _); [|by exists e, h'].
  left. apply not_elem_of_nil.
Defined.

(** With the default, empty list of columns the error is the [KeyError]
    of line 24. *)
Example clean_data_default_columns :
  (clean_data stable_env owid_path [] []).1 = Raise (KeyError "people_vaccinated").
Proof. by vm_compute. Qed.

Lemma top_ten_is_a_prefix_of_the_snapshot_sample :
  ∃ fig h' location partly fully,
    second_chart 0 [sample_snapshot] = (Ok fig, h') ∧
    size location = 12 ∧
    data fig
    = [bar {| bar_x := take 10 (objects location); bar_y := take 10 (objects partly);
              bar_name := Some "partly" |};
       bar {| bar_x := take 10 (objects location); bar_y := take 10 (objects fully);
              bar_name := Some "fully" |}].
Proof.
  edestruct (top_ten_is_a_prefix_of_the_snapshot 0 [sample_snapshot] sample_snapshot)
    as (fig & h' & Hrun & _ & Hdata & _);
    [reflexivity|vm_compute; reflexivity..|].
  eexists fig, h', _, _, _. split; [exact Hrun|]. split; [|exact Hdata].
  reflexivity.
Defined.

Lemma derived_rate_sample :
  ∃ h', read_owid stable_env owid_path [] = (Ok 0, h') ∧
        h' !! 0 = Some sample_with_rate.
Proof.
  destruct (derived_rate stable_env owid_path [] sample
              [50; 300; 7; 3; nan; 40; 30; 6; 9; 0; 700; nan; 5; 5; nan; 0]%float
              [200; 200; 25; 12; 200; 200; 120; 80; 80; 45; 7800; 0; nan; 0; 32;
               0]%float eq_refl eq_refl eq_refl)
    as [(h' & Hrun & Hh') _].
  exists h'. split; [exact Hrun|]. cbn [length] in Hh'. rewrite Hh'. by vm_compute.
Defined.

(** C3 as stated fails on the sample table: Chile's row has 5 new
    vaccinations and a population of 0, and its rate is infinite, which is
    not a missing value.  And the rate is not [100 * numerator /
    denominator] to the last bit: for 7 and 25 that is 28, and the rate
    computed is 28.000000000000004. *)
Lemma zero_population_gives_an_infinite_rate :
  read_owid stable_env owid_path [] = (Ok 0, [sample_with_rate]) ∧
  entry sample_with_rate "new_vaccinations" 13 = Some (PyFloat 5) ∧
  entry sample_with_rate "population" 13 = Some (PyFloat 0) ∧
  entry sample_with_rate "new_vaccinations_per_hundred" 13 = Some (PyFloat infinity) ∧
  isna (PyFloat infinity) = false ∧
  entry sample_with_rate "new_vaccinations" 2 = Some (PyFloat 7) ∧
  entry sample_with_rate "population" 2 = Some (PyFloat 25) ∧
  entry sample_with_rate "new_vaccinations_per_hundred" 2
    = Some (PyFloat 0x1.c000000000001p+4) ∧
  PrimFloat.div (PrimFloat.mul 100 7) 25 = 28%float.
Proof. split_and!; by vm_compute. Qed.

(** * The further properties, on the sample table *)

(** A column of strings and missing entries, written out. *)
Ltac typed_column :=
  cbn; repeat (constructor; [first [left; reflexivity | right; by eexists]|]);
  constructor.

(** A decidable property of written-out data, by evaluation. *)
Ltac decided :=
  match goal with |- ?P => apply (@bool_decide_unpack P _) end; vm_compute; exact I.

Ltac typed_columns :=
  repeat (constructor; [eexists; split; [reflexivity|try exact I; typed_column]|]);
  constructor.

Lemma clean_data_returns_two_regions :
  ∃ r h' snap,
    clean_data stable_env "two_regions.csv"
      ["iso_code"; "continent"; "people_vaccinated"; "people_fully_vaccinated"] []
    = (Ok r, h') ∧
    h' !! r = Some snap ∧
    cleaned stable_env "two_regions.csv"
      ["iso_code"; "continent"; "people_vaccinated"; "people_fully_vaccinated"]
    = Ok snap.
Proof.
  apply (clean_data_returns stable_env "two_regions.csv" _ two_regions
           (Object [PyStr "A"; PyStr "B"]) [100; 200]%float [40; 150]%float []).
  - reflexivity.
  - decided.
  - reflexivity.
  - typed_columns.
  - reflexivity.
  - reflexivity.
  - in_list.
  - in_list.
  - in_list.
Defined.

Lemma snapshot_has_the_listed_columns_sample :
  ∃ snap,
    (clean_data stable_env owid_path cols []).2 !! 4 = Some snap ∧
    snap.*1 = cols ++ ["people_partly_vaccinated"].
Proof.
  apply (snapshot_has_the_listed_columns stable_env owid_path cols [] 4).
  - decided.
  - by vm_compute.
Defined.

Lemma snapshot_holds_each_region_with_a_continent_once_sample :
  ∃ g,
    grouped_max sample "iso_code" cols = Ok g ∧
    ∃ snap continents indexer,
      (clean_data stable_env owid_path cols []).2 !! 4 = Some snap ∧
      column g "continent" = Ok continents ∧
      NoDup indexer ∧
      (∀ j, j ∈ indexer ↔ ∃ o, objects continents !! j = Some o ∧ isna o = false) ∧
      ∀ key, key ≠ "people_partly_vaccinated" →
        objects <$> column snap key
        = (λ s, take_positions indexer (objects s)) <$> column g key.
Proof.
  eexists. split; [by vm_compute|].
  apply (snapshot_holds_each_region_with_a_continent_once
           stable_env owid_path cols [] 4 _ sample _
           (stable_argsort_spec sample_files));
    [decided|by vm_compute|reflexivity|by vm_compute].
Defined.


Lemma one_row_for_each_region_code_sample :
  ∃ g codes,
    grouped_max sample "iso_code" cols = Ok g ∧
    column sample "iso_code" = Ok (Object codes) ∧
    let labels := group_labels codes in
    Forall (λ c, size c.2 = length labels) g ∧
    NoDup labels ∧
    StronglySorted (λ a b, label_ltb a b = true) labels ∧
    (∀ o, o ∈ labels ↔ o ∈ codes ∧ isna o = false) ∧
    ("iso_code" ∈ cols → column g "iso_code" = Ok (Object labels)).
Proof.
  eexists _, _. split_and!; [by vm_compute|reflexivity|].
  apply (one_row_for_each_region_code sample cols);
    [decided|by vm_compute|reflexivity|typed_column].
Defined.

Lemma vax_time_series_returns_sample :
  ∃ location metric date iso_code,
    column sample_with_rate "location" = Ok location ∧
    column sample_with_rate "new_vaccinations_per_hundred" = Ok metric ∧
    column sample_with_rate "date" = Ok date ∧
    column sample_with_rate "iso_code" = Ok iso_code ∧
    ∃ graph layout h',
      vax_time_series ["India"; "Brazil"] 0 [sample_with_rate]
      = (Ok (graph, layout), h') ∧
      Forall2 (λ country t, ∃ s,
                 t = scatter s ∧
                 scatter_x s = with_metric location metric country (objects date) ∧
                 scatter_y s = with_metric location metric country (objects metric) ∧
                 with_metric location metric country (objects iso_code) !! 0
                 = Some (scatter_name s) ∧
                 scatter_mode s = "lines" ∧ connectgaps s = true)
        ["India"; "Brazil"] graph ∧
      title layout = "vaccination evolution" ∧ showlegend layout = true.
Proof.
  eexists _, _, _, _. split_and!; [by vm_compute..|].
  apply (vax_time_series_returns ["India"; "Brazil"] 0 [sample_with_rate]
           sample_with_rate 16);
    [reflexivity|exact sample_with_rate_rows|by vm_compute..|].
  repeat (constructor; [vm_compute; lia|]). constructor.
Defined.

Lemma vax_time_series_needs_four_columns_default :
  ∃ missing h', vax_time_series ["India"] 0 [[]] = (Raise (KeyError missing), h').
Proof.
  apply (vax_time_series_needs_four_columns ["India"] 0 [[]] [] "location");
    [reflexivity|done|in_list|apply not_elem_of_nil].
Defined.

Lemma third_chart_returns_without_rows :
  ∃ fig h',
    third_chart 0 [two_regions ++ [("date", Object [PyStr "2021-03-01"; PyStr "2021-03-02"]);
                                   ("new_vaccinations", Float64 [5; 7]%float)]]
    = (Ok fig, h') ∧
    data fig = [bar {| bar_x := []; bar_y := []; bar_name := None |}].
Proof.
  destruct (third_chart_returns 0
              [two_regions ++ [("date", Object [PyStr "2021-03-01"; PyStr "2021-03-02"]);
                               ("new_vaccinations", Float64 [5; 7]%float)]]
              _ _ _ _ eq_refl eq_refl eq_refl eq_refl)
    as (fig & h' & Hrun & _ & Hempty).
  exists fig, h'. split; [exact Hrun|]. apply Hempty. reflexivity.
Defined.

Lemma return_figures_returns_sample :
  ∃ figures h',
    return_figures stable_env [] = (Ok figures, h') ∧
    [] `prefix_of` h' ∧
    (λ fig, length (data fig)) <$> figures = [1; 2; 1; 1; 7].
Proof.
  eapply (return_figures_returns stable_env [] sample 16).
  - reflexivity.
  - repeat (constructor; [reflexivity|]). constructor.
  - reflexivity.
  - typed_columns.
  - reflexivity.
  - reflexivity.
  - reflexivity.
  - reflexivity.
  - reflexivity.
  - reflexivity.
  - repeat (constructor; [vm_compute; lia|]). constructor.
Defined.

Lemma return_figures_needs_a_rate_for_each_country_sample :
  ∃ e h', return_figures env_without_turkey [] = (Raise e, h').
Proof.
  eapply (return_figures_needs_a_rate_for_each_country env_without_turkey []
            sample_without_turkey _ _ _ "Turkey").
  - reflexivity.
  - reflexivity.
  - reflexivity.
  - reflexivity.
  - in_list.
  - reflexivity.
Defined.

Lemma missing_file_raises_FileNotFoundError_sample :
  clean_data stable_env "data/missing.csv" cols []
  = (Raise (FileNotFoundError "data/missing.csv"), []) ∧
  return_figures env_without_files [] = (Raise (FileNotFoundError owid_path), []).
Proof.
  split.
  - apply (proj1 (missing_file_raises_FileNotFoundError stable_env)). reflexivity.
  - apply (proj2 (missing_file_raises_FileNotFoundError env_without_files)).
    reflexivity.
Defined.

Lemma vax_per_continent_needs_seven_columns_two_regions :
  ∃ missing h',
    vax_per_continent stable_env 0 "South America" [two_regions]
    = (Raise (KeyError missing), h').
Proof.
  apply (vax_per_continent_needs_seven_columns stable_env 0 "South America"
           [two_regions] two_regions "location"); [reflexivity|in_list|].
  cbn. rewrite !not_elem_of_cons. split_and!; try done. apply not_elem_of_nil.
Defined.

Lemma continent_map_of_south_america :
  ∃ fig h',
    vax_per_continent stable_env 0 "South America" [sample] = (Ok fig, h') ∧
    ∃ snap continents location fully c,
      regrouped stable_env sample = Ok snap ∧
      column snap "continent" = Ok continents ∧
      column snap "location" = Ok location ∧
      column snap "people_fully_vaccinated_per_hundred" = Ok fully ∧
      data fig = [choropleth c] ∧
      objects (locations c)
      = (filter (λ p, p.1 = PyStr "South America")
           (zip (objects continents) (objects location))).*2 ∧
      objects (z c)
      = (filter (λ p, p.1 = PyStr "South America")
           (zip (objects continents) (objects fully))).*2 ∧
      text c = locations c ∧
      title (layout fig) = "People fully vaccinated per hundred in South America" ∧
      scope <$> geos fig = Some "south america".
Proof.
  eexists _, _. split; [by vm_compute|].
  eapply (continent_map_shows_the_regions_of_the_continent stable_env 0
            "South America" [sample] sample); [reflexivity|by vm_compute].
Defined.

Lemma the_rate_is_added_to_the_columns_of_the_sample :
  ∃ csv df rate_column,
    files stable_env owid_path = Some csv ∧
    [sample_with_rate] !! 0 = Some df ∧
    column df "new_vaccinations_per_hundred" = Ok rate_column ∧
    (∀ key, key ≠ "new_vaccinations_per_hundred" → column df key = column csv key) ∧
    df.*1 = if decide ("new_vaccinations_per_hundred" ∈ csv.*1) then csv.*1
            else csv.*1 ++ ["new_vaccinations_per_hundred"].
Proof.
  apply (the_rate_is_added_to_the_columns_of_the_file stable_env owid_path [] 0).
  by vm_compute.
Defined.

Lemma vax_per_continent_rebuilds_the_snapshot_of_the_sample :
  ∃ snap,
    (clean_data stable_env owid_path cols []).2 !! 4 = Some snap ∧
    (vax_per_continent_frames stable_env 0 "South America" [sample_with_rate]).2 !! 4
    = Some snap.
Proof.
  apply (vax_per_continent_rebuilds_the_snapshot_of_clean_data stable_env
           [] 4 _ [] 0 [sample_with_rate] "South America" (4, 5));
    by vm_compute.
Defined.


Lemma unknown_continent_selects_no_row_sample :
  ∃ frames h' world_vax cont_vax continents,
    vax_per_continent_frames stable_env 0 "Atlantis" [sample] = (Ok frames, h') ∧
    h' !! frames.1 = Some world_vax ∧
    h' !! frames.2 = Some cont_vax ∧
    column world_vax "continent" = Ok continents ∧
    cont_vax.*1 = world_vax.*1 ∧
    (PyStr "Atlantis" ∉ objects continents → Forall (λ c, size c.2 = 0) cont_vax).
Proof.
  eapply (unknown_continent_selects_no_row stable_env 0 "Atlantis" [sample] sample).
  - reflexivity.
  - reflexivity.
  - typed_columns.
  - reflexivity.
  - reflexivity.
Defined.

(** No region of the sample is in Atlantis: the selection is empty. *)
Example no_region_in_atlantis :
  (λ cont_vax, size <$> column cont_vax "location")
    <$> (vax_per_continent_frames stable_env 0 "Atlantis" [sample]).2 !! 5
  = Some (Ok 0).
Proof. by vm_compute. Qed.

(** Without a row for Turkey, what [return_figures] raises is the
    [IndexError] of the fifth chart. *)
Example return_figures_without_turkey :
  (return_figures env_without_turkey []).1 = Raise IndexError.
Proof. by vm_compute. Qed.
